(** * MailBeacon: the discovery pipeline, embedded in Rocq

  A shallow embedding of the Python sources under [backend/app/core]
  (domain_utils.py, dns_utils.py, patterns.py, smtp_utils.py, beacon.py)
  together with the exception classes of [backend/app/exceptions.py].

  Conventions of the embedding:
  - Python [str] is [string]; [str.lower()] is ASCII lower-casing.
  - Python [int] is [Z]; the sleep durations (Python floats) are rationals.
  - A Python exception is a value carrying the names of the classes of its
    method resolution order; [isinstance] is membership in that list, and
    every exception is an [Exception].
  - The name spaces of the modules are kept: the class expression of an
    [except] clause is looked up in the globals of its module.
  - [Set[str]] is [gset string], [Dict[str, str]] is [gmap string string].
  - Code that performs I/O runs in the monad [M] of state and exceptions
    over a [world] that records the commands sent, the sleeps taken, the
    position in the random stream and the number of SMTP connections.
    The network peers (DNS, SMTP server) are oracles collected in [env].
  - Of the libraries, [aiosmtplib] is modelled as far as it decides what
    the caller sees of a reply: [mail] returns a reply of 250 and [rcpt]
    one of 250 or 251, every other reply is raised as an exception. The
    validation of a pydantic [EmailStr] is an oracle of [env]. *)

From Stdlib Require Import ZArith QArith Psatz List Ascii String Bool.
From Stdlib Require Import Permutation Sorted DecimalString.
From stdpp Require Import gmap strings.
Import ListNotations.

Local Open Scope Z_scope.

(* ===================================================================== *)
(** ** Python strings *)
(* ===================================================================== *)

Module Py.

(** [c.lower()] on one ASCII character. *)
Definition lower_char (c : ascii) : ascii :=
  let n := nat_of_ascii c in
  if ((65 <=? n) && (n <=? 90))%nat then ascii_of_nat (n + 32) else c.

(** [s.lower()] *)
Fixpoint lower (s : string) : string :=
  match s with
  | EmptyString => EmptyString
  | String c s' => String (lower_char c) (lower s')
  end.

(** [s.startswith(prefix)] *)
Fixpoint startswith (s prefix : string) {struct prefix} : bool :=
  match prefix, s with
  | EmptyString, _ => true
  | String _ _, EmptyString => false
  | String p ps, String c cs => Ascii.eqb c p && startswith cs ps
  end.

(** [sub in s] *)
Fixpoint contains (sub s : string) : bool :=
  match s with
  | EmptyString => startswith s sub
  | String _ s' => startswith s sub || contains sub s'
  end.

(** [s.endswith(suffix)] *)
Fixpoint endswith (s suffix : string) : bool :=
  match s with
  | EmptyString => String.eqb suffix EmptyString
  | String _ s' => String.eqb s suffix || endswith s' suffix
  end.

(** [s[n:]] *)
Fixpoint drop (n : nat) (s : string) : string :=
  match n, s with
  | O, _ => s
  | S _, EmptyString => EmptyString
  | S n', String _ s' => drop n' s'
  end.

(** [s.removeprefix(prefix)]: removes the prefix once, if present. *)
Definition removeprefix (s prefix : string) : string :=
  if startswith s prefix then drop (String.length prefix) s else s.

(** [s.rstrip(c)] for a one-character argument. *)
Fixpoint rstrip (s : string) (c : ascii) : string :=
  match s with
  | EmptyString => EmptyString
  | String a s' =>
      match rstrip s' c with
      | EmptyString => if Ascii.eqb a c then EmptyString else String a EmptyString
      | r => String a r
      end
  end.

(** [s.partition(sep)] for a one-character separator: the text before the
    first separator and, when there is one, the text after it. *)
Fixpoint partition (s : string) (sep : ascii) : string * option string :=
  match s with
  | EmptyString => (EmptyString, None)
  | String c s' =>
      if Ascii.eqb c sep then (EmptyString, Some s')
      else let '(before, after) := partition s' sep in (String c before, after)
  end.

(** [s.split(sep)[0]], which is also [s.split(sep, 1)[0]]. *)
Definition split_first (s : string) (sep : ascii) : string :=
  fst (partition s sep).

(** [s.split(sep)[-1]]: the text after the last separator. *)
Fixpoint split_last_from (acc s : string) (sep : ascii) : string :=
  match s with
  | EmptyString => acc
  | String c s' =>
      if Ascii.eqb c sep then split_last_from EmptyString s' sep
      else split_last_from (acc +:+ String c EmptyString) s' sep
  end.

Definition split_last (s : string) (sep : ascii) : string :=
  split_last_from EmptyString s sep.

(** [str(n)] for an [int]. *)
Definition str_of_int (n : Z) : string :=
  NilZero.string_of_int (Z.to_int n).

(** Truthiness of a string: [bool(s)]. *)
Definition nonempty (s : string) : bool :=
  match s with EmptyString => false | String _ _ => true end.

(** *** Exceptions *)

(** An exception value: the class names of its MRO (most specific first),
    [str(e)], and the [code] / [message] attributes that response
    exceptions carry ([e.args[0]] / [e.args[1]] for [aiodns] errors). *)
Record exn := Exn {
  exn_mro : list string;
  exn_str : string;
  exn_code : Z;
  exn_message : string
}.

(** Every exception value is an instance of [Exception]: cancellation
    and interpreter exit are not modelled. *)
Definition isinstance (e : exn) (cls : string) : bool :=
  String.eqb cls "Exception" || String.eqb cls "BaseException"
  || existsb (String.eqb cls) (exn_mro e).
#[global] Arguments isinstance : simpl never.

Definition builtin (cls : string) (mro : list string) (text : string) : exn :=
  Exn (cls :: mro) text 0 EmptyString.

Definition ValueError (text : string) : exn :=
  builtin "ValueError" ["Exception"; "BaseException"] text.

Definition NameError (name : string) : exn :=
  builtin "NameError" ["Exception"; "BaseException"]
          ("name '" +:+ name +:+ "' is not defined").

(** The outcome of a call: a value or a raised exception. *)
Inductive result (A : Type) : Type :=
| Ok (a : A)
| Raise (e : exn).
Arguments Ok {A} a.
Arguments Raise {A} e.

Definition builtins : list string :=
  ["BaseException"; "Exception"; "ValueError"; "OSError"; "NameError"].

(** A dotted name [m.X] is an attribute of the imported module [m]. *)
Definition name_bound (globals : list string) (name : string) : bool :=
  existsb (String.eqb (split_first name ".")) (globals ++ builtins).

(** Evaluation of the class expression of an [except (N1, ..., Nk)]
    clause in a module whose global names are [globals]: the names are
    looked up left to right, and an unbound one raises [NameError]. *)
Fixpoint eval_except_names (globals : list string) (names : list string)
  : result (list string) :=
  match names with
  | [] => Ok []
  | n :: rest =>
      if name_bound globals n then
        match eval_except_names globals rest with
        | Ok cs => Ok (n :: cs)
        | Raise e => Raise e
        end
      else Raise (NameError n)
  end.

Definition isinstance_any (e : exn) (classes : list string) : bool :=
  existsb (isinstance e) classes.

(** [try: body except C1: h1 except C2: h2 ...] for code without effects.
    The clauses are tried in order; the class expression of a clause is
    evaluated only when an exception reaches it; an exception that no
    clause matches propagates. *)
Fixpoint handle {A : Type} (globals : list string)
         (clauses : list (list string * (exn -> result A))) (e : exn)
  : result A :=
  match clauses with
  | [] => Raise e
  | (names, handler) :: rest =>
      match eval_except_names globals names with
      | Raise name_error => Raise name_error
      | Ok classes =>
          if isinstance_any e classes then handler e
          else handle globals rest e
      end
  end.

Definition try_except {A : Type} (body : result A) (globals : list string)
           (clauses : list (list string * (exn -> result A))) : result A :=
  match body with
  | Ok a => Ok a
  | Raise e => handle globals clauses e
  end.

(** [l.sort(key=...)]: a stable sort; [lt a b] is [key(a) < key(b)]. *)
Fixpoint sort_insert {A : Type} (lt : A -> A -> bool) (x : A) (l : list A)
  : list A :=
  match l with
  | [] => [x]
  | y :: l' => if lt y x then y :: sort_insert lt x l' else x :: y :: l'
  end.

Definition sort_by {A : Type} (lt : A -> A -> bool) (l : list A) : list A :=
  fold_right (sort_insert lt) [] l.

(** In a list sorted by [lt], [a] may stand before [b] when
    [key(b) < key(a)] does not hold. *)
Definition not_after {A : Type} (lt : A -> A -> bool) (a b : A) : Prop :=
  lt b a = false.

(** [l.sort(key=..., reverse=True)]: descending, and still stable. *)
Definition sort_by_reverse {A : Type} (lt : A -> A -> bool) (l : list A)
  : list A :=
  sort_by (fun a b => lt b a) l.

(** *** White space and sets of strings *)

(** ASCII white space, as [str.isspace] has it: what [split()] without
    argument cuts at. *)
Definition is_space (c : ascii) : bool :=
  let n := nat_of_ascii c in
  (((9 <=? n) && (n <=? 13)) || ((28 <=? n) && (n <=? 32)))%nat.

(** [s.split()]: the maximal runs of characters that are not white space;
    [word] is the run that is being read. *)
Fixpoint split_whitespace_from (word s : string) : list string :=
  match s with
  | EmptyString => if nonempty word then [word] else []
  | String c s' =>
      if is_space c then
        if nonempty word then word :: split_whitespace_from EmptyString s'
        else split_whitespace_from EmptyString s'
      else split_whitespace_from (word +:+ String c EmptyString) s'
  end.

Definition split_whitespace (s : string) : list string :=
  split_whitespace_from EmptyString s.

(** [sorted(list(set(l)))] for strings: ascending by code point and
    without duplicates. The order in which the set is iterated does not
    show in the result. *)
Definition sorted_set (l : list string) : list string :=
  sort_by String.ltb (remove_dups l).

End Py.
Export Py.

(* ===================================================================== *)
(** ** app/exceptions.py *)
(* ===================================================================== *)

Module Exceptions.

(** [EmailSleuthError.__init__(message, status_code)]: [str(e)] is the
    message; the status code is kept in [exn_code]. *)
Definition sleuth (mro : list string) (message : string) (status : Z) : exn :=
  Exn (mro ++ ["EmailSleuthError"; "Exception"; "BaseException"])
      message status message.

Definition DnsError (message : string) : exn :=
  sleuth ["DnsError"] ("DNS Resolution Error: " +:+ message) 503.

Definition DnsError_sub (cls : string) (message : string) (status : Z) : exn :=
  sleuth [cls; "DnsError"] ("DNS Resolution Error: " +:+ message) status.

Definition NxDomainError (domain : string) : exn :=
  DnsError_sub "NxDomainError" ("Domain Not Found (NXDOMAIN): " +:+ domain) 404.

Definition NoDnsRecordsError (domain : string) : exn :=
  DnsError_sub "NoDnsRecordsError" ("No DNS Records Found (MX/A): " +:+ domain) 404.

Definition DnsTimeoutError (domain : string) : exn :=
  DnsError_sub "DnsTimeoutError" ("DNS Timeout for domain: " +:+ domain) 504.

Definition SmtpError (message : string) : exn :=
  sleuth ["SmtpError"] ("SMTP Error: " +:+ message) 503.

Definition DomainExtractionError (message : string) : exn :=
  sleuth ["DomainExtractionError"]
         ("Failed to extract domain from URL: " +:+ message) 400.


Definition UrlParseError (message : string) : exn :=
  sleuth ["UrlParseError"] ("URL Parsing Error: " +:+ message) 400.

Definition InsufficientInputError (message : string) : exn :=
  sleuth ["InsufficientInputError"]
         ("Insufficient Input Data: " +:+ message) 400.

End Exceptions.

(* ===================================================================== *)
(** ** urllib.parse.urlparse, as far as [extract_domain] reads it *)
(* ===================================================================== *)

Module Urllib.

Record ParseResult := {
  netloc : string;
  hostname : option string
}.

Definition is_alpha (c : ascii) : bool :=
  let n := nat_of_ascii c in
  (((65 <=? n) && (n <=? 90)) || ((97 <=? n) && (n <=? 122)))%nat.

Definition is_digit (c : ascii) : bool :=
  let n := nat_of_ascii c in ((48 <=? n) && (n <=? 57))%nat.

Definition is_scheme_char (c : ascii) : bool :=
  is_alpha c || is_digit c
  || Ascii.eqb c "+" || Ascii.eqb c "-" || Ascii.eqb c ".".

Fixpoint all_chars (p : ascii -> bool) (s : string) : bool :=
  match s with
  | EmptyString => true
  | String c s' => p c && all_chars p s'
  end.

(** The text that follows the scheme and its colon, when there is one. *)
Definition after_scheme (url : string) : string :=
  match url, partition url ":" with
  | String c0 _, (before, Some rest) =>
      if nonempty before && is_alpha c0 && all_chars is_scheme_char before
      then rest else url
  | _, _ => url
  end.

(** [_splitnetloc]: up to the first of [/], [?], [#]. *)
Fixpoint until_delim (s : string) : string :=
  match s with
  | EmptyString => EmptyString
  | String c s' =>
      if Ascii.eqb c "/" || Ascii.eqb c "?" || Ascii.eqb c "#"
      then EmptyString else String c (until_delim s')
  end.

Definition hostname_of (netloc : string) : option string :=
  let hostinfo := split_last netloc "@" in
  let name :=
    match partition hostinfo "[" with
    | (_, Some bracketed) => split_first bracketed "]"
    | (_, None) => split_first hostinfo ":"
    end in
  if nonempty name then
    match partition name "%" with
    | (h, Some zone) => Some (lower h +:+ "%" +:+ zone)
    | (h, None) => Some (lower h)
    end
  else None.

(** A model of CPython's [urlparse]: the scheme is split off, the network
    location is what follows [//] up to the first delimiter, and unmatched
    square brackets raise [ValueError]. *)
Definition urlparse (url : string) : result ParseResult :=
  let rest := after_scheme url in
  let loc := if startswith rest "//" then until_delim (drop 2 rest)
             else EmptyString in
  if (contains "[" loc && negb (contains "]" loc))
     || (contains "]" loc && negb (contains "[" loc))
  then Raise (ValueError "Invalid IPv6 URL")
  else Ok {| netloc := loc; hostname := hostname_of loc |}.

(** The [scheme] attribute: the lower-cased text before the first colon
    when that text is a scheme name, and the empty string otherwise. *)
Definition scheme_of (url : string) : string :=
  match url, partition url ":" with
  | String c0 _, (before, Some _) =>
      if nonempty before && is_alpha c0 && all_chars is_scheme_char before
      then lower before else EmptyString
  | _, _ => EmptyString
  end.

(** [urlparse] for a caller that also reads [scheme]: the result is
    [(parsed.scheme, parsed)]. *)
Definition urlparse_with_scheme (url : string)
  : result (string * ParseResult) :=
  match urlparse url with
  | Ok parsed => Ok (scheme_of url, parsed)
  | Raise e => Raise e
  end.

End Urllib.

(* ===================================================================== *)
(** ** app/core/domain_utils.py *)
(* ===================================================================== *)

Module DomainUtils.
Import Exceptions Urllib.

Definition module_globals : list string :=
  ["logging"; "urlparse"; "ParseResult";
   "DomainExtractionError"; "UrlParseError"; "InsufficientInputError";
   "log"; "extract_domain"; "normalize_url"].

(** [extract_domain(url_str)]; the parser is a parameter so that the
    properties below do not depend on one version of the library. *)
Definition extract_domain (urlparse : string -> result ParseResult)
           (url_str : string) : result string :=
  if negb (nonempty url_str) then
    Raise (DomainExtractionError "Input URL string is empty")
  else
    let url_str_with_scheme :=
      if negb (startswith url_str "http://")
         && negb (startswith url_str "https://")
      then "https://" +:+ url_str else url_str in
    match try_except (urlparse url_str_with_scheme) module_globals
            [ (["ValueError"], fun _ =>
                 Raise (DomainExtractionError
                          ("Could not parse URL: " +:+ url_str_with_scheme))) ]
    with
    | Raise e => Raise e
    | Ok parsed_url =>
        let host0 :=
          if nonempty (netloc parsed_url) then Some (netloc parsed_url)
          else match hostname parsed_url with
               | Some h => if nonempty h then Some h else None
               | None => None
               end in
        match host0 with
        | None =>
            Raise (DomainExtractionError
                     ("Could not extract host from parsed URL: "
                      +:+ url_str_with_scheme))
        | Some host =>
            let host := if contains ":" host then split_first host ":"
                        else host in
            let domain := removeprefix host "www." in
            let final_domain := lower domain in
            if negb (nonempty final_domain) then
              Raise (DomainExtractionError
                       ("Extracted domain is empty for URL: " +:+ url_str))
            else Ok final_domain
        end
    end.

(** The parse result without its scheme, as [extract_domain] reads it. *)
Definition without_scheme (urlparse : string -> result (string * ParseResult))
           (url : string) : result ParseResult :=
  match urlparse url with
  | Ok (_, parsed) => Ok parsed
  | Raise e => Raise e
  end.

(** [normalize_url(url_str)]; the parser gives [(parsed.scheme, parsed)]. *)
Definition normalize_url (urlparse : string -> result (string * ParseResult))
           (url_str : string) : result string :=
  if negb (nonempty url_str) then
    Raise (InsufficientInputError "Website URL is empty")
  else
    let url_str_with_scheme :=
      if negb (startswith url_str "http://")
         && negb (startswith url_str "https://")
      then "https://" +:+ url_str else url_str in
    match try_except
            (match urlparse url_str_with_scheme with
             | Raise e => Raise e
             | Ok (scheme, parsed) =>
                 if negb (nonempty scheme) || negb (nonempty (netloc parsed))
                 then Raise (UrlParseError
                               ("Invalid URL structure after normalization: "
                                +:+ url_str_with_scheme))
                 else Ok tt
             end)
            module_globals
            [ (["ValueError"], fun e =>
                 Raise (UrlParseError
                          ("Failed to parse normalized URL '"
                           +:+ url_str_with_scheme +:+ "': " +:+ exn_str e))) ]
    with
    | Raise e => Raise e
    | Ok _ => Ok url_str_with_scheme
    end.

End DomainUtils.

(* ===================================================================== *)
(** ** app/core/dns_utils.py *)
(* ===================================================================== *)

Module DnsUtils.
Import Exceptions.

Record MailServer := {
  exchange : string;
  preference : Z
}.

(** An answer record of [aiodns]: [host] and, for MX, [priority]. *)
Record dns_record := {
  host : string;
  priority : Z
}.

(** [aiodns.error] codes (the c-ares status values). *)
Definition ARES_ENODATA : Z := 1.
Definition ARES_ENOTFOUND : Z := 4.
Definition ARES_ETIMEOUT : Z := 12.

Definition aiodns_DNSError (code : Z) (text : string) : exn :=
  Exn ["aiodns.error.DNSError"; "Exception"; "BaseException"] text code text.

Definition asyncio_TimeoutError : exn :=
  Exn ["asyncio.TimeoutError"; "Exception"; "BaseException"]
      EmptyString 0 EmptyString.

(** [asyncio.wait_for(resolver.query(domain, query_type), timeout)]:
    the name servers are an oracle from query type and domain to the
    answer or the exception of the query. *)
Definition resolver := string -> string -> result (list dns_record).

Definition module_globals : list string :=
  ["asyncio"; "logging"; "socket"; "List"; "Optional"; "NamedTuple";
   "aiodns"; "Settings";
   "DnsError"; "NxDomainError"; "NoDnsRecordsError"; "DnsTimeoutError";
   "log"; "MailServer"; "create_resolver"; "_query_with_timeout";
   "resolve_a_record_fallback"; "resolve_mail_server"; "main"].

Definition _query_with_timeout (r : resolver) (query_type domain : string)
  : result (list dns_record) :=
  try_except (r query_type domain) module_globals
    [ (["asyncio.TimeoutError"], fun _ => Raise (DnsTimeoutError domain));
      (["aiodns.error.DNSError"], fun e =>
         let err_code := exn_code e in
         let err_str := exn_message e in
         if (err_code =? ARES_ENOTFOUND) || contains "NXDOMAIN" err_str then
           Raise (NxDomainError domain)
         else if err_code =? ARES_ENODATA then
           Raise (NoDnsRecordsError domain)
         else if err_code =? ARES_ETIMEOUT then
           Raise (DnsTimeoutError domain)
         else
           Raise (DnsError ("DNS " +:+ query_type +:+ " lookup failed for "
                            +:+ domain +:+ ": " +:+ err_str +:+ " (Code: "
                            +:+ str_of_int err_code +:+ ")")));
      (["Exception"], fun e =>
         Raise (DnsError ("Unexpected error during DNS " +:+ query_type
                          +:+ " query for " +:+ domain +:+ ": "
                          +:+ exn_str e))) ].

Definition resolve_a_record_fallback (r : resolver) (domain : string)
  : result MailServer :=
  try_except
    (match _query_with_timeout r "A" domain with
     | Raise e => Raise e
     | Ok a_records =>
         match a_records with
         | first :: _ =>
             Ok {| exchange := host first; preference := 65535 |}
         | [] => Raise (NoDnsRecordsError domain)
         end
     end)
    module_globals
    [ (["NoDnsRecordsError"], fun e => Raise e);
      (["NxDomainError"; "DnsTimeoutError"; "DnsError"], fun e => Raise e) ].

(** [key=lambda r: r.priority] *)
Definition by_priority (a b : dns_record) : bool :=
  priority a <? priority b.

Definition resolve_mail_server (r : resolver) (domain : string)
  : result MailServer :=
  try_except
    (match _query_with_timeout r "MX" domain with
     | Raise e => Raise e
     | Ok mx_records =>
         match mx_records with
         | [] => resolve_a_record_fallback r domain
         | first :: _ =>
             let sorted := sort_by by_priority mx_records in
             let best_mx := hd first sorted in
             let exchange := rstrip (host best_mx) "." in
             let preference := priority best_mx in
             if negb (nonempty exchange) then
               Raise (NoDnsRecordsError
                        ("Empty exchange in MX record for " +:+ domain))
             else
               Ok {| exchange := exchange; preference := preference |}
         end
     end)
    module_globals
    [ (["NoDnsRecordsError"], fun _ => resolve_a_record_fallback r domain);
      (["NxDomainError"; "DnsTimeoutError"; "DnsError"], fun e => Raise e) ].

End DnsUtils.

(* ===================================================================== *)
(** ** The effects: commands sent, sleeps, random draws *)
(* ===================================================================== *)

Module IO.

Inductive event : Type :=
| SmtpConnect (hostname : string) (port : Z)
| SmtpEhlo (hostname : string)
| SmtpMail (sender : string)
| SmtpRcpt (recipient : string)
| SmtpQuit
| Sleep (seconds : Q).

Record world := World {
  rng_pos : nat;            (* draws taken from the random source *)
  connections : nat;        (* SMTP clients created so far *)
  trace : list event        (* what was sent and slept, oldest first *)
}.

Definition M (A : Type) : Type := world -> result A * world.

Definition ret {A : Type} (a : A) : M A := fun w => (Ok a, w).

Definition raise {A : Type} (e : exn) : M A := fun w => (Raise e, w).

Definition bind {A B : Type} (m : M A) (k : A -> M B) : M B :=
  fun w =>
    match m w with
    | (Ok a, w') => k a w'
    | (Raise e, w') => (Raise e, w')
    end.

Definition lift {A : Type} (r : result A) : M A := fun w => (r, w).

Notation "'let!' x ':=' m 'in' k" := (bind m (fun x => k))
  (at level 10, x pattern, m at level 100, k at level 200).

Definition emit (ev : event) : M unit :=
  fun w => (Ok tt, {| rng_pos := rng_pos w;
                      connections := connections w;
                      trace := trace w ++ [ev] |}).

(** [try: body except ...] for code with effects. *)
Fixpoint handleM {A : Type} (globals : list string)
         (clauses : list (list string * (exn -> M A))) (e : exn) : M A :=
  match clauses with
  | [] => raise e
  | (names, handler) :: rest =>
      match eval_except_names globals names with
      | Raise name_error => raise name_error
      | Ok classes =>
          if isinstance_any e classes then handler e
          else handleM globals rest e
      end
  end.

Definition try_exceptM {A : Type} (body : M A) (globals : list string)
           (clauses : list (list string * (exn -> M A))) : M A :=
  fun w =>
    match body w with
    | (Ok a, w') => (Ok a, w')
    | (Raise e, w') => handleM globals clauses e w'
    end.

(** [try: body finally: cleanup] *)
Definition try_finally {A : Type} (body : M A) (cleanup : M unit) : M A :=
  fun w =>
    let '(r, w1) := body w in
    match cleanup w1 with
    | (Ok _, w2) => (r, w2)
    | (Raise e, w2) => (Raise e, w2)
    end.

(** What the peer does during one connection. [connect], [ehlo] and
    [quit] succeed or raise. To [MAIL FROM] and [RCPT TO] the server
    sends a reply [(code, text)], whatever its code, or the transport
    fails with an exception (a timeout, a closed connection); what the
    client library makes of a reply is in [Aiosmtplib] below. The replies
    to [RCPT TO] depend on how many were sent before and on the
    recipient. *)
Record smtp_session := {
  on_connect : result unit;
  on_ehlo : result unit;
  mail_reply : string -> result (Z * string);
  rcpt_reply : nat -> string -> result (Z * string);
  on_quit : result unit;
  (** [smtp_client.is_connected] when the [finally] clause runs *)
  connected_at_close : bool
}.

Record env := {
  (** the raw draws of the [random] module *)
  random_source : nat -> N;
  (** the behaviour of the peer on the n-th connection *)
  smtp_server : nat -> smtp_session;
  (** the validation of a pydantic [EmailStr] field: the address as the
      model stores it, or [None] where the value is refused *)
  email_str : string -> option string
}.

(** *** The [random] module and [asyncio.sleep] *)

Definition next_random (E : env) : M N :=
  fun w => (Ok (random_source E (rng_pos w)),
            {| rng_pos := S (rng_pos w);
               connections := connections w;
               trace := trace w |}).

(** [random.choice(seq)] on a string *)
Definition random_choice (E : env) (seq : string) : M ascii :=
  let! raw := next_random E in
  let i := N.to_nat (raw mod N.of_nat (String.length seq)) in
  ret (match String.get i seq with Some c => c | None => "000"%char end).

(** [random.random()]: a multiple of 2^-53 in [0, 1) *)
Definition random_unit (raw : N) : Q :=
  Z.of_N (raw mod 2 ^ 53) # 2 ^ 53.

(** [random.uniform(a, b)] is [a + (b - a) * random()] *)
Definition random_uniform (E : env) (a b : Q) : M Q :=
  let! raw := next_random E in
  ret (a + (b - a) * random_unit raw)%Q.

Definition Qlt_bool (a b : Q) : bool := negb (Qle_bool b a).

(** [random.uniform(min, max) if max > min else min], then
    [asyncio.sleep] *)
Definition sleep_between (E : env) (range : Q * Q) : M unit :=
  let '(min_sleep, max_sleep) := range in
  let! sleep_duration :=
    (if Qlt_bool min_sleep max_sleep
     then random_uniform E min_sleep max_sleep
     else ret min_sleep) in
  emit (Sleep sleep_duration).

End IO.
Export IO.

(* ===================================================================== *)
(** ** The libraries: aiosmtplib and pydantic, as far as the core calls
       them *)
(* ===================================================================== *)

Module Aiosmtplib.

(** aiosmtplib/errors.py: [SMTPSenderRefused(code, message, sender)] and
    [SMTPRecipientRefused(code, message, recipient)], both subclasses of
    [SMTPResponseException]. [str(e)] is that of the tuple [e.args],
    written out for texts without quotes. *)
Definition refused (cls : string) (code : Z) (message address : string)
  : exn :=
  Exn [cls; "aiosmtplib.SMTPResponseException"; "aiosmtplib.SMTPException";
       "Exception"; "BaseException"]
      ("(" +:+ str_of_int code +:+ ", '" +:+ message +:+ "', '" +:+ address
       +:+ "')")
      code message.

Definition SMTPSenderRefused (code : Z) (message sender : string) : exn :=
  refused "aiosmtplib.SMTPSenderRefused" code message sender.

Definition SMTPRecipientRefused (code : Z) (message recipient : string)
  : exn :=
  refused "aiosmtplib.SMTPRecipientRefused" code message recipient.

(** [SMTP.mail(sender)]: the reply is returned when its code is 250;
    every other reply is raised as [SMTPSenderRefused]. *)
Definition mail (S : smtp_session) (sender : string) : result (Z * string) :=
  match mail_reply S sender with
  | Ok (code, message) =>
      if code =? 250 then Ok (code, message)
      else Raise (SMTPSenderRefused code message sender)
  | Raise e => Raise e
  end.

(** [SMTP.rcpt(recipient)], for the [n]-th [RCPT TO] of the connection:
    the reply is returned when its code is 250 or 251; every other reply
    is raised as [SMTPRecipientRefused]. *)
Definition rcpt (S : smtp_session) (n : nat) (recipient : string)
  : result (Z * string) :=
  match rcpt_reply S n recipient with
  | Ok (code, message) =>
      if (code =? 250) || (code =? 251) then Ok (code, message)
      else Raise (SMTPRecipientRefused code message recipient)
  | Raise e => Raise e
  end.

(** [aiosmtplib.email.parse_address(address)]: the address that
    [email.utils.parseaddr] finds in the text or, when it finds none, the
    text itself without surrounding white space. It raises nothing, and
    the caller drops its value. *)
Definition parse_address (address : string) : result unit := Ok tt.

End Aiosmtplib.

Module Pydantic.

Definition newline : string := String "010" EmptyString.

(** [pydantic.ValidationError], a [ValueError], for a model whose one
    refused field is an [EmailStr]. *)
Definition ValidationError (model field : string) : exn :=
  builtin "ValidationError" ["ValueError"; "Exception"; "BaseException"]
          ("1 validation error for " +:+ model +:+ newline +:+ field
           +:+ newline
           +:+ "  value is not a valid email address (type=value_error.email)").

(** The validation of [value] for the [EmailStr] field [field] of
    [model]. *)
Definition EmailStr (E : env) (model field value : string) : result string :=
  match email_str E value with
  | Some address => Ok address
  | None => Raise (ValidationError model field)
  end.

End Pydantic.

(* ===================================================================== *)
(** ** app/config.py: the settings the core reads *)
(* ===================================================================== *)

Module Config.

Record Settings := {
  smtp_timeout : Z;
  smtp_sender_email : string;
  max_verification_attempts : Z;
  sleep_between_requests : Q * Q;
  confidence_threshold : Z;
  generic_confidence_threshold : Z;
  generic_email_prefixes : gset string;
  (** [settings.email_regex.match(s)] finds a match *)
  email_regex_match : string -> bool
}.

End Config.

(* ===================================================================== *)
(** ** app/core/patterns.py *)
(* ===================================================================== *)

Module Patterns.
Import Config.

Definition _sanitize_name_part (part : string) : string :=
  if negb (nonempty part) then EmptyString
  else lower (String.concat EmptyString (split_whitespace part)).

(** The set [local_parts], in the order in which the source lists its
    elements. *)
Definition local_parts (first last : string) : list string :=
  let first_initial := substring 0 1 first in
  let last_initial := substring 0 1 last in
  [ first;
    first +:+ "." +:+ last;
    first +:+ last;
    last +:+ "." +:+ first;
    last +:+ first;
    first_initial +:+ last;
    first_initial +:+ "." +:+ last;
    first +:+ last_initial;
    first +:+ "." +:+ last_initial;
    first +:+ "_" +:+ last;
    first +:+ "-" +:+ last;
    last +:+ "_" +:+ first;
    last +:+ "-" +:+ first ]
  ++ (if (3 <=? String.length first)%nat
      then [substring 0 3 first +:+ last] else [])
  ++ (if (3 <=? String.length last)%nat
      then [first +:+ substring 0 3 last] else []).

Definition generate_email_patterns (first_name last_name domain : string)
           (settings : Settings) : list string :=
  if negb (nonempty first_name) || negb (nonempty last_name)
     || negb (nonempty domain) || negb (contains "." domain)
  then []
  else
    let first := _sanitize_name_part first_name in
    let last := _sanitize_name_part last_name in
    if negb (nonempty first) || negb (nonempty last) then []
    else
      let patterns_set :=
        List.filter (fun email => email_regex_match settings email)
          (map (fun lp => lp +:+ "@" +:+ domain)
               (List.filter (fun lp => nonempty lp)
                            (local_parts first last)))
      in
      sorted_set patterns_set.

(** [extract_emails_from_text(text, settings)]; [findall] is
    [settings.email_regex.findall]. *)
Definition extract_emails_from_text (findall : string -> list string)
           (text : string) : list string :=
  if negb (nonempty text) then []
  else sorted_set (map lower (findall text)).

End Patterns.

(* ===================================================================== *)
(** ** app/core/smtp_utils.py *)
(* ===================================================================== *)

Module SmtpUtils.
Import Exceptions DnsUtils Config.

Record SmtpVerificationResultInternal := {
  exists_ : option bool;
  message : string;
  should_retry : bool;
  is_catch_all : bool
}.

Definition conclusive (e : bool) (msg : string) (catch_all : bool) :=
  {| exists_ := Some e; message := msg; should_retry := false;
     is_catch_all := catch_all |}.

Definition inconclusive_retry (msg : string) (catch_all : bool) :=
  {| exists_ := None; message := msg; should_retry := true;
     is_catch_all := catch_all |}.

Definition inconclusive_no_retry (msg : string) (catch_all : bool) :=
  {| exists_ := None; message := msg; should_retry := false;
     is_catch_all := catch_all |}.

Record SmtpVerifier := {
  settings : Settings;
  dns_resolver : resolver
}.

(** The names bound at module level in smtp_utils.py: its imports and
    its own classes. *)
Definition module_globals : list string :=
  ["asyncio"; "logging"; "random"; "string"; "Optional"; "Tuple";
   "aiosmtplib"; "Settings";
   "SmtpError"; "SmtpCommandError"; "SmtpTlsError";
   "SmtpTemporaryFailureError"; "SmtpPermanentFailureError";
   "SmtpInconclusiveError"; "ConfigError";
   "resolve_mail_server"; "MailServer"; "create_resolver";
   "log"; "SmtpVerificationResultInternal"; "SmtpVerifier"].

(** *** SmtpVerifier *)

Definition _get_mail_server (V : SmtpVerifier) (domain : string)
  : M (option MailServer) :=
  try_exceptM
    (let! mail_server := lift (resolve_mail_server (dns_resolver V) domain) in
     ret (Some mail_server))
    module_globals
    [ (["SmtpError"; "DnsError"], fun _ => ret None) ].

Definition ascii_lowercase : string := "abcdefghijklmnopqrstuvwxyz".
Definition digits : string := "0123456789".

Fixpoint _generate_random_local_part (E : env) (length : nat) : M string :=
  match length with
  | O => ret EmptyString
  | S n =>
      let! c := random_choice E (ascii_lowercase +:+ digits) in
      let! rest := _generate_random_local_part E n in
      ret (String c rest)
  end.

(** A command of the dialog: it is sent, then the peer's answer comes. *)
Definition command {A : Type} (ev : event) (answer : result A) : M A :=
  let! _ := emit ev in lift answer.

Definition rejection_phrases : list string :=
  ["unknown"; "no such"; "unavailable"; "rejected"; "doesn't exist";
   "disabled"; "invalid address"; "recipient not found"; "user unknown";
   "mailbox unavailable"; "no mailbox"].

(** The catch-all sample: a second [RCPT TO] for a random local part. *)
Definition catch_all_check (E : env) (S : smtp_session) (domain : string)
  : M bool :=
  let! random_local := _generate_random_local_part E 12 in
  let random_email := random_local +:+ "@" +:+ domain in
  try_exceptM
    (let! (catch_all_code, catch_all_msg) :=
       command (SmtpRcpt random_email)
               (Aiosmtplib.rcpt S 1 random_email) in
     if catch_all_code <? 400 then ret true else ret false)
    module_globals
    [ (["aiosmtplib.SMTPResponseException"], fun _ => ret false);
      (["Exception"], fun _ => ret false) ].

(** "Interpret RCPT TO result" *)
Definition interpret_rcpt (target_code : Z) (target_msg : string)
           (is_catch_all : bool) : SmtpVerificationResultInternal :=
  let reply := str_of_int target_code +:+ " " +:+ target_msg in
  if target_code <? 300 then
    if is_catch_all then
      inconclusive_retry ("SMTP accepted (Possible Catch-All): " +:+ reply)
                         true
    else
      conclusive true ("SMTP Verification OK: " +:+ reply) false
  else if (300 <=? target_code) && (target_code <? 400) then
    inconclusive_retry ("SMTP Unexpected Intermediate Code: " +:+ reply) false
  else if (400 <=? target_code) && (target_code <? 500) then
    inconclusive_retry ("SMTP Temp Failure/Greylisted? (4xx): " +:+ reply)
                       false
  else
    let msg_lower := lower target_msg in
    let is_user_unknown :=
      existsb (String.eqb (str_of_int target_code)) ["550"; "551"; "553"]
      || existsb (fun p => contains p msg_lower) rejection_phrases in
    if is_user_unknown then
      conclusive false ("SMTP Rejected (User Likely Unknown): " +:+ reply)
                 false
    else
      conclusive false ("SMTP Rejected (Policy/Other 5xx): " +:+ reply) false.

(** The body of the outer [try] once the client exists. *)
Definition dialog (E : env) (V : SmtpVerifier) (S : smtp_session)
           (email domain : string) (mail_server : MailServer)
  : M SmtpVerificationResultInternal :=
  let sender := smtp_sender_email (settings V) in
  let! _ := command (SmtpConnect (exchange mail_server) 25) (on_connect S) in
  let! _ := command (SmtpEhlo "localhost") (on_ehlo S) in
  let! (code, msg) :=
    command (SmtpMail sender) (Aiosmtplib.mail S sender) in
  if 400 <=? code then
    if contains "starttls" (lower msg)
       || (contains "530" (str_of_int code) && contains "5.7.0" (lower msg))
    then ret (inconclusive_retry
                ("Server requires STARTTLS: " +:+ str_of_int code +:+ " "
                 +:+ msg) false)
    else ret (inconclusive_no_retry
                ("MAIL FROM rejected: " +:+ str_of_int code +:+ " " +:+ msg)
                false)
  else
    let! (target_code, target_msg) :=
      command (SmtpRcpt email) (Aiosmtplib.rcpt S 0 email) in
    let! is_catch_all :=
      (if target_code <? 400 then catch_all_check E S domain
       else ret false) in
    ret (interpret_rcpt target_code target_msg is_catch_all).

(** The [except] clauses of the outer [try]. *)
Definition attempt_handlers
  : list (list string * (exn -> M SmtpVerificationResultInternal)) :=
  [ (["aiosmtplib.SMTPConnectError"], fun e =>
       let err_str := lower (exn_str e) in
       if contains "timed out" err_str
          || contains "connection refused" err_str
       then ret (inconclusive_no_retry
                   ("Connection failed (likely blocked): " +:+ exn_str e)
                   false)
       else ret (inconclusive_retry ("Connection failed: " +:+ exn_str e)
                                    false));
    (["aiosmtplib.SMTPHeloError"], fun e =>
       ret (inconclusive_retry
              ("HELO/EHLO failed: " +:+ str_of_int (exn_code e) +:+ " "
               +:+ exn_message e) false));
    (["aiosmtplib.SMTPResponseException"], fun e =>
       let reply := str_of_int (exn_code e) +:+ " " +:+ exn_message e in
       if (400 <=? exn_code e) && (exn_code e <? 500) then
         ret (inconclusive_retry ("SMTP Temp Failure (4xx): " +:+ reply) false)
       else if 500 <=? exn_code e then
         ret (inconclusive_retry ("SMTP Perm Failure? (5xx): " +:+ reply)
                                 false)
       else
         ret (inconclusive_retry ("SMTP Response Error: " +:+ reply) false));
    (["asyncio.TimeoutError"], fun _ =>
       ret (inconclusive_retry "SMTP operation timed out" false));
    (["OSError"], fun e =>
       ret (inconclusive_retry ("Socket error: " +:+ exn_str e) false));
    (["Exception"], fun e =>
       raise (SmtpError ("Unexpected SMTP error: " +:+ exn_str e))) ].

(** The [finally] clause: [QUIT] when the client is still connected;
    whatever [quit] raises is ignored. *)
Definition quit_if_connected (S : smtp_session) : M unit :=
  if connected_at_close S then
    try_exceptM (command SmtpQuit (on_quit S)) module_globals
      [ (["aiosmtplib.SMTPException"; "asyncio.TimeoutError"; "OSError"],
         fun _ => ret tt);
        (["Exception"], fun _ => ret tt) ]
  else ret tt.

Definition new_client : M nat :=
  fun w => (Ok (connections w),
            {| rng_pos := rng_pos w;
               connections := S (connections w);
               trace := trace w |}).

(** "Validate recipient format before connecting": whether
    [parse_address] returned; its [ValueError] is caught. *)
Definition recipient_format_ok (email : string) : result bool :=
  try_except
    (match Aiosmtplib.parse_address email with
     | Ok _ => Ok true
     | Raise e => Raise e
     end)
    module_globals
    [ (["ValueError"], fun _ => Ok false) ].

Definition _verify_single_attempt (E : env) (V : SmtpVerifier)
           (email domain : string) (mail_server : MailServer)
  : M SmtpVerificationResultInternal :=
  let! well_formed := lift (recipient_format_ok email) in
  if negb well_formed then
    ret (conclusive false "Invalid email format" false)
  else
    let! n := new_client in
    let S := smtp_server E n in
    try_finally
      (try_exceptM (dialog E V S email domain mail_server)
                   module_globals attempt_handlers)
      (quit_if_connected S).
#[global] Arguments _verify_single_attempt : simpl never.

(** The state of the retry loop:
    [(last_result, last_message, is_catch_all)]. *)
Definition verdict : Type := option bool * string * bool.

(** One iteration up to its [break]s: the new state and whether the loop
    is left. *)
Definition attempt_step (E : env) (V : SmtpVerifier)
           (email domain : string) (mail_server : MailServer) (st : verdict)
  : M (verdict * bool) :=
  let '(last_result, last_message, was_catch_all) := st in
  try_exceptM
    (let! result := _verify_single_attempt E V email domain mail_server in
     let st' := (exists_ result, message result, is_catch_all result) in
     match exists_ result with
     | Some _ => ret (st', true)
     | None => if negb (should_retry result) then ret (st', true)
               else ret (st', false)
     end)
    module_globals
    [ (["SmtpError"], fun e =>
         ret ((last_result,
               "Internal error during SMTP check: " +:+ exn_str e,
               was_catch_all), true));
      (["Exception"], fun e =>
         ret ((last_result,
               "Critical internal error during SMTP check: " +:+ exn_str e,
               was_catch_all), true)) ].

(** [for attempt in range(max_verification_attempts)], from [attempt] on,
    with [remaining] iterations left. *)
Fixpoint attempts_loop (E : env) (V : SmtpVerifier)
         (email domain : string) (mail_server : MailServer)
         (remaining : nat) (attempt : Z) (st : verdict) : M verdict :=
  match remaining with
  | O => ret st
  | S remaining' =>
      let! (st', stop) := attempt_step E V email domain mail_server st in
      if stop then ret st'
      else
        let '(last_result, _, _) := st' in
        let! _ :=
          (if (attempt <? max_verification_attempts (settings V) - 1)
              && (match last_result with None => true | Some _ => false end)
           then sleep_between E (sleep_between_requests (settings V))
           else ret tt) in
        attempts_loop E V email domain mail_server remaining'
                      (attempt + 1) st'
  end.

Definition verify_email_with_retries (E : env) (V : SmtpVerifier)
           (email : string) : M verdict :=
  let domain := split_last email "@" in
  let! mail_server := _get_mail_server V domain in
  match mail_server with
  | None => ret (None, "SMTP check skipped (DNS lookup failed)", false)
  | Some mail_server =>
      attempts_loop E V email domain mail_server
        (Z.to_nat (max_verification_attempts (settings V))) 0
        (None, "SMTP check did not run or complete", false)
  end.

End SmtpUtils.

(* ===================================================================== *)
(** ** app/core/beacon.py *)
(* ===================================================================== *)

Module Beacon.
Import Exceptions Config.

(** app/models.py *)
Record FoundEmailData := {
  email : string;
  confidence : Z;
  source : string;
  is_generic : bool;
  verification_status : option bool;
  verification_message : string
}.

Record EmailResult := {
  found_emails : list FoundEmailData;
  most_likely_email : option string;
  confidence_score : Z;
  methods_used : list string;
  verification_log : gmap string string
}.

(** The orchestrator and its collaborators: the pattern generator
    ([generate_email_patterns(first, last, domain, settings)]), the
    scraper ([self.scraper.scrape_website_for_emails]) and the verifier
    ([self.smtp_verifier.verify_email_with_retries]). *)
Record MailBeacon := {
  settings : Settings;
  generate_email_patterns : string -> string -> string -> list string;
  scrape_website_for_emails : string -> M (list string);
  verify_email_with_retries : string -> M (option bool * string * bool)
}.

Definition module_globals : list string :=
  ["asyncio"; "logging"; "random"; "Optional"; "List"; "Set"; "Dict";
   "Tuple"; "aiohttp"; "Settings"; "EmailResult"; "FoundEmailData";
   "ContactBase"; "DnsResolver"; "MailServer"; "Scraper"; "SmtpVerifier";
   "generate_email_patterns"; "EmailSleuthError"; "DnsError";
   "log"; "MailBeacon"].

Definition is_generic_prefix (B : MailBeacon) (email : string) : bool :=
  let local_part := lower (split_first email "@") in
  bool_decide (local_part ∈ generic_email_prefixes (settings B)).

(** [x in l] for a list of strings *)
Definition in_list (x : string) (l : list string) : bool :=
  bool_decide (x ∈ l).

(** *** Step 3: the candidates *)

(** [add_candidate], a closure over [all_candidates] and
    [seen_candidates]. *)
Definition add_candidate (state : list string * gset string)
           (email : string) : list string * gset string :=
  let '(all_candidates, seen_candidates) := state in
  let email_lower := lower email in
  if bool_decide (email_lower ∈ seen_candidates) then state
  else (all_candidates ++ [email_lower], {[ email_lower ]} ∪ seen_candidates).

Definition name_in (first_lower last_lower lp : string) : bool :=
  contains first_lower lp || contains last_lower lp.

(** One of the two loops that fill [name_candidates] and
    [other_candidates]. *)
Definition prioritize (first_lower last_lower : string)
           (lists : list string * list string) (emails : list string)
  : list string * list string :=
  fold_left
    (fun '(name_candidates, other_candidates) p =>
       let lp := split_first p "@" in
       if name_in first_lower last_lower lp
       then (name_candidates ++ [p], other_candidates)
       else (name_candidates, other_candidates ++ [p]))
    emails lists.

Definition assemble_candidates (first_lower last_lower : string)
           (generated_patterns scraped_emails : list string) : list string :=
  let '(name_candidates, other_candidates) :=
    prioritize first_lower last_lower
      (prioritize first_lower last_lower ([], []) generated_patterns)
      scraped_emails in
  fst (fold_left add_candidate other_candidates
         (fold_left add_candidate name_candidates ([], ∅))).

(** *** Step 4: scoring *)

(** "Initial Confidence Scoring" and "Apply penalties for generic
    emails" *)
Definition base_confidence
           (is_pattern is_scraped is_generic matches_primary_domain
            name_in_email : bool) : Z :=
  let base_confidence := 0 in
  let base_confidence :=
    if is_pattern && name_in_email then base_confidence + 3
    else base_confidence in
  let base_confidence :=
    if is_scraped && name_in_email then base_confidence + 5
    else base_confidence in
  let base_confidence :=
    if is_scraped && negb name_in_email then base_confidence + 2
    else base_confidence in
  let base_confidence :=
    if is_pattern && negb name_in_email then base_confidence + 1
    else base_confidence in
  let base_confidence :=
    if matches_primary_domain then base_confidence + 1
    else base_confidence in
  if is_generic then
    if name_in_email && (1 <? base_confidence) then
      Z.max 1 (base_confidence - 5)
    else if negb name_in_email && (2 <? base_confidence) then
      Z.max 1 (base_confidence - 2)
    else base_confidence
  else base_confidence.

Definition should_verify_smtp (confidence : Z)
           (is_scraped name_in_email : bool) : bool :=
  (3 <=? confidence) || (is_scraped && name_in_email && (1 <? confidence)).

(** "Adjust confidence based on verification" *)
Definition adjust_confidence (confidence : Z)
           (verification_status : option bool) (is_catch_all_domain : bool)
  : Z :=
  match verification_status with
  | Some true => confidence + 5
  | Some false => 0
  | None => confidence + (if is_catch_all_domain then 0 else 1)
  end.

(** What the loop over the candidates accumulates. *)
Record assessed := {
  verified_emails_data : list FoundEmailData;
  methods : list string;
  log : gmap string string
}.

(** The SMTP step of one candidate: the new confidence, the status and
    the message. *)
Definition smtp_step (B : MailBeacon) (email : string) (confidence : Z)
  : M (Z * option bool * string) :=
  try_exceptM
    (let! (ver_status, ver_msg, is_catch_all) :=
       verify_email_with_retries B email in
     ret (adjust_confidence confidence ver_status is_catch_all,
          ver_status, ver_msg))
    module_globals
    [ (["EmailSleuthError"], fun e =>
         ret (confidence, None, "SMTP Error: " +:+ exn_str e));
      (["Exception"], fun e =>
         ret (confidence, None, "Unexpected SMTP Error: " +:+ exn_str e)) ].

(** [FoundEmailData(email=..., confidence=..., ...)]: the [EmailStr] field
    is validated, and the record holds the validated address. The other
    fields get values of their types; [confidence] is within its bounds
    where the loop calls the constructor. *)
Definition new_FoundEmailData (E : env) (email : string) (confidence : Z)
           (source : string) (is_generic : bool)
           (verification_status : option bool)
           (verification_message : string) : result FoundEmailData :=
  match Pydantic.EmailStr E "FoundEmailData" "email" email with
  | Ok address =>
      Ok {| email := address;
            confidence := confidence;
            source := source;
            is_generic := is_generic;
            verification_status := verification_status;
            verification_message := verification_message |}
  | Raise e => Raise e
  end.

(** The body of [for email in all_candidates]. The elapsed time that the
    source appends to the log entry is left out. What the constructor of
    the record raises leaves the loop and [find_email]. *)
Definition assess_candidate (E : env) (B : MailBeacon)
           (first_lower last_lower domain : string)
           (generated_patterns scraped_emails : list string)
           (acc : assessed) (email : string) : M assessed :=
  if negb (email_regex_match (settings B) email) then ret acc
  else
    match partition email "@" with
    | (_, None) =>
        raise (ValueError "not enough values to unpack (expected 2, got 1)")
    | (email_local_part, Some email_domain_part) =>
        let is_scraped := in_list email scraped_emails in
        let is_pattern := in_list email generated_patterns in
        let is_generic := is_generic_prefix B email in
        let matches_primary_domain := String.eqb email_domain_part domain in
        if negb matches_primary_domain && negb (is_scraped && is_generic)
        then ret acc
        else
          let name_in_email :=
            name_in first_lower last_lower email_local_part in
          let confidence :=
            base_confidence is_pattern is_scraped is_generic
                            matches_primary_domain name_in_email in
          let should_verify :=
            should_verify_smtp confidence is_scraped name_in_email in
          let methods' :=
            if should_verify && negb (in_list "smtp_verification" (methods acc))
            then methods acc ++ ["smtp_verification"] else methods acc in
          let! (confidence, verification_status, verification_message) :=
            (if should_verify then smtp_step B email confidence
             else ret (confidence, None,
                       "Verification skipped (low initial confidence)")) in
          let log' := <[ email := verification_message ]> (log acc) in
          let final_confidence := Z.max 0 (Z.min 10 confidence) in
          let! data' :=
            (if 0 <? final_confidence then
               let! record :=
                 lift (new_FoundEmailData E email final_confidence
                         (if is_scraped then "scraped" else "pattern")
                         is_generic verification_status
                         verification_message) in
               ret (verified_emails_data acc ++ [record])
             else ret (verified_emails_data acc)) in
          let! _ :=
            (if should_verify
             then sleep_between E (sleep_between_requests (settings B))
             else ret tt) in
          ret {| verified_emails_data := data';
                 methods := methods';
                 log := log' |}
    end.

Fixpoint assess_all (E : env) (B : MailBeacon)
         (first_lower last_lower domain : string)
         (generated_patterns scraped_emails : list string)
         (acc : assessed) (all_candidates : list string) : M assessed :=
  match all_candidates with
  | [] => ret acc
  | email :: rest =>
      let! acc' := assess_candidate E B first_lower last_lower domain
                     generated_patterns scraped_emails acc email in
      assess_all E B first_lower last_lower domain
                 generated_patterns scraped_emails acc' rest
  end.

(** *** Step 5: ranking and selection *)

Definition bool_lt (a b : bool) : bool := negb a && b.

(** [key(a) < key(b)] for the key
    [(e.confidence, not e.is_generic, e.source == 'scraped')] *)
Definition key_lt (a b : FoundEmailData) : bool :=
  let k2 e := negb (is_generic e) in
  let k3 e := String.eqb (source e) "scraped" in
  (confidence a <? confidence b)
  || ((confidence a =? confidence b)
      && (bool_lt (k2 a) (k2 b)
          || (Bool.eqb (k2 a) (k2 b) && bool_lt (k3 a) (k3 b)))).

Definition select_best (st : Settings) (found : list FoundEmailData)
  : option string * Z :=
  match find (fun e => negb (is_generic e)
                       && (confidence_threshold st <=? confidence e)) found
  with
  | Some best_non_generic =>
      (Some (email best_non_generic), confidence best_non_generic)
  | None =>
      match found with
      | top_candidate :: _ =>
          if (confidence_threshold st <=? confidence top_candidate)
             && (negb (is_generic top_candidate)
                 || (generic_confidence_threshold st
                     <=? confidence top_candidate))
          then (Some (email top_candidate), confidence top_candidate)
          else (None, 0)
      | [] => (None, 0)
      end
  end.

(** *** Steps 1 and 2, and the whole of [find_email] *)

Definition scrape_step (B : MailBeacon) (domain website_url : string)
           (methods0 : list string)
  : M (list string * list string * gmap string string) :=
  try_exceptM
    (let! scraped_emails_raw := scrape_website_for_emails B website_url in
     let scraped_emails :=
       filter (fun email => endswith email ("@" +:+ domain)
                            || is_generic_prefix B email)
              scraped_emails_raw in
     ret (scraped_emails,
          match scraped_emails with
          | [] => methods0
          | _ :: _ => methods0 ++ ["website_scraping"]
          end,
          ∅))
    module_globals
    [ (["EmailSleuthError"], fun e =>
         ret ([], methods0,
              {[ "scraping_error" := "Scraping failed: " +:+ exn_str e ]}));
      (["Exception"], fun e =>
         ret ([], methods0,
              {[ "scraping_error" :=
                   "Unexpected scraping error: " +:+ exn_str e ]})) ].

(** Steps 1 to 4: what the loop over the candidates leaves. *)
Definition assess_stage (E : env) (B : MailBeacon)
           (first_name last_name domain website_url : string)
  : M assessed :=
  let first_lower := lower first_name in
  let last_lower := lower last_name in
  let generated_patterns :=
    generate_email_patterns B first_name last_name domain in
  let methods0 :=
    match generated_patterns with
    | [] => []
    | _ :: _ => ["pattern_generation"]
    end in
  let! (scraped_emails, methods1, log1) :=
    scrape_step B domain website_url methods0 in
  let all_candidates :=
    assemble_candidates first_lower last_lower
                        generated_patterns scraped_emails in
  assess_all E B first_lower last_lower domain
             generated_patterns scraped_emails
             {| verified_emails_data := []; methods := methods1;
                log := log1 |}
             all_candidates.

(** Step 5: "Select Best Email". *)
Definition rank_and_select (st : Settings) (acc : assessed) : EmailResult :=
  let found := sort_by_reverse key_lt (verified_emails_data acc) in
  let '(most_likely, score) := select_best st found in
  {| found_emails := found;
     most_likely_email := most_likely;
     confidence_score := score;
     methods_used := methods acc;
     verification_log := log acc |}.

Definition find_email (E : env) (B : MailBeacon)
           (first_name last_name domain website_url : string)
  : M EmailResult :=
  let! acc := assess_stage E B first_name last_name domain website_url in
  ret (rank_and_select (settings B) acc).

(** The orchestrator with the verifier of smtp_utils.py. *)
Definition with_verifier (E : env) (V : SmtpUtils.SmtpVerifier)
           (patterns : string -> string -> string -> list string)
           (scraper : string -> M (list string)) : MailBeacon :=
  {| settings := SmtpUtils.settings V;
     generate_email_patterns := patterns;
     scrape_website_for_emails := scraper;
     verify_email_with_retries := SmtpUtils.verify_email_with_retries E V |}.

End Beacon.

(* ===================================================================== *)
(** ** The vocabulary of the specification *)
(* ===================================================================== *)

Module Spec.
Import Urllib.

(** "after prepending https:// when the input lacks a scheme" *)
Definition with_scheme (input : string) : string :=
  if startswith input "http://" || startswith input "https://" then input
  else "https://" +:+ input.

(** The host authority of a parsed URL, when a host can be parsed. *)
Definition host_authority (parsed : result ParseResult) : option string :=
  match parsed with
  | Raise _ => None
  | Ok p =>
      if nonempty (netloc p) then Some (netloc p)
      else match hostname p with
           | Some h => if nonempty h then Some h else None
           | None => None
           end
  end.

(** "with any port removed" *)
Definition without_port (host : string) : string := split_first host ":".

(** The domain that the specification describes for a host authority. *)
Definition domain_of_host (host : string) : string :=
  lower (removeprefix (without_port host) "www.").

End Spec.

Module SmtpSpec.
Import SmtpUtils.

(** The recipients of the [RCPT TO] commands of a trace, in order. *)
Fixpoint rcpts (t : list event) : list string :=
  match t with
  | [] => []
  | SmtpRcpt recipient :: t' => recipient :: rcpts t'
  | _ :: t' => rcpts t'
  end.

(** The local part that [_generate_random_local_part] draws when the
    random stream stands at position [p]. *)
Fixpoint random_local_at (E : env) (length p : nat) : string :=
  match length with
  | O => EmptyString
  | S n =>
      let raw := random_source E p in
      let i := N.to_nat (raw mod 36) in
      String (match String.get i (ascii_lowercase +:+ digits) with
              | Some c => c
              | None => "000"%char
              end)
             (random_local_at E n (S p))
  end.

(** The address of the catch-all sample of an attempt that starts in
    world [w]. *)
Definition probe_address (E : env) (domain : string) (w : world) : string :=
  random_local_at E 12 (rng_pos w) +:+ "@" +:+ domain.

Definition is_lower_alnum (c : ascii) : bool :=
  let n := nat_of_ascii c in
  (((97 <=? n) && (n <=? 122)) || ((48 <=? n) && (n <=? 57)))%nat.

(** The server accepts a recipient with a reply of 250 or 251; these are
    the replies that [rcpt] returns. *)
Definition accepted (reply : result (Z * string)) : Prop :=
  exists code text, reply = Ok (code, text) /\ (code = 250 \/ code = 251).

(** The server accepted the candidate, the first recipient of the
    connection. *)
Definition candidate_accepted (S : smtp_session) (email : string) : Prop :=
  accepted (rcpt_reply S 0 email).

(** The server accepted the catch-all sample, the second recipient. *)
Definition probe_accepted (S : smtp_session) (probe : string) : Prop :=
  accepted (rcpt_reply S 1 probe).

(** The test of the code on the sample: [rcpt] returned a code below
    400; an exception is not an acceptance. *)
Definition sample_accepted (S : smtp_session) (probe : string) : bool :=
  match Aiosmtplib.rcpt S 1 probe with
  | Ok (code, _) => code <? 400
  | Raise _ => false
  end.

(** The world after [draws] more random draws and the events [sent]. *)
Definition after (w : world) (draws : nat) (sent : list event) : world :=
  {| rng_pos := draws + rng_pos w;
     connections := connections w;
     trace := trace w ++ sent |}.

(** The commands of a dialog up to and including [MAIL FROM]. *)
Definition opening (V : SmtpVerifier) (mail_server : DnsUtils.MailServer)
  : list event :=
  [SmtpConnect (DnsUtils.exchange mail_server) 25; SmtpEhlo "localhost";
   SmtpMail (Config.smtp_sender_email (settings V))].

(** The result that the outer [except] clauses give to a reply that the
    library raised. *)
Definition refusal (code : Z) (text : string)
  : SmtpVerificationResultInternal :=
  let reply := str_of_int code +:+ " " +:+ text in
  if (400 <=? code) && (code <? 500) then
    inconclusive_retry ("SMTP Temp Failure (4xx): " +:+ reply) false
  else if 500 <=? code then
    inconclusive_retry ("SMTP Perm Failure? (5xx): " +:+ reply) false
  else inconclusive_retry ("SMTP Response Error: " +:+ reply) false.

(** The result of an attempt whose candidate the server accepted with
    the reply [code text]; [catch_all] says whether it accepted the
    sample too. *)
Definition acceptance (code : Z) (text : string) (catch_all : bool)
  : SmtpVerificationResultInternal :=
  let reply := str_of_int code +:+ " " +:+ text in
  if catch_all
  then inconclusive_retry ("SMTP accepted (Possible Catch-All): " +:+ reply)
                          true
  else conclusive true ("SMTP Verification OK: " +:+ reply) false.

(** The world once the client of an attempt exists. *)
Definition opened (w : world) : world :=
  {| rng_pos := rng_pos w;
     connections := S (connections w);
     trace := trace w |}.

(** What the [finally] clause sends. *)
Definition closing (S : smtp_session) : list event :=
  if connected_at_close S then [SmtpQuit] else [].

(** The dialog, case by case on what the peer answers: a step fails with
    an exception of the transport, the sender or the candidate is refused
    (the library raises the reply), or the candidate is accepted and the
    sample follows. *)
Inductive dialog_case (E : env) (V : SmtpVerifier) (S : smtp_session)
          (email domain : string) (mail_server : DnsUtils.MailServer) (w : world)
  : result SmtpVerificationResultInternal -> world -> Prop :=
| connect_fails e :
    on_connect S = Raise e ->
    dialog_case E V S email domain mail_server w (Raise e)
      (after w 0 [SmtpConnect (DnsUtils.exchange mail_server) 25])
| ehlo_fails e :
    on_connect S = Ok tt -> on_ehlo S = Raise e ->
    dialog_case E V S email domain mail_server w (Raise e)
      (after w 0 [SmtpConnect (DnsUtils.exchange mail_server) 25;
                  SmtpEhlo "localhost"])
| mail_fails e :
    on_connect S = Ok tt -> on_ehlo S = Ok tt ->
    mail_reply S (Config.smtp_sender_email (settings V)) = Raise e ->
    dialog_case E V S email domain mail_server w (Raise e)
      (after w 0 (opening V mail_server))
| mail_refused code msg :
    on_connect S = Ok tt -> on_ehlo S = Ok tt ->
    mail_reply S (Config.smtp_sender_email (settings V)) = Ok (code, msg) ->
    code <> 250 ->
    dialog_case E V S email domain mail_server w
      (Raise (Aiosmtplib.SMTPSenderRefused
                code msg (Config.smtp_sender_email (settings V))))
      (after w 0 (opening V mail_server))
| rcpt_fails msg e :
    on_connect S = Ok tt -> on_ehlo S = Ok tt ->
    mail_reply S (Config.smtp_sender_email (settings V)) = Ok (250, msg) ->
    rcpt_reply S 0 email = Raise e ->
    dialog_case E V S email domain mail_server w (Raise e)
      (after w 0 (opening V mail_server ++ [SmtpRcpt email]))
| rcpt_refused msg target_code target_msg :
    on_connect S = Ok tt -> on_ehlo S = Ok tt ->
    mail_reply S (Config.smtp_sender_email (settings V)) = Ok (250, msg) ->
    rcpt_reply S 0 email = Ok (target_code, target_msg) ->
    target_code <> 250 -> target_code <> 251 ->
    dialog_case E V S email domain mail_server w
      (Raise (Aiosmtplib.SMTPRecipientRefused target_code target_msg email))
      (after w 0 (opening V mail_server ++ [SmtpRcpt email]))
| rcpt_accepted msg target_code target_msg :
    on_connect S = Ok tt -> on_ehlo S = Ok tt ->
    mail_reply S (Config.smtp_sender_email (settings V)) = Ok (250, msg) ->
    rcpt_reply S 0 email = Ok (target_code, target_msg) ->
    target_code = 250 \/ target_code = 251 ->
    dialog_case E V S email domain mail_server w
      (Ok (acceptance target_code target_msg
             (sample_accepted S (probe_address E domain w))))
      (after w 12 (opening V mail_server
                   ++ [SmtpRcpt email;
                       SmtpRcpt (probe_address E domain w)])).

End SmtpSpec.

Module BeaconSpec.
Import Config Beacon.

(** What [add_candidate] keeps true of [all_candidates] and
    [seen_candidates]. *)
Definition candidates_ok (state : list string * gset string) : Prop :=
  NoDup (fst state)
  /\ (forall x, x ∈ snd state <-> x ∈ fst state)
  /\ Forall (fun x => lower x = x) (fst state).

(** The duration of a sleep taken in world [w]. *)
Definition sleep_duration (E : env) (range : Q * Q) (w : world) : Q :=
  let '(min_sleep, max_sleep) := range in
  if Qlt_bool min_sleep max_sleep
  then (min_sleep + (max_sleep - min_sleep)
                    * random_unit (random_source E (rng_pos w)))%Q
  else min_sleep.

(** The world after that sleep. *)
Definition slept (E : env) (range : Q * Q) (w : world) : world :=
  {| rng_pos := if Qlt_bool (fst range) (snd range) then S (rng_pos w)
                else rng_pos w;
     connections := connections w;
     trace := trace w ++ [Sleep (sleep_duration E range w)] |}.

(** The provenance flags of a candidate. *)
Record flags := {
  is_pattern : bool;
  is_scraped : bool;
  generic : bool;
  matches_primary_domain : bool;
  name_in_local : bool
}.

(** [name] occurs somewhere in [text]. *)
Definition occurs_in (name text : string) : Prop :=
  exists before after, text = before +:+ name +:+ after.

(** [candidate] is [local_part], then the first [@], then
    [domain_part]. *)
Definition address_parts (candidate local_part domain_part : string) : Prop :=
  candidate = local_part +:+ "@" +:+ domain_part
  /\ ~ occurs_in "@" local_part.

(** What the flags of a candidate mean, in the words of the
    specification: it is one of the generated patterns; it is one of the
    scraped addresses; its local part, in lower case, is a generic
    prefix; its domain is the primary domain; the first or the last name
    occurs in its local part. *)
Record provenance (st : Settings) (first_lower last_lower domain : string)
       (generated_patterns scraped_emails : list string)
       (candidate local_part domain_part : string) (f : flags) : Prop := {
  pattern_flag : is_pattern f = true <-> In candidate generated_patterns;
  scraped_flag : is_scraped f = true <-> In candidate scraped_emails;
  generic_flag :
    generic f = true <-> lower local_part ∈ generic_email_prefixes st;
  domain_flag : matches_primary_domain f = true <-> domain_part = domain;
  name_flag :
    name_in_local f = true
    <-> occurs_in first_lower local_part \/ occurs_in last_lower local_part
}.

(** The flags as the loop computes them. *)
Definition flags_of (B : MailBeacon) (first_lower last_lower domain : string)
           (generated_patterns scraped_emails : list string)
           (candidate local_part domain_part : string) : flags :=
  {| is_pattern := in_list candidate generated_patterns;
     is_scraped := in_list candidate scraped_emails;
     generic := is_generic_prefix B candidate;
     matches_primary_domain := String.eqb domain_part domain;
     name_in_local := name_in first_lower last_lower local_part |}.

(** The candidate is not dropped by the domain filter. *)
Definition assessed_at_all (f : flags) : bool :=
  matches_primary_domain f || (is_scraped f && generic f).

(** The confidence before SMTP, as the code computes it. *)
Definition initial_confidence (f : flags) : Z :=
  base_confidence (is_pattern f) (is_scraped f) (generic f)
                  (matches_primary_domain f) (name_in_local f).

Definition verifies (f : flags) : bool :=
  should_verify_smtp (initial_confidence f) (is_scraped f) (name_in_local f).

(** The confidence of a candidate before SMTP, in the words of the
    specification: the points for its provenance and the penalty for a
    generic prefix. *)
Definition spec_points (f : flags) : Z :=
  let add (condition : bool) (points : Z) := if condition then points else 0 in
  let c := add (is_pattern f && name_in_local f) 3
           + add (is_scraped f && name_in_local f) 5
           + add (is_scraped f && negb (name_in_local f)) 2
           + add (is_pattern f && negb (name_in_local f)) 1
           + add (matches_primary_domain f) 1 in
  if generic f && name_in_local f && (1 <? c) then Z.max 1 (c - 5)
  else if generic f && negb (name_in_local f) && (2 <? c)
       then Z.max 1 (c - 2)
       else c.

(** "Decide whether to SMTP-verify": [c >= 3], or scraped with the name
    in the local part and [c > 1]. *)
Definition spec_verifies (f : flags) : bool :=
  (3 <=? spec_points f)
  || (is_scraped f && name_in_local f && (1 <? spec_points f)).

(** The confidence of a candidate in the words of the specification.
    [smtp] is the verdict of the verification when it ran: the status and
    the catch-all suspicion. *)
Definition spec_confidence (f : flags) (smtp : option (option bool * bool))
  : Z :=
  let c := spec_points f in
  let c := match smtp with
           | None => c
           | Some (Some true, _) => c + 5
           | Some (Some false, _) => 0
           | Some (None, true) => c + 0
           | Some (None, false) => c + 1
           end in
  Z.max 0 (Z.min 10 c).

(** The record that the loop stores for a candidate; [address] is the
    validated address. *)
Definition stored (address : string) (f : flags) (c : Z)
           (status : option bool) (msg : string) : FoundEmailData :=
  {| email := address;
     confidence := c;
     source := if is_scraped f then "scraped" else "pattern";
     is_generic := generic f;
     verification_status := status;
     verification_message := msg |}.

(** What becomes of a candidate with final confidence [c]: with a
    confidence of 0 it is dropped; otherwise its record is appended,
    with the validated address, or the validation of the address fails
    and its error leaves the loop. *)
Definition recorded (E : env) (data : list FoundEmailData)
           (candidate : string) (f : flags) (c : Z)
           (status : option bool) (msg : string) (out : result assessed)
  : Prop :=
  if 0 <? c then
    match email_str E candidate with
    | Some address =>
        exists acc', out = Ok acc'
                     /\ verified_emails_data acc'
                        = data ++ [stored address f c status msg]
    | None =>
        out = Raise (Pydantic.ValidationError "FoundEmailData" "email")
    end
  else exists acc', out = Ok acc' /\ verified_emails_data acc' = data.

(** [a] ranks no lower than [b]: confidence descending, then non-generic
    before generic, then scraped before pattern. *)
Definition ranks_no_lower (a b : FoundEmailData) : Prop :=
  confidence b < confidence a
  \/ (confidence a = confidence b
      /\ ((is_generic a = false /\ is_generic b = true)
          \/ (is_generic a = is_generic b
              /\ (source a = "scraped" \/ source b <> "scraped")))).

(** A non-generic record at or above the confidence threshold. *)
Definition qualifies (st : Settings) (e : FoundEmailData) : Prop :=
  is_generic e = false /\ confidence_threshold st <= confidence e.

(** The top record may be selected when no non-generic one qualifies. *)
Definition top_selectable (st : Settings) (top : FoundEmailData) : Prop :=
  confidence_threshold st <= confidence top
  /\ (is_generic top = false
      \/ generic_confidence_threshold st <= confidence top).

(** The key of the sort as one number. *)
Definition rank (e : FoundEmailData) : Z :=
  4 * confidence e + (if is_generic e then 0 else 2)
  + (if String.eqb (source e) "scraped" then 1 else 0).

End BeaconSpec.

Module DnsSpec.
Import Exceptions DnsUtils.

(** One of the four errors that dns_utils.py raises for [domain]. *)
Definition dns_error_of (domain : string) (e : exn) : Prop :=
  e = DnsTimeoutError domain \/ e = NxDomainError domain
  \/ e = NoDnsRecordsError domain \/ exists text, e = DnsError text.

End DnsSpec.

Module SmtpTrace.
Import SmtpUtils SmtpSpec.

Definition is_connect (ev : event) : bool :=
  match ev with SmtpConnect _ _ => true | _ => false end.

Definition is_rcpt (ev : event) : bool :=
  match ev with SmtpRcpt _ => true | _ => false end.

Definition is_sleep (ev : event) : bool :=
  match ev with Sleep _ => true | _ => false end.

(** The number of events of a trace that [p] selects. *)
Definition count (p : event -> bool) (t : list event) : nat :=
  length (List.filter p t).

(** The commands of a complete dialog, in order. *)
Definition script (V : SmtpVerifier) (mail_server : DnsUtils.MailServer)
           (email probe : string) : list event :=
  opening V mail_server ++ [SmtpRcpt email; SmtpRcpt probe].

(** The message of an attempt whose candidate got a 4xx reply. *)
Definition deferral (target_code : Z) (target_msg : string) : string :=
  "SMTP Temp Failure (4xx): " +:+ str_of_int target_code
  +:+ " " +:+ target_msg.

End SmtpTrace.

Module PatternsSpec.

(** The text without its white space. *)
Fixpoint without_space (s : string) : string :=
  match s with
  | EmptyString => EmptyString
  | String c s' =>
      if is_space c then without_space s' else String c (without_space s')
  end.

(** Nothing but white space, the empty string included. *)
Definition blank (s : string) : bool := Urllib.all_chars is_space s.

(** Neither white space nor [@] anywhere. *)
Definition plain (s : string) : bool :=
  Urllib.all_chars (fun c => negb (is_space c) && negb (Ascii.eqb c "@")) s.

(** Ascending by code point, without duplicates. *)
Definition strictly_ascending (l : list string) : Prop :=
  StronglySorted (fun a b => String.ltb a b = true) l.

End PatternsSpec.

(* ===================================================================== *)
(** ** Concrete inputs used by the examples below *)
(* ===================================================================== *)

Module Scenarios.
Import DnsUtils Config SmtpUtils Beacon.

(** A "null MX" answer (RFC 7505) next to an address record. *)
Definition null_mx_resolver : resolver :=
  fun query_type _ =>
    if String.eqb query_type "MX"
    then Ok [ {| host := "."; priority := 0 |} ]
    else Ok [ {| host := "192.0.2.1"; priority := 0 |} ].

(** Every query answers NXDOMAIN. *)
Definition nxdomain_resolver : resolver :=
  fun _ _ => Raise (aiodns_DNSError ARES_ENOTFOUND "Domain name not found").

(** Two exchangers; the preferred one is listed second. *)
Definition example_resolver : resolver :=
  fun query_type _ =>
    if String.eqb query_type "MX"
    then Ok [ {| host := "mx2.example.com."; priority := 20 |};
              {| host := "mx.example.com."; priority := 10 |} ]
    else Ok [ {| host := "192.0.2.7"; priority := 0 |} ].

(** The defaults of config.py, with a two-word generic prefix set and a
    coarse stand-in for the compiled regular expression. *)
Definition default_settings : Settings :=
  {| smtp_timeout := 5;
     smtp_sender_email := "verify-probe@example.com";
     max_verification_attempts := 2;
     sleep_between_requests := ((1 # 10)%Q, (1 # 2)%Q);
     confidence_threshold := 4;
     generic_confidence_threshold := 7;
     generic_email_prefixes := {[ "info"; "sales" ]};
     email_regex_match := fun s => contains "@" s |}.

Definition reply (code : Z) (text : string) : result (Z * string) :=
  Ok (code, text).

(** A server that accepts the sender and replies to the first and to the
    second [RCPT TO] as given. *)
Definition session (first second : result (Z * string)) : smtp_session :=
  {| on_connect := Ok tt;
     on_ehlo := Ok tt;
     mail_reply := fun _ => reply 250 "OK";
     rcpt_reply := fun n _ => match n with O => first | _ => second end;
     on_quit := Ok tt;
     connected_at_close := true |}.

(** A coarse stand-in for the validation of an [EmailStr]: an address is
    refused when it has no [@], when its local part or its domain is
    empty, or when its local part starts or ends with a dot or has two
    dots in a row; an address that passes is stored with its domain in
    lower case. *)
Definition coarse_email_str (address : string) : option string :=
  match partition address "@" with
  | (local_part, Some domain_part) =>
      if nonempty local_part && nonempty domain_part
         && negb (startswith local_part ".")
         && negb (endswith local_part ".")
         && negb (contains ".." local_part)
      then Some (local_part +:+ "@" +:+ lower domain_part)
      else None
  | (_, None) => None
  end.

(** The peer of the n-th connection is [servers n]. *)
Definition env_by_connection (servers : nat -> smtp_session) : env :=
  {| random_source := fun n => N.of_nat n;
     smtp_server := servers;
     email_str := coarse_email_str |}.

(** Every connection meets the same server. *)
Definition env_of (S : smtp_session) : env :=
  env_by_connection (fun _ => S).

Definition w0 : world := {| rng_pos := 0; connections := 0; trace := [] |}.

Definition verifier (r : resolver) : SmtpVerifier :=
  {| SmtpUtils.settings := default_settings; dns_resolver := r |}.

Definition mx : MailServer :=
  {| exchange := "mx.example.com"; preference := 10 |}.

(** The candidate is accepted, the sample gets no reply in time. *)
Definition sample_timeout_session : smtp_session :=
  session (reply 250 "OK") (Raise asyncio_TimeoutError).

(** The candidate is accepted, the sample is refused. *)
Definition selective_session : smtp_session :=
  session (reply 250 "OK") (reply 550 "User unknown").

(** A catch-all server: the candidate and the sample are accepted. *)
Definition catch_all_session : smtp_session :=
  session (reply 250 "OK") (reply 250 "OK").

(** A server that accepts every recipient on the first connection and
    tells them apart from the second connection on. *)
Definition catch_all_at_first : nat -> smtp_session :=
  fun n => match n with O => catch_all_session | _ => selective_session end.

(** The server replies [550] to [MAIL FROM]. *)
Definition sender_refused_session : smtp_session :=
  {| on_connect := Ok tt;
     on_ehlo := Ok tt;
     mail_reply := fun _ => reply 550 "Sender rejected";
     rcpt_reply := fun _ _ => reply 250 "OK";
     on_quit := Ok tt;
     connected_at_close := true |}.

(** The server replies [550] to every [RCPT TO]. *)
Definition rejecting_session : smtp_session :=
  session (reply 550 "User unknown") (reply 550 "User unknown").

(** The server replies [450] to every [RCPT TO], as a greylisting server
    does. *)
Definition greylisting_session : smtp_session :=
  session (reply 450 "Try again later") (reply 450 "Try again later").

(** Jane Smith at acme.com: the site shows a generic address and
    hers; the mail server accepts her and refuses the sample. *)
Definition acme : MailBeacon :=
  with_verifier (env_of selective_session) (verifier example_resolver)
    (fun _ _ _ => ["j.smith@acme.com"; "jane.smith@acme.com"])
    (fun _ => ret ["info@acme.com"; "j.smith@acme.com"]).

(** The site shows a generic address only and no pattern is generated. *)
Definition acme_generic_only : MailBeacon :=
  with_verifier (env_of selective_session) (verifier example_resolver)
    (fun _ _ _ => [])
    (fun _ => ret ["info@acme.com"]).

(** The site shows the address of the office, which has no part of the
    name, next to hers. *)
Definition acme_office : MailBeacon :=
  with_verifier (env_of selective_session) (verifier example_resolver)
    (fun _ _ _ => ["j.smith@acme.com"; "jane.smith@acme.com"])
    (fun _ => ret ["office@acme.com"; "j.smith@acme.com"]).

(** J. Doe at example.com, with the patterns of patterns.py and nothing
    scraped. *)
Definition initial_only : MailBeacon :=
  with_verifier (env_of selective_session) (verifier example_resolver)
    (fun first_name last_name domain =>
       Patterns.generate_email_patterns first_name last_name domain
                                        default_settings)
    (fun _ => ret []).

(** John Doe at a domain that does not exist: patterns only. *)
Definition nxdomain_beacon : MailBeacon :=
  with_verifier (env_of selective_session) (verifier nxdomain_resolver)
    (fun _ _ _ => ["john.doe@nxdomain.test"])
    (fun _ => ret []).

Definition no_records : assessed :=
  {| verified_emails_data := []; methods := []; log := ∅ |}.

End Scenarios.

(* ===================================================================== *)
(** * Properties *)
(* ===================================================================== *)

(* ===================================================================== *)
(** ** Strings *)
(* ===================================================================== *)

Section Strings.

Lemma lower_char_idem (c : ascii) : lower_char (lower_char c) = lower_char c.
Proof. destruct c as [[] [] [] [] [] [] [] []]; reflexivity. Qed.

Lemma lower_idem (s : string) : lower (lower s) = lower s.
Proof.
  induction s as [|c s IH]; simpl; [reflexivity|].
  now rewrite lower_char_idem, IH.
Qed.

Lemma lower_drop (n : nat) (s : string) : lower (drop n s) = drop n (lower s).
Proof.
  revert s; induction n as [|n IH]; intros [|c s]; simpl; auto.
Qed.

Lemma startswith_app (s p q : string) :
  startswith s (p +:+ q) = startswith s p && startswith (drop (String.length p) s) q.
Proof.
  revert s; induction p as [|a p IH]; intros s; simpl.
  - reflexivity.
  - destruct s as [|c s]; simpl.
    + reflexivity.
    + rewrite IH. now rewrite andb_assoc.
Qed.

Lemma nonempty_false (s : string) : nonempty s = false <-> s = EmptyString.
Proof. destruct s; simpl; split; congruence. Qed.

Lemma nonempty_true (s : string) : nonempty s = true <-> s <> EmptyString.
Proof. destruct s; simpl; split; congruence. Qed.

Lemma append_nil_l (s : string) : EmptyString +:+ s = s.
Proof. reflexivity. Qed.

Lemma append_cons (c : ascii) (s t : string) :
  String c s +:+ t = String c (s +:+ t).
Proof. reflexivity. Qed.

(** [s.startswith(prefix)] says that [s] begins with [prefix]. *)
Lemma startswith_spec (s prefix : string) :
  startswith s prefix = true <-> exists rest, s = prefix +:+ rest.
Proof.
  revert s; induction prefix as [|p ps IH]; intros s.
  - split; [intros _; exists s; reflexivity|reflexivity].
  - destruct s as [|c cs]; cbn [startswith].
    + split; [discriminate|intros [rest H]; discriminate H].
    + rewrite andb_true_iff, IH. split.
      * intros [Hc [rest ->]]. apply Ascii.eqb_eq in Hc. subst.
        exists rest. reflexivity.
      * intros [rest H]. rewrite append_cons in H. inversion H; subst.
        split; [apply Ascii.eqb_refl|eauto].
Qed.

Lemma startswith_contains (sub s : string) :
  startswith s sub = true -> contains sub s = true.
Proof. destruct s; cbn [contains]; intros ->; reflexivity. Qed.

(** [sub in s] says that [sub] occurs in [s]. *)
Lemma contains_spec (sub s : string) :
  contains sub s = true <-> BeaconSpec.occurs_in sub s.
Proof.
  unfold BeaconSpec.occurs_in. split.
  - induction s as [|c s IH]; cbn [contains].
    + intros H. apply startswith_spec in H as [rest H].
      exists EmptyString, rest. exact H.
    + intros H. apply orb_true_iff in H as [H|H].
      * apply startswith_spec in H as [rest H].
        exists EmptyString, rest. exact H.
      * destruct (IH H) as (before & after & ->).
        exists (String c before), after. reflexivity.
  - intros (before & after & ->).
    induction before as [|c before IH].
    + rewrite append_nil_l. apply startswith_contains, startswith_spec.
      eauto.
    + rewrite append_cons. cbn [contains]. rewrite IH. apply orb_true_r.
Qed.

(** [s.split(sep, 1)] cuts at the first separator. *)
Lemma partition_spec (sep : ascii) (before after : string) :
  ~ BeaconSpec.occurs_in (String sep EmptyString) before ->
  partition (before +:+ String sep after) sep = (before, Some after).
Proof.
  induction before as [|c before IH]; intros Hno.
  - rewrite append_nil_l. cbn [partition]. now rewrite Ascii.eqb_refl.
  - rewrite append_cons. cbn [partition].
    destruct (Ascii.eqb c sep) eqn:Hc.
    + exfalso. apply Hno. apply Ascii.eqb_eq in Hc. subst.
      exists EmptyString, before. reflexivity.
    + rewrite IH; [reflexivity|].
      intros (b & a & ->). apply Hno.
      exists (String c b), a. reflexivity.
Qed.

End Strings.

(* ===================================================================== *)
(** ** domain_utils.py: [extract_domain] *)
(* ===================================================================== *)

Section ExtractDomain.
Import Exceptions Urllib DomainUtils Spec.

Lemma partition_no_sep (s : string) (sep : ascii) :
  contains (String sep EmptyString) s = false ->
  partition s sep = (s, None).
Proof.
  induction s as [|c s IH]; simpl; [reflexivity|].
  rewrite andb_true_r. intros H. apply orb_false_iff in H as [Hc Hs].
  rewrite Hc, (IH Hs). reflexivity.
Qed.

Lemma port_cut (host : string) :
  (if contains ":" host then split_first host ":" else host)
  = without_port host.
Proof.
  unfold without_port, split_first.
  destruct (contains ":" host) eqn:H; [reflexivity|].
  now rewrite (partition_no_sep _ _ H).
Qed.

Lemma with_scheme_code (url_str : string) :
  (if negb (startswith url_str "http://")
      && negb (startswith url_str "https://")
   then "https://" +:+ url_str else url_str) = with_scheme url_str.
Proof.
  unfold with_scheme.
  destruct (startswith url_str "http://"), (startswith url_str "https://");
    reflexivity.
Qed.

(** [extract_domain] as a function of the parser's answer. *)
Lemma extract_domain_cases (urlparse : string -> result ParseResult)
      (url_str : string) :
  url_str <> EmptyString ->
  extract_domain urlparse url_str =
  match urlparse (with_scheme url_str) with
  | Raise e =>
      if isinstance e "ValueError" then
        Raise (DomainExtractionError
                 ("Could not parse URL: " +:+ with_scheme url_str))
      else Raise e
  | Ok p =>
      match host_authority (Ok p) with
      | None =>
          Raise (DomainExtractionError
                   ("Could not extract host from parsed URL: "
                    +:+ with_scheme url_str))
      | Some host =>
          if nonempty (domain_of_host host) then Ok (domain_of_host host)
          else Raise (DomainExtractionError
                        ("Extracted domain is empty for URL: " +:+ url_str))
      end
  end.
Proof.
  intros Hne. unfold extract_domain.
  apply nonempty_true in Hne. rewrite Hne. cbn [negb].
  rewrite with_scheme_code.
  destruct (urlparse (with_scheme url_str)) as [p|e]; cbn.
  - unfold domain_of_host.
    destruct (nonempty (netloc p)).
    + rewrite port_cut. now destruct (nonempty (lower _)).
    + destruct (hostname p) as [h|]; [|reflexivity].
      destruct (nonempty h); [|reflexivity].
      rewrite port_cut. now destruct (nonempty (lower _)).
  - rewrite orb_false_r. now destruct (isinstance e "ValueError").
Qed.

Lemma no_www_after_one_removal (h : string) :
  lower h = h ->
  startswith h "www.www." = false ->
  startswith (lower (removeprefix h "www.")) "www." = false.
Proof.
  intros Hlow Hww. unfold removeprefix.
  change "www.www."%string with ("www." +:+ "www.")%string in Hww.
  rewrite startswith_app in Hww.
  destruct (startswith h "www.") eqn:Hw.
  - rewrite lower_drop, Hlow. exact Hww.
  - now rewrite Hlow.
Qed.

(** C9, as the code has it. [extract_domain] returns the host authority
    cut at its first colon, with one leading ["www."] removed and the
    result lower-cased, when that is not empty. It raises exactly when the
    input is empty, no host can be parsed, or that domain is empty, and
    what it raises is a [DomainExtractionError] (or what the parser raised
    that was not a [ValueError]). The prefix is removed once and before
    lower-casing: the result is free of a leading ["www."] when the host
    is in lower case and does not begin with ["www.www."]. *)
Theorem extract_domain_strips_one_www
        (urlparse : string -> result ParseResult) (url_str : string) :
  let parsed := urlparse (with_scheme url_str) in
  (forall d, extract_domain urlparse url_str = Ok d <->
     url_str <> EmptyString /\
     exists host, host_authority parsed = Some host /\
                  d = domain_of_host host /\ d <> EmptyString)
  /\ ((exists e, extract_domain urlparse url_str = Raise e) <->
      url_str = EmptyString \/ host_authority parsed = None \/
      exists host, host_authority parsed = Some host /\
                   domain_of_host host = EmptyString)
  /\ (forall e, extract_domain urlparse url_str = Raise e ->
      isinstance e "DomainExtractionError" = true \/
      (parsed = Raise e /\ isinstance e "ValueError" = false))
  /\ (forall d host,
      extract_domain urlparse url_str = Ok d ->
      host_authority parsed = Some host ->
      lower (without_port host) = without_port host ->
      startswith (without_port host) "www.www." = false ->
      startswith d "www." = false).
Proof.
  intros parsed.
  destruct (decide (url_str = EmptyString)) as [->|Hne].
  { (* the empty input *)
    split; [intros d0; split | split; [split | split]].
    - cbn. inversion 1.
    - intros [H _]. congruence.
    - intros _. now left.
    - intros _. eexists. reflexivity.
    - cbn. intros e H. inversion H. now left.
    - cbn. intros * H. inversion H. }
  subst parsed.
  rewrite (extract_domain_cases urlparse url_str Hne).
  destruct (urlparse (with_scheme url_str)) as [p|e] eqn:Hp.
  - destruct (host_authority (Ok p)) as [host|] eqn:Hh.
    + destruct (nonempty (domain_of_host host)) eqn:Hd.
      * apply nonempty_true in Hd. split; [intros d0; split | split; [split | split]].
        -- inversion 1; subst. eauto.
        -- intros (_ & host' & Hh' & -> & _). congruence.
        -- intros [e He]. discriminate.
        -- intros [H|[H|(host' & Hh' & Hd')]]; congruence.
        -- intros e He. discriminate.
        -- intros d host' Hd' Hh' Hlow Hww.
           inversion Hd'; inversion Hh'; subst.
           now apply no_www_after_one_removal.
      * apply nonempty_false in Hd. split; [intros d0; split | split; [split | split]].
        -- inversion 1.
        -- intros (_ & host' & Hh' & -> & Hd'). congruence.
        -- intros _. right; right. eauto.
        -- intros _. eexists; reflexivity.
        -- intros e He. inversion He. now left.
        -- intros * H. inversion H.
    + split; [intros d0; split | split; [split | split]].
      * inversion 1.
      * intros (_ & host' & Hh' & _). congruence.
      * intros _. now (right; left).
      * intros _. eexists; reflexivity.
      * intros e He. inversion He. now left.
      * intros * H. inversion H.
  - cbn [host_authority].
    destruct (isinstance e "ValueError") eqn:Hv;
      (split; [intros d0; split | split; [split | split]]).
    all: try (inversion 1; fail).
    all: try (intros (_ & host' & Hh' & _); congruence).
    all: try (intros _; now (right; left)).
    all: try (intros _; eexists; reflexivity).
    all: try (intros * H; inversion H; fail).
    + intros e' He. inversion He. now left.
    + intros e' He. inversion He; subst. right. split; [reflexivity|assumption].
Qed.

(** C9, where the claim fails: a second ["www."] stays in front. *)
Lemma extract_domain_www_www :
  extract_domain urlparse "www.www.example.com" = Ok "www.example.com"
  /\ startswith "www.example.com" "www." = true.
Proof. split; reflexivity. Qed.

Lemma extract_domain_strips_one_www_witness :
  extract_domain urlparse "https://www.example.com:8080/team"
  = Ok "example.com"
  /\ startswith "example.com" "www." = false.
Proof.
  split; [reflexivity|].
  refine (proj2 (proj2 (proj2
    (extract_domain_strips_one_www
       urlparse "https://www.example.com:8080/team")))
    "example.com" "www.example.com:8080" _ _ _ _); reflexivity.
Defined.

End ExtractDomain.

(* ===================================================================== *)
(** ** Stable sorting *)
(* ===================================================================== *)

Section SortBy.
Context {A : Type} (lt : A -> A -> bool).

Lemma sort_insert_perm (x : A) (l : list A) :
  Permutation (x :: l) (sort_insert lt x l).
Proof.
  induction l as [|y l IH]; simpl; [reflexivity|].
  destruct (lt y x); [|reflexivity].
  rewrite perm_swap. now constructor.
Qed.

Lemma sort_by_perm (l : list A) : Permutation l (sort_by lt l).
Proof.
  induction l as [|x l IH]; simpl; [reflexivity|].
  rewrite <- sort_insert_perm. now constructor.
Qed.

Hypothesis lt_asym : forall a b, lt a b = true -> lt b a = false.
Hypothesis not_after_trans :
  forall a b c, not_after lt a b -> not_after lt b c -> not_after lt a c.

Lemma sort_insert_sorted (x : A) (l : list A) :
  StronglySorted (not_after lt) l -> StronglySorted (not_after lt) (sort_insert lt x l).
Proof.
  induction 1 as [|y l Hs IH Hall]; simpl.
  - repeat constructor.
  - destruct (lt y x) eqn:Hyx.
    + constructor; [exact IH|].
      apply (Permutation_Forall (sort_insert_perm x l)).
      constructor; [|exact Hall]. now apply lt_asym.
    + constructor; [now constructor|].
      constructor; [exact Hyx|].
      eapply Forall_impl; [exact Hall|].
      intros z Hz. now apply (not_after_trans x y z).
Qed.

Lemma sort_by_sorted (l : list A) : StronglySorted (not_after lt) (sort_by lt l).
Proof.
  induction l as [|x l IH]; simpl; [constructor|].
  now apply sort_insert_sorted.
Qed.

End SortBy.

(* ===================================================================== *)
(** ** dns_utils.py: [resolve_mail_server] *)
(* ===================================================================== *)

Section ResolveMailServer.
Import Exceptions DnsUtils.

(** The record that the code calls [best_mx] has the lowest preference
    value of the answer. *)
Lemma best_mx_lowest (first : dns_record) (rest : list dns_record) :
  let best_mx := hd first (sort_by by_priority (first :: rest)) in
  In best_mx (first :: rest)
  /\ forall r, In r (first :: rest) -> priority best_mx <= priority r.
Proof.
  intros best_mx.
  pose proof (sort_by_perm by_priority (first :: rest)) as Hperm.
  assert (Hsorted : StronglySorted (not_after by_priority)
                                   (sort_by by_priority (first :: rest))).
  { apply sort_by_sorted; unfold not_after, by_priority; intros *.
    - rewrite !Z.ltb_lt, Z.ltb_ge. lia.
    - rewrite !Z.ltb_ge. lia. }
  subst best_mx.
  destruct (sort_by by_priority (first :: rest)) as [|b sorted] eqn:Hs.
  - apply Permutation_sym, Permutation_nil in Hperm. discriminate.
  - simpl. split.
    + apply (Permutation_in b (Permutation_sym Hperm)). now left.
    + intros r Hr. apply (Permutation_in r Hperm) in Hr.
      destruct Hr as [->|Hr]; [lia|].
      inversion Hsorted as [|? ? _ Hall]; subst.
      rewrite List.Forall_forall in Hall. specialize (Hall r Hr).
      unfold not_after, by_priority in Hall. apply Z.ltb_ge in Hall. lia.
Qed.

(** With a usable best exchange the answer is that exchange, trailing
    dots stripped, and its preference. *)
Lemma resolve_mail_server_best_mx (r : resolver) (domain : string)
      (first : dns_record) (rest : list dns_record) :
  r "MX" domain = Ok (first :: rest) ->
  let best_mx := hd first (sort_by by_priority (first :: rest)) in
  rstrip (host best_mx) "." <> EmptyString ->
  resolve_mail_server r domain
  = Ok {| exchange := rstrip (host best_mx) ".";
          preference := priority best_mx |}.
Proof.
  intros Hq best_mx Hne. apply nonempty_true in Hne.
  unfold resolve_mail_server, _query_with_timeout. rewrite Hq.
  cbn -[sort_by rstrip]. fold best_mx. now rewrite Hne.
Qed.

(** An answer whose best exchange is empty does not raise: the
    [NoDnsRecordsError] raised inside the [try] is caught by the clause
    meant for "no answer", and the A record is looked up. *)
Lemma resolve_mail_server_empty_exchange (r : resolver) (domain : string)
      (first : dns_record) (rest : list dns_record) :
  r "MX" domain = Ok (first :: rest) ->
  rstrip (host (hd first (sort_by by_priority (first :: rest)))) "."
  = EmptyString ->
  resolve_mail_server r domain = resolve_a_record_fallback r domain.
Proof.
  intros Hq He. apply nonempty_false in He.
  unfold resolve_mail_server, _query_with_timeout. rewrite Hq.
  cbn -[sort_by rstrip resolve_a_record_fallback]. now rewrite He.
Qed.

(** The MX query answering "no data" leads to the A record, preference
    65535. *)
Lemma resolve_mail_server_no_data (r : resolver) (domain text : string)
      (a : dns_record) (others : list dns_record) :
  r "MX" domain = Raise (aiodns_DNSError ARES_ENODATA text) ->
  contains "NXDOMAIN" text = false ->
  r "A" domain = Ok (a :: others) ->
  resolve_mail_server r domain
  = Ok {| exchange := host a; preference := 65535 |}.
Proof.
  intros Hmx Htext Ha.
  unfold resolve_mail_server, resolve_a_record_fallback, _query_with_timeout.
  rewrite Hmx. cbn. rewrite Htext. cbn. now rewrite Ha.
Qed.

Lemma resolve_mail_server_nxdomain (r : resolver) (domain text : string) :
  r "MX" domain = Raise (aiodns_DNSError ARES_ENOTFOUND text) ->
  resolve_mail_server r domain = Raise (NxDomainError domain).
Proof.
  intros Hmx. unfold resolve_mail_server, _query_with_timeout.
  now rewrite Hmx.
Qed.

Lemma resolve_mail_server_timeout (r : resolver) (domain : string) :
  r "MX" domain = Raise asyncio_TimeoutError ->
  resolve_mail_server r domain = Raise (DnsTimeoutError domain).
Proof.
  intros Hmx. unfold resolve_mail_server, _query_with_timeout.
  now rewrite Hmx.
Qed.

(** C6, at the input where the code leaves the claim: the best MX
    record has the empty exchange ["."] and the domain has an address
    record. The claim has [NoDnsRecords] raised; the code returns the
    address with preference 65535. *)
Theorem resolve_mail_server_null_mx_returns_a_record :
  resolve_mail_server Scenarios.null_mx_resolver "example.com"
  = Ok {| exchange := "192.0.2.1"; preference := 65535 |}.
Proof. reflexivity. Qed.

End ResolveMailServer.

(* ===================================================================== *)
(** ** smtp_utils.py: the DNS step of the verifier *)
(* ===================================================================== *)

Section GetMailServer.
Import Exceptions DnsUtils Config SmtpUtils.

(** The class expression of the only [except] clause of
    [_get_mail_server] names [DnsError], which smtp_utils.py does not
    import. *)
Lemma except_clause_unbound :
  eval_except_names SmtpUtils.module_globals ["SmtpError"; "DnsError"]
  = Raise (NameError "DnsError").
Proof. reflexivity. Qed.

Lemma get_mail_server_failure (V : SmtpVerifier) (domain : string)
      (e : exn) (w : world) :
  resolve_mail_server (dns_resolver V) domain = Raise e ->
  _get_mail_server V domain w = (Raise (NameError "DnsError"), w).
Proof.
  intros H. unfold _get_mail_server, try_exceptM, bind, lift.
  now rewrite H.
Qed.

(** [_get_mail_server] never returns [None]. *)
Lemma get_mail_server_never_none (V : SmtpVerifier) (domain : string)
      (w w' : world) (m : option MailServer) :
  _get_mail_server V domain w = (Ok m, w') -> m <> None.
Proof.
  unfold _get_mail_server, try_exceptM, bind, lift.
  destruct (resolve_mail_server (dns_resolver V) domain); cbn;
    intros H; inversion H; discriminate.
Qed.

(** Whatever the DNS failure, the verifier raises [NameError] and sends
    nothing. *)
Lemma verify_email_dns_failure (E : env) (V : SmtpVerifier)
      (email : string) (e : exn) (w : world) :
  resolve_mail_server (dns_resolver V) (split_last email "@") = Raise e ->
  verify_email_with_retries E V email w = (Raise (NameError "DnsError"), w).
Proof.
  intros H. unfold verify_email_with_retries, bind.
  now rewrite (get_mail_server_failure V _ e w H).
Qed.

(** C1, at an input where the code leaves the claim: the domain of the
    address does not exist. The claim has the verifier return
    [(None, "SMTP check skipped (DNS lookup failed)", False)]; the code
    raises [NameError] to its caller. *)
Theorem verify_email_nxdomain_raises_name_error :
  resolve_mail_server Scenarios.nxdomain_resolver "nxdomain.test"
  = Raise (NxDomainError "nxdomain.test")
  /\ verify_email_with_retries
       (Scenarios.env_of Scenarios.selective_session)
       (Scenarios.verifier Scenarios.nxdomain_resolver)
       "john.doe@nxdomain.test" Scenarios.w0
     = (Raise (NameError "DnsError"), Scenarios.w0).
Proof. split; reflexivity. Qed.

End GetMailServer.

(* ===================================================================== *)
(** ** smtp_utils.py: one attempt and the retry loop *)
(* ===================================================================== *)

Section SingleAttempt.
Import Exceptions DnsUtils Config SmtpUtils SmtpSpec.

Lemma isinstance_Exception (e : exn) : isinstance e "Exception" = true.
Proof. reflexivity. Qed.

(** The outer [except] clauses send nothing. *)
Lemma attempt_handlers_silent (e : exn) (w : world) :
  snd (handleM SmtpUtils.module_globals attempt_handlers e w) = w.
Proof.
  cbn. rewrite isinstance_Exception. cbn.
  repeat match goal with
         | |- context [if ?b then _ else _] => destruct b
         end; reflexivity.
Qed.

Lemma quit_if_connected_eq (S : smtp_session) (w : world) :
  quit_if_connected S w
  = (Ok tt, {| rng_pos := rng_pos w;
               connections := connections w;
               trace := trace w ++ (if connected_at_close S then [SmtpQuit]
                                    else []) |}).
Proof.
  unfold quit_if_connected. destruct (connected_at_close S).
  - cbn. destruct (on_quit S) as [[]|e]; cbn; [reflexivity|].
    rewrite isinstance_Exception. cbn.
    repeat match goal with
           | |- context [if ?b then _ else _] => destruct b
           end; reflexivity.
  - destruct w; cbn. now rewrite app_nil_r.
Qed.

Lemma rcpts_app (t1 t2 : list event) : rcpts (t1 ++ t2) = rcpts t1 ++ rcpts t2.
Proof.
  induction t1 as [|ev t1 IH]; simpl; [reflexivity|].
  destruct ev; simpl; now rewrite ?IH.
Qed.

(** What the library returns is an acceptance: [mail] returns a reply of
    250 only, [rcpt] one of 250 or 251. Every other reply is raised. *)
Lemma mail_cases (S : smtp_session) (sender : string) :
  match mail_reply S sender with
  | Ok (code, msg) =>
      (code = 250 /\ Aiosmtplib.mail S sender = Ok (250, msg))
      \/ (code <> 250
          /\ Aiosmtplib.mail S sender
             = Raise (Aiosmtplib.SMTPSenderRefused code msg sender))
  | Raise e => Aiosmtplib.mail S sender = Raise e
  end.
Proof.
  unfold Aiosmtplib.mail. destruct (mail_reply S sender) as [[code msg]|e].
  - destruct (code =? 250) eqn:Hc.
    + apply Z.eqb_eq in Hc. subst. now left.
    + apply Z.eqb_neq in Hc. now right.
  - reflexivity.
Qed.

Lemma rcpt_cases (S : smtp_session) (n : nat) (recipient : string) :
  match rcpt_reply S n recipient with
  | Ok (code, msg) =>
      ((code = 250 \/ code = 251)
       /\ Aiosmtplib.rcpt S n recipient = Ok (code, msg))
      \/ (code <> 250 /\ code <> 251
          /\ Aiosmtplib.rcpt S n recipient
             = Raise (Aiosmtplib.SMTPRecipientRefused code msg recipient))
  | Raise e => Aiosmtplib.rcpt S n recipient = Raise e
  end.
Proof.
  unfold Aiosmtplib.rcpt. destruct (rcpt_reply S n recipient) as [[code msg]|e].
  - destruct (code =? 250) eqn:Hc; [apply Z.eqb_eq in Hc; left; auto|].
    destruct (code =? 251) eqn:Hd; [apply Z.eqb_eq in Hd; left; auto|].
    apply Z.eqb_neq in Hc, Hd. right. auto.
  - reflexivity.
Qed.

Lemma mail_returns_250 (S : smtp_session) (sender : string) (code : Z)
      (msg : string) :
  Aiosmtplib.mail S sender = Ok (code, msg) <->
  mail_reply S sender = Ok (code, msg) /\ code = 250.
Proof.
  pose proof (mail_cases S sender) as H.
  destruct (mail_reply S sender) as [[c m]|e].
  - destruct H as [[-> H]|[Hne H]]; rewrite H; split.
    + intros Heq. inversion Heq; subst. auto.
    + intros [Heq _]. exact Heq.
    + discriminate.
    + intros [Heq ->]. inversion Heq. congruence.
  - rewrite H. split; [discriminate|intros [Heq _]; discriminate].
Qed.

Lemma rcpt_returns_250_251 (S : smtp_session) (n : nat) (recipient : string)
      (code : Z) (msg : string) :
  Aiosmtplib.rcpt S n recipient = Ok (code, msg) <->
  rcpt_reply S n recipient = Ok (code, msg) /\ (code = 250 \/ code = 251).
Proof.
  pose proof (rcpt_cases S n recipient) as H.
  destruct (rcpt_reply S n recipient) as [[c m]|e].
  - destruct H as [[Hc H]|(Hne & Hne' & H)]; rewrite H; split.
    + intros Heq. inversion Heq; subst. auto.
    + intros [Heq _]. exact Heq.
    + discriminate.
    + intros [Heq Hc]. inversion Heq; subst. lia.
  - rewrite H. split; [discriminate|intros [Heq _]; discriminate].
Qed.

End SingleAttempt.

Section Dialog.
Import Exceptions DnsUtils Config SmtpUtils SmtpSpec.

Lemma after_0_nil (w : world) : after w 0 [] = w.
Proof. destruct w; unfold after; cbn. now rewrite app_nil_r. Qed.

Lemma generate_random_local_part_eq (E : env) (n : nat) (w : world) :
  _generate_random_local_part E n w
  = (Ok (random_local_at E n (rng_pos w)), after w n []).
Proof.
  revert w; induction n as [|n IH]; intros w.
  - cbn. now rewrite after_0_nil.
  - cbn [_generate_random_local_part]. unfold bind at 1.
    unfold random_choice, bind at 1. unfold next_random at 1.
    cbn [ret]. unfold bind at 1. rewrite IH. cbn [rng_pos].
    unfold ret, after. cbn [rng_pos connections trace].
    rewrite app_nil_r.
    replace (n + S (rng_pos w))%nat with (S n + rng_pos w)%nat by lia.
    reflexivity.
Qed.

Lemma alphabet_chars (i : nat) :
  (i < 36)%nat ->
  match String.get i (ascii_lowercase +:+ digits) with
  | Some c => is_lower_alnum c = true
  | None => False
  end.
Proof.
  intros Hi. do 36 (destruct i as [|i]; [reflexivity|]). lia.
Qed.

(** The random local part has the requested length and is made of
    lower-case letters and digits. *)
Lemma random_local_at_spec (E : env) (n p : nat) :
  String.length (random_local_at E n p) = n
  /\ Urllib.all_chars is_lower_alnum (random_local_at E n p) = true.
Proof.
  revert p; induction n as [|n IH]; intros p; cbn [random_local_at].
  - split; reflexivity.
  - destruct (IH (S p)) as [Hlen Hall]. split.
    + cbn. now rewrite Hlen.
    + cbn [Urllib.all_chars]. rewrite Hall, andb_true_r.
      pose proof (alphabet_chars (N.to_nat (random_source E p mod 36))) as H.
      destruct (String.get _ _).
      * apply H. pose proof (N.mod_lt (random_source E p) 36). lia.
      * exfalso. apply H. pose proof (N.mod_lt (random_source E p) 36). lia.
Qed.

(** The catch-all sample: twelve draws, one [RCPT TO], and the answer
    to the question whether that recipient was accepted. *)
Lemma catch_all_check_eq (E : env) (S : smtp_session) (domain : string)
      (w : world) :
  let probe := probe_address E domain w in
  catch_all_check E S domain w
  = (Ok (sample_accepted S probe), after w 12 [SmtpRcpt probe]).
Proof.
  intros probe. unfold catch_all_check, bind at 1.
  rewrite generate_random_local_part_eq.
  fold (probe_address E domain w). fold probe.
  unfold try_exceptM, command, bind, emit, lift, sample_accepted, after.
  cbn [rng_pos connections trace]. rewrite app_nil_r.
  destruct (Aiosmtplib.rcpt S 1 probe) as [[cc cm]|e].
  - now destruct (cc <? 400).
  - cbn. rewrite isinstance_Exception. cbn.
    now destruct (isinstance e "aiosmtplib.SMTPResponseException").
Qed.

(** The sample is accepted when the server replies 250 or 251 to it. *)
Lemma sample_accepted_iff (S : smtp_session) (probe : string) :
  sample_accepted S probe = true <-> probe_accepted S probe.
Proof.
  unfold sample_accepted, probe_accepted, accepted.
  pose proof (rcpt_cases S 1 probe) as H.
  destruct (rcpt_reply S 1 probe) as [[code text]|e].
  - destruct H as [[Hc H]|(Hne & Hne' & H)]; rewrite H; split.
    + eauto.
    + intros _. apply Z.ltb_lt. lia.
    + discriminate.
    + intros (c & t & Heq & Hc). inversion Heq; subst. lia.
  - rewrite H. split; [discriminate|].
    intros (c & t & Heq & _). discriminate.
Qed.

(** With an accepted candidate the interpretation of the reply is one of
    two results. *)
Lemma interpret_rcpt_accepted (code : Z) (text : string) (catch_all : bool) :
  code = 250 \/ code = 251 ->
  interpret_rcpt code text catch_all = acceptance code text catch_all.
Proof.
  intros Hc. unfold interpret_rcpt, acceptance.
  replace (code <? 300) with true by (symmetry; apply Z.ltb_lt; lia).
  reflexivity.
Qed.

Lemma dialog_cases (E : env) (V : SmtpVerifier) (S : smtp_session)
      (email domain : string) (mail_server : MailServer) (w : world) :
  dialog_case E V S email domain mail_server w
    (fst (dialog E V S email domain mail_server w))
    (snd (dialog E V S email domain mail_server w)).
Proof.
  unfold dialog, command, bind, emit, lift.
  destruct (on_connect S) as [[]|e] eqn:Hc; cbn [fst snd trace rng_pos connections].
  2:{ now apply connect_fails. }
  destruct (on_ehlo S) as [[]|e] eqn:He; cbn [fst snd trace rng_pos connections].
  2:{ rewrite <- app_assoc. now apply ehlo_fails. }
  pose proof (mail_cases S (smtp_sender_email (SmtpUtils.settings V))) as Hm.
  destruct (mail_reply S _) as [[code msg]|e] eqn:Hmr.
  2:{ rewrite Hm. cbn [fst snd]. rewrite <- !app_assoc. now apply mail_fails. }
  destruct Hm as [[-> Hm]|[Hne Hm]]; rewrite Hm; cbn [fst snd].
  2:{ rewrite <- !app_assoc. now apply mail_refused. }
  change (400 <=? 250) with false. cbn iota.
  cbn [trace rng_pos connections].
  pose proof (rcpt_cases S 0 email) as Hr.
  destruct (rcpt_reply S 0 email) as [[tc tm]|e] eqn:Hrr.
  2:{ rewrite Hr. cbn [fst snd]. rewrite <- !app_assoc.
      now apply (rcpt_fails E V S email domain mail_server w msg e). }
  destruct Hr as [[Htc Hr]|(Hne & Hne' & Hr)]; rewrite Hr; cbn [fst snd].
  2:{ rewrite <- !app_assoc.
      now apply (rcpt_refused E V S email domain mail_server w msg tc tm). }
  replace (tc <? 400) with true by (symmetry; apply Z.ltb_lt; lia).
  rewrite catch_all_check_eq.
  cbn [fst snd trace rng_pos connections after ret].
  unfold probe_address at 1 2. cbn [rng_pos].
  fold (probe_address E domain w).
  rewrite interpret_rcpt_accepted by exact Htc.
  pose proof (rcpt_accepted E V S email domain mail_server w msg tc tm
                            Hc He Hmr Hrr Htc) as H.
  unfold after in H |- *. cbn [rng_pos connections trace] in H |- *.
  rewrite <- !app_assoc. exact H.
Qed.

End Dialog.

Section Attempt.
Import Exceptions DnsUtils Config SmtpUtils SmtpSpec.

(** What the outer [except] clauses return is inconclusive. *)
Lemma attempt_handlers_inconclusive (e : exn) (w : world)
      (r : SmtpVerificationResultInternal) :
  fst (handleM SmtpUtils.module_globals attempt_handlers e w) = Ok r ->
  exists_ r = None /\ is_catch_all r = false.
Proof.
  cbn. rewrite isinstance_Exception. cbn.
  repeat match goal with
         | |- context [if ?b then _ else _] => destruct b
         end; cbn; intros H; inversion H; split; reflexivity.
Qed.

(** A reply that the library raised reaches the clause for
    [SMTPResponseException]. *)
Lemma handlers_on_refusal (cls : string) (code : Z) (msg address : string)
      (w : world) :
  cls = "aiosmtplib.SMTPSenderRefused"
  \/ cls = "aiosmtplib.SMTPRecipientRefused" ->
  handleM SmtpUtils.module_globals attempt_handlers
          (Aiosmtplib.refused cls code msg address) w
  = (Ok (refusal code msg), w).
Proof.
  intros [-> | ->]; cbn; unfold isinstance; cbn; unfold refusal;
    repeat match goal with
           | |- context [if ?b then _ else _] => destruct b
           end; reflexivity.
Qed.

(** An attempt: the dialog on a fresh connection, the [except] clauses,
    then the [finally] clause. The check of the recipient's format lets
    every address pass. *)
Lemma verify_single_attempt_eq (E : env) (V : SmtpVerifier)
      (email domain : string) (mail_server : MailServer) (w : world) :
  let S := smtp_server E (connections w) in
  let d := dialog E V S email domain mail_server (opened w) in
  _verify_single_attempt E V email domain mail_server w
  = (match fst d with
     | Ok a => Ok a
     | Raise e => fst (handleM SmtpUtils.module_globals attempt_handlers e
                               (snd d))
     end,
     after (snd d) 0 (closing S)).
Proof.
  intros S d. unfold _verify_single_attempt.
  unfold bind at 1. cbn [lift recipient_format_ok Aiosmtplib.parse_address
                         try_except negb].
  unfold bind at 1. cbn [new_client]. fold (opened w). fold S.
  unfold try_finally, try_exceptM. fold d.
  destruct d as [[a|e] wd]; cbn [fst snd].
  - now rewrite quit_if_connected_eq.
  - pose proof (attempt_handlers_silent e wd) as Hs.
    destruct (handleM _ _ e wd) as [r w1]. cbn [snd fst] in Hs |- *. subst w1.
    now rewrite quit_if_connected_eq.
Qed.

Lemma rcpts_closing (S : smtp_session) : rcpts (closing S) = [].
Proof. unfold closing. now destruct (connected_at_close S). Qed.

Lemma rcpts_opening (V : SmtpVerifier) (mail_server : MailServer) :
  rcpts (opening V mail_server) = [].
Proof. reflexivity. Qed.

(** The result of an attempt whose sender or candidate the server
    refused. *)
Lemma refused_attempt (E : env) (V : SmtpVerifier)
      (email domain : string) (mail_server : MailServer) (w : world) :
  let S := smtp_server E (connections w) in
  let sender := smtp_sender_email (SmtpUtils.settings V) in
  on_connect S = Ok tt -> on_ehlo S = Ok tt ->
  (forall code msg,
      mail_reply S sender = Ok (code, msg) -> code <> 250 ->
      _verify_single_attempt E V email domain mail_server w
      = (Ok (refusal code msg),
         after (opened w) 0 (opening V mail_server ++ closing S)))
  /\ (forall msg target_code target_msg,
      mail_reply S sender = Ok (250, msg) ->
      rcpt_reply S 0 email = Ok (target_code, target_msg) ->
      target_code <> 250 -> target_code <> 251 ->
      _verify_single_attempt E V email domain mail_server w
      = (Ok (refusal target_code target_msg),
         after (opened w) 0
               (opening V mail_server ++ [SmtpRcpt email] ++ closing S))).
Proof.
  intros S sender Hc He. subst sender.
  pose proof (dialog_cases E V S email domain mail_server (opened w)) as Hd.
  pose proof (verify_single_attempt_eq E V email domain mail_server w) as Heq.
  cbn zeta in Heq. fold S in Heq.
  destruct (dialog E V S email domain mail_server (opened w)) as [rd wd].
  cbn [fst snd] in Hd, Heq. rewrite Heq.
  split.
  { intros code msg Hm Hne.
    inversion Hd; subst; try (exfalso; congruence).
    assert (code0 = code /\ msg0 = msg) as [-> ->] by (split; congruence).
    unfold Aiosmtplib.SMTPSenderRefused.
    rewrite handlers_on_refusal by (now left). cbn [fst].
    unfold after. cbn [rng_pos connections trace opened].
    now rewrite <- !app_assoc. }
  intros msg tc tm Hm Hr Hne Hne'.
    inversion Hd; subst; try (exfalso; congruence).
    - assert (target_code = tc /\ target_msg = tm) as [-> ->]
        by (split; congruence).
      unfold Aiosmtplib.SMTPRecipientRefused.
      rewrite handlers_on_refusal by (now right). cbn [fst].
      unfold after. cbn [rng_pos connections trace opened].
      now rewrite <- !app_assoc.
    - assert (target_code = tc) by congruence. lia.
Qed.

(** C7. In one attempt the [RCPT TO] commands are none, the candidate
    alone, or the candidate followed by the sample, in this order. The
    sample has a local part of twelve lower-case letters and digits at the
    candidate's domain. It is sent exactly when the first [RCPT TO] was
    sent and returned a 2xx code, which is when the server replied 250 or
    251 to the candidate. *)
Theorem catch_all_sample_follows_accepted_rcpt
        (E : env) (V : SmtpVerifier) (email domain : string)
        (mail_server : MailServer) (w : world) :
  let S := smtp_server E (connections w) in
  let local := random_local_at E 12 (rng_pos w) in
  let probe := local +:+ "@" +:+ domain in
  let w' := snd (_verify_single_attempt E V email domain mail_server w) in
  exists sent,
    trace w' = trace w ++ sent
    /\ (rcpts sent = [] \/ rcpts sent = [email]
        \/ rcpts sent = [email; probe])
    /\ (rcpts sent = [email; probe] <->
        rcpts sent <> [] /\
        exists code text,
          Aiosmtplib.rcpt S 0 email = Ok (code, text) /\ 200 <= code < 300)
    /\ (rcpts sent = [email; probe] <->
        rcpts sent <> [] /\ candidate_accepted S email)
    /\ String.length local = 12%nat
    /\ Urllib.all_chars is_lower_alnum local = true.
Proof.
  intros S local probe w'.
  destruct (random_local_at_spec E 12 (rng_pos w)) as [Hlen Hchars].
  subst w'. rewrite (verify_single_attempt_eq _ _ _ _ _ _).
  cbn [snd]. fold S.
  pose proof (dialog_cases E V S email domain mail_server (opened w)) as Hd.
  change (probe_address E domain (opened w)) with probe in Hd.
  destruct (dialog E V S email domain mail_server (opened w)) as [rd wd].
  cbn [fst snd] in Hd |- *.
  assert (Hiff : (exists code text,
                     Aiosmtplib.rcpt S 0 email = Ok (code, text)
                     /\ 200 <= code < 300)
                 <-> candidate_accepted S email).
  { unfold candidate_accepted, accepted. split.
    - intros (code & text & Hr & _).
      apply rcpt_returns_250_251 in Hr. eauto.
    - intros (code & text & Hr & Hcode). exists code, text.
      split; [apply rcpt_returns_250_251; auto|lia]. }
  inversion Hd; subst; cbn [after trace opened].
  all: eexists; (split; [rewrite <- app_assoc; reflexivity|]).
  all: rewrite ?rcpts_app, ?rcpts_closing, ?rcpts_opening; cbn [rcpts app].
  all: split; [auto|].
  all: rewrite Hiff.
  all: assert (Hsame : forall P : Prop, (P <-> P) /\ (P <-> P))
         by (intros P; split; reflexivity).
  all: unfold candidate_accepted, accepted.
  all: repeat split; auto.
  all: try discriminate.
  all: try (intros [Hne _]; congruence).
  all: try (intros [_ (code' & text' & Hr & Hcode')]; exfalso;
            match goal with
            | H1 : rcpt_reply _ _ _ = _ |- _ =>
                rewrite H1 in Hr; inversion Hr; subst; lia || discriminate
            end).
  all: eauto.
Qed.

(** C10, where the code misses the claim. The server replies [550] to
    [MAIL FROM]. The library raises that reply, so the test of the code
    on the reply's code is not reached: the attempt is a retriable
    inconclusive result and not the non-retriable one of the claim. No
    [RCPT TO] is sent, as the claim says, but the retry loop does not
    stop: it sleeps and makes a second connection before it returns the
    inconclusive verdict. *)
Theorem mail_from_refusal_is_retried :
  let E := Scenarios.env_of Scenarios.sender_refused_session in
  let V := Scenarios.verifier Scenarios.example_resolver in
  let text := "SMTP Perm Failure? (5xx): 550 Sender rejected" in
  mail_reply Scenarios.sender_refused_session "verify-probe@example.com"
  = Ok (550, "Sender rejected")
  /\ Aiosmtplib.mail Scenarios.sender_refused_session
                     "verify-probe@example.com"
     = Raise (Aiosmtplib.SMTPSenderRefused 550 "Sender rejected"
                                           "verify-probe@example.com")
  /\ fst (_verify_single_attempt E V "john.doe@example.com" "example.com"
                                 Scenarios.mx Scenarios.w0)
     = Ok (inconclusive_retry text false)
  /\ inconclusive_retry text false
     <> inconclusive_no_retry "MAIL FROM rejected: 550 Sender rejected" false
  /\ exists w',
      verify_email_with_retries E V "john.doe@example.com" Scenarios.w0
      = (Ok (None, text, false), w')
      /\ connections w' = 2%nat
      /\ SmtpTrace.count SmtpTrace.is_connect (trace w') = 2%nat
      /\ SmtpTrace.count SmtpTrace.is_sleep (trace w') = 1%nat
      /\ rcpts (trace w') = [].
Proof.
  cbn zeta. split; [reflexivity|]. split; [reflexivity|].
  split; [vm_compute; reflexivity|]. split; [discriminate|].
  eexists. split; [vm_compute; reflexivity|].
  repeat split; reflexivity.
Qed.

End Attempt.

Section CatchAll.
Import Exceptions DnsUtils Config SmtpUtils SmtpSpec.

(** The result of an accepted candidate: verified without catch-all
    suspicion, a retriable inconclusive result with it. *)
Lemma acceptance_cases (code : Z) (text : string) (catch_all : bool) :
  let r := acceptance code text catch_all in
  is_catch_all r = catch_all
  /\ exists_ r = (if catch_all then None else Some true)
  /\ should_retry r = catch_all.
Proof. destruct catch_all; cbn; auto. Qed.

Lemma sleep_between_ok (E : env) (range : Q * Q) (w : world) :
  exists w', sleep_between E range w = (Ok tt, w').
Proof.
  unfold sleep_between. destruct range as [a b].
  destruct (Qlt_bool a b); cbn; eauto.
Qed.

(** A verified verdict of the retry loop is the result of its last
    attempt. *)
Lemma attempts_loop_verified (E : env) (V : SmtpVerifier)
      (email domain : string) (mail_server : MailServer) (remaining : nat) :
  forall (attempt : Z) (last_message : string) (was_catch_all : bool)
         (w w' : world) (msg : string) (ca : bool),
    attempts_loop E V email domain mail_server remaining attempt
                  (None, last_message, was_catch_all) w
    = (Ok (Some true, msg, ca), w') ->
    exists w1 r,
      _verify_single_attempt E V email domain mail_server w1 = (Ok r, w')
      /\ exists_ r = Some true /\ message r = msg /\ is_catch_all r = ca.
Proof.
  induction remaining as [|n IH]; intros attempt lm wc w w' msg ca.
  - cbn. inversion 1.
  - cbn [attempts_loop]. unfold bind at 1, attempt_step, try_exceptM, bind at 1.
    destruct (_verify_single_attempt E V email domain mail_server w)
      as [[r|e] w1] eqn:Hattempt.
    + destruct (exists_ r) as [b|] eqn:Hex.
      * cbn. intros H. inversion H; subst. eauto 10.
      * destruct (should_retry r); cbn [negb ret].
        -- destruct ((attempt <? max_verification_attempts (SmtpUtils.settings V) - 1) && true).
           ++ unfold bind at 1.
              destruct (sleep_between_ok E
                          (sleep_between_requests (SmtpUtils.settings V)) w1)
                as [w2 Hs].
              rewrite Hs. apply IH.
           ++ unfold bind at 1, ret at 1. apply IH.
        -- inversion 1.
    + cbn. rewrite isinstance_Exception. cbn.
      destruct (isinstance e "SmtpError"); cbn; inversion 1.
Qed.

(** An attempt either sent the sample after the server had accepted the
    candidate, and then its result is that of an accepted candidate, or
    it did not send it, and then it is inconclusive at best. *)
Lemma attempt_summary (E : env) (V : SmtpVerifier) (email domain : string)
      (mail_server : MailServer) (w : world) :
  let S := smtp_server E (connections w) in
  let probe := probe_address E domain w in
  let out := _verify_single_attempt E V email domain mail_server w in
  exists sent,
    trace (snd out) = trace w ++ sent
    /\ ((rcpts sent = [email; probe]
         /\ exists target_code target_msg,
             rcpt_reply S 0 email = Ok (target_code, target_msg)
             /\ (target_code = 250 \/ target_code = 251)
             /\ fst out = Ok (acceptance target_code target_msg
                                         (sample_accepted S probe)))
        \/ (rcpts sent <> [email; probe]
            /\ forall r, fst out = Ok r ->
                         exists_ r = None /\ is_catch_all r = false)).
Proof.
  intros S probe out. subst out.
  rewrite (verify_single_attempt_eq _ _ _ _ _ _). cbn [fst snd]. fold S.
  pose proof (dialog_cases E V S email domain mail_server (opened w)) as Hd.
  change (probe_address E domain (opened w)) with probe in Hd.
  destruct (dialog E V S email domain mail_server (opened w)) as [rd wd].
  cbn [fst snd] in Hd |- *.
  inversion Hd; subst; cbn [after trace opened].
  all: eexists; (split; [rewrite <- app_assoc; reflexivity|]).
  all: rewrite ?rcpts_app, ?rcpts_closing, ?rcpts_opening; cbn [rcpts app].
  7:{ left. split; [reflexivity|]. eauto 10. }
  all: right; (split; [discriminate|]).
  all: intros r Hr.
  all: now apply attempt_handlers_inconclusive in Hr.
Qed.

Lemma get_mail_server_cases (V : SmtpVerifier) (domain : string) (w : world) :
  (exists mail_server, _get_mail_server V domain w = (Ok (Some mail_server), w))
  \/ (exists e, _get_mail_server V domain w = (Raise e, w)).
Proof.
  unfold _get_mail_server, try_exceptM, bind, lift.
  destruct (resolve_mail_server (dns_resolver V) domain); cbn; eauto.
Qed.

(** C4, as the code has it. An attempt whose catch-all sample is accepted
    is never verified: the candidate was accepted before, and the attempt
    is a retriable inconclusive result with [is_catch_all] set. A verified
    result comes only from an attempt that sent the sample and did not see
    it accepted, be it refused or failed. A verified verdict of
    [verify_email_with_retries] is the result of its last attempt, so the
    sample of that attempt was not accepted, whatever happened to the
    samples of the attempts before; its [is_catch_all] is false. A server
    that accepts the sample on every connection never gets a verified
    verdict. *)
Theorem attempt_with_accepted_sample_is_not_verified
        (E : env) (V : SmtpVerifier) (email : string) :
  (forall (domain : string) (mail_server : MailServer) (w : world),
      let S := smtp_server E (connections w) in
      let probe := probe_address E domain w in
      let out := _verify_single_attempt E V email domain mail_server w in
      let sampled := exists sent, trace (snd out) = trace w ++ sent
                                  /\ rcpts sent = [email; probe] in
      (sampled -> probe_accepted S probe ->
       exists r,
         fst out = Ok r
         /\ candidate_accepted S email
         /\ exists_ r = None /\ should_retry r = true
         /\ is_catch_all r = true)
      /\ (forall r, fst out = Ok r -> exists_ r = Some true ->
          is_catch_all r = false /\ sampled /\ ~ probe_accepted S probe
          /\ candidate_accepted S email))
  /\ (forall (w w' : world) (msg : string) (ca : bool),
      verify_email_with_retries E V email w = (Ok (Some true, msg, ca), w') ->
      ca = false
      /\ exists mail_server w1 r,
          _verify_single_attempt E V email (split_last email "@")
                                 mail_server w1 = (Ok r, w')
          /\ exists_ r = Some true
          /\ candidate_accepted (smtp_server E (connections w1)) email
          /\ ~ probe_accepted (smtp_server E (connections w1))
                              (probe_address E (split_last email "@") w1))
  /\ ((forall n probe, probe_accepted (smtp_server E n) probe) ->
      forall (w w' : world) (status : option bool) (msg : string) (ca : bool),
        verify_email_with_retries E V email w = (Ok (status, msg, ca), w') ->
        status <> Some true).
Proof.
  assert (Hattempt :
    forall (domain : string) (mail_server : MailServer) (w : world),
      let S := smtp_server E (connections w) in
      let probe := probe_address E domain w in
      let out := _verify_single_attempt E V email domain mail_server w in
      let sampled := exists sent, trace (snd out) = trace w ++ sent
                                  /\ rcpts sent = [email; probe] in
      (sampled -> probe_accepted S probe ->
       exists r,
         fst out = Ok r
         /\ candidate_accepted S email
         /\ exists_ r = None /\ should_retry r = true
         /\ is_catch_all r = true)
      /\ (forall r, fst out = Ok r -> exists_ r = Some true ->
          is_catch_all r = false /\ sampled /\ ~ probe_accepted S probe
          /\ candidate_accepted S email)).
  { intros domain mail_server w S probe out sampled.
    destruct (attempt_summary E V email domain mail_server w)
      as (sent & Htrace & Hcase).
    fold S probe out in Htrace, Hcase. split.
    - intros (sent' & Htrace' & Hrcpts') Hacc.
      rewrite Htrace in Htrace'. apply app_inv_head in Htrace'. subst sent'.
      destruct Hcase as [(_ & tc & tm & Hr & Hcode & Hout)|[Hno _]];
        [|contradiction].
      apply sample_accepted_iff in Hacc. rewrite Hacc in Hout.
      eexists. split; [exact Hout|]. split.
      + exists tc, tm. auto.
      + cbn. auto.
    - intros r Hout Hv.
      destruct Hcase as [(Hrcpts & tc & tm & Hr & Hcode & Hout')|[_ Hno]].
      2:{ exfalso. destruct (Hno r Hout) as [Hnone _]. congruence. }
      rewrite Hout' in Hout. inversion Hout; subst r.
      destruct (acceptance_cases tc tm (sample_accepted S probe))
        as (Hca & Hex & _).
      cbn zeta in Hca, Hex. rewrite Hex in Hv.
      destruct (sample_accepted S probe) eqn:Hs; [discriminate|].
      split; [now rewrite Hca|]. split; [exists sent; auto|]. split.
      + intros Hacc. apply sample_accepted_iff in Hacc. congruence.
      + exists tc, tm. auto. }
  assert (Hrun :
    forall (w w' : world) (msg : string) (ca : bool),
      verify_email_with_retries E V email w = (Ok (Some true, msg, ca), w') ->
      ca = false
      /\ exists mail_server w1 r,
          _verify_single_attempt E V email (split_last email "@")
                                 mail_server w1 = (Ok r, w')
          /\ exists_ r = Some true
          /\ candidate_accepted (smtp_server E (connections w1)) email
          /\ ~ probe_accepted (smtp_server E (connections w1))
                              (probe_address E (split_last email "@") w1)).
  { intros w w' msg ca. unfold verify_email_with_retries, bind.
    destruct (get_mail_server_cases V (split_last email "@") w)
      as [[mail_server Hms]|[e Hms]]; rewrite Hms; [|inversion 1].
    intros Hloop. apply attempts_loop_verified in Hloop
      as (w1 & r & Hrun & Hv & _ & Hca).
    destruct (Hattempt (split_last email "@") mail_server w1) as [_ H2].
    rewrite Hrun in H2. cbn [fst snd] in H2.
    destruct (H2 r eq_refl Hv) as (Hfalse & _ & Hnot & Hcand).
    split; [congruence|]. eauto 10. }
  split; [exact Hattempt|]. split; [exact Hrun|].
  intros Hall w w' status msg ca Hverdict ->.
  destruct (Hrun w w' msg ca Hverdict)
    as (_ & ms & w1 & r & _ & _ & _ & Hnot).
  apply Hnot, Hall.
Qed.

End CatchAll.

(* ===================================================================== *)
(** ** beacon.py: the candidates *)
(* ===================================================================== *)

Section Candidates.
Import Beacon BeaconSpec.

Lemma add_candidate_ok (state : list string * gset string) (email : string) :
  candidates_ok state -> candidates_ok (add_candidate state email).
Proof.
  destruct state as [all seen]. intros (Hnd & Hseen & Hlow).
  unfold add_candidate. cbn [fst snd] in *.
  case_bool_decide as Hin; [repeat split; auto; apply Hseen|].
  repeat split; cbn [fst snd].
  - apply NoDup_app. repeat split; [exact Hnd| |apply NoDup_singleton].
    intros x Hx Hx'. apply list_elem_of_singleton in Hx'. subst x.
    apply Hin, Hseen, Hx.
  - intros Hx. apply elem_of_union in Hx as [Hx|Hx].
    + apply elem_of_singleton in Hx. subst x. apply elem_of_app. right.
      now apply list_elem_of_singleton.
    + apply elem_of_app. left. now apply Hseen.
  - intros Hx. apply elem_of_app in Hx as [Hx|Hx].
    + apply elem_of_union. right. now apply Hseen.
    + apply list_elem_of_singleton in Hx. subst x.
      apply elem_of_union. left. now apply elem_of_singleton.
  - apply Forall_app. split; [exact Hlow|].
    constructor; [apply lower_idem|constructor].
Qed.

Lemma add_candidates_ok (emails : list string)
      (state : list string * gset string) :
  candidates_ok state -> candidates_ok (fold_left add_candidate emails state).
Proof.
  revert state; induction emails as [|e emails IH]; intros state H;
    cbn [fold_left]; [exact H|].
  apply IH, add_candidate_ok, H.
Qed.

Lemma assemble_candidates_ok (first_lower last_lower : string)
      (generated_patterns scraped_emails : list string) :
  let all_candidates :=
    assemble_candidates first_lower last_lower
                        generated_patterns scraped_emails in
  NoDup all_candidates /\ Forall (fun x => lower x = x) all_candidates.
Proof.
  unfold assemble_candidates.
  destruct (prioritize _ _ (prioritize _ _ _ _) _) as [names others].
  assert (H0 : candidates_ok ([], ∅)).
  { repeat split; cbn; [constructor|set_solver|set_solver|constructor]. }
  destruct (add_candidates_ok others _ (add_candidates_ok names _ H0))
    as (Hnd & _ & Hlow).
  split; assumption.
Qed.

(** No two candidates are equal when compared without regard to case. *)
Lemma assemble_candidates_case_insensitive (first_lower last_lower : string)
      (generated_patterns scraped_emails : list string) :
  NoDup (map lower (assemble_candidates first_lower last_lower
                                        generated_patterns scraped_emails)).
Proof.
  destruct (assemble_candidates_ok first_lower last_lower
                                   generated_patterns scraped_emails)
    as [Hnd Hlow].
  cbn zeta in Hnd, Hlow.
  rewrite (List.map_ext_in lower id).
  - now rewrite List.map_id.
  - intros x Hx. rewrite List.Forall_forall in Hlow. now apply Hlow.
Qed.

End Candidates.

(* ===================================================================== *)
(** ** beacon.py: one candidate *)
(* ===================================================================== *)

Section Candidate.
Import Exceptions Config Beacon BeaconSpec.

Lemma random_unit_range (raw : N) :
  (0 <= random_unit raw)%Q /\ (random_unit raw < 1)%Q.
Proof.
  unfold random_unit, Qle, Qlt. cbn [Qnum Qden].
  pose proof (N.mod_lt raw (2 ^ 53)) as H.
  assert (Hlt : (raw mod 2 ^ 53 < 2 ^ 53)%N) by (apply H; discriminate).
  split.
  - rewrite Z.mul_0_l, Z.mul_1_r. apply N2Z.is_nonneg.
  - rewrite Z.mul_1_r, Z.mul_1_l.
    change (Z.pos (2 ^ 53)) with (Z.of_N (2 ^ 53)).
    now apply N2Z.inj_lt.
Qed.

Lemma sleep_between_eq (E : env) (range : Q * Q) (w : world) :
  sleep_between E range w = (Ok tt, slept E range w).
Proof.
  unfold sleep_between, slept, sleep_duration. destruct range as [a b].
  cbn [fst snd]. now destruct (Qlt_bool a b).
Qed.

(** A sleep lasts between the minimum and the maximum. *)
Lemma sleep_duration_range (E : env) (range : Q * Q) (w : world) :
  (fst range <= snd range)%Q ->
  (fst range <= sleep_duration E range w)%Q
  /\ (sleep_duration E range w <= snd range)%Q.
Proof.
  destruct range as [a b]. cbn [fst snd]. intros Hab.
  unfold sleep_duration. destruct (Qlt_bool a b).
  - destruct (random_unit_range (random_source E (rng_pos w))) as [H0 H1].
    split; nra.
  - split; [apply Qle_refl|exact Hab].
Qed.

(** The SMTP step never raises: what the verifier raises becomes a
    message. *)
Lemma smtp_step_eq (B : MailBeacon) (candidate : string) (c : Z) (w : world) :
  smtp_step B candidate c w =
  match verify_email_with_retries B candidate w with
  | (Ok (status, msg, catch_all), w1) =>
      (Ok (adjust_confidence c status catch_all, status, msg), w1)
  | (Raise e, w1) =>
      (Ok (c, None,
           (if isinstance e "EmailSleuthError" then "SMTP Error: "
            else "Unexpected SMTP Error: ") +:+ exn_str e), w1)
  end.
Proof.
  unfold smtp_step, try_exceptM, bind.
  destruct (verify_email_with_retries B candidate w) as [[[[st msg] ca]|e] w1].
  - reflexivity.
  - cbn. rewrite isinstance_Exception. cbn.
    now destruct (isinstance e "EmailSleuthError").
Qed.

(** What is left of the loop body after the SMTP step: the record, with
    a positive confidence, and then the sleep. *)
Lemma assess_candidate_eq (E : env) (B : MailBeacon)
      (first_lower last_lower domain : string)
      (generated_patterns scraped_emails : list string)
      (acc : assessed) (candidate local_part domain_part : string)
      (w : world) :
  email_regex_match (settings B) candidate = true ->
  partition candidate "@" = (local_part, Some domain_part) ->
  let f := flags_of B first_lower last_lower domain generated_patterns
                    scraped_emails candidate local_part domain_part in
  assessed_at_all f = true ->
  let methods' :=
    if verifies f && negb (in_list "smtp_verification" (methods acc))
    then methods acc ++ ["smtp_verification"] else methods acc in
  let done (data : list FoundEmailData) (msg : string) : assessed :=
    {| verified_emails_data := data;
       methods := methods';
       log := <[ candidate := msg ]> (log acc) |} in
  let finish (c : Z) (status : option bool) (msg : string) (w1 w2 : world)
    : result assessed * world :=
    let final_confidence := Z.max 0 (Z.min 10 c) in
    if 0 <? final_confidence then
      match email_str E candidate with
      | Some address =>
          (Ok (done (verified_emails_data acc
                     ++ [stored address f final_confidence status msg]) msg),
           w2)
      | None =>
          (Raise (Pydantic.ValidationError "FoundEmailData" "email"), w1)
      end
    else (Ok (done (verified_emails_data acc) msg), w2) in
  assess_candidate E B first_lower last_lower domain
                   generated_patterns scraped_emails acc candidate w
  = if verifies f then
      match smtp_step B candidate (initial_confidence f) w with
      | (Ok (c, status, msg), w1) =>
          finish c status msg w1
                 (slept E (sleep_between_requests (settings B)) w1)
      | (Raise e, w1) => (Raise e, w1)
      end
    else finish (initial_confidence f) None
                "Verification skipped (low initial confidence)" w w.
Proof.
  intros Hregex Hsplit f Hassessed methods' done finish.
  unfold assess_candidate. rewrite Hregex, Hsplit. cbn [negb].
  assert (Hfilter :
    negb (String.eqb domain_part domain)
    && negb (in_list candidate scraped_emails
             && is_generic_prefix B candidate) = false).
  { unfold assessed_at_all in Hassessed. cbn in Hassessed.
    destruct (String.eqb domain_part domain); [reflexivity|].
    cbn in Hassessed |- *. now rewrite Hassessed. }
  rewrite Hfilter.
  subst finish done methods'. unfold verifies, initial_confidence, stored.
  subst f. cbn [flags_of is_pattern is_scraped generic
                matches_primary_domain name_in_local confidence].
  unfold new_FoundEmailData, Pydantic.EmailStr.
  destruct (should_verify_smtp _ _ _).
  - unfold bind at 1.
    destruct (smtp_step _ _ _ w) as [[[[c st] msg]|e] w1]; [|reflexivity].
    unfold bind, ret, lift. cbn beta iota zeta.
    destruct (0 <? Z.max 0 (Z.min 10 c));
      [destruct (email_str E candidate)|];
      cbn; rewrite ?sleep_between_eq; reflexivity.
  - unfold bind, ret, lift. cbn beta iota zeta.
    destruct (0 <? Z.max 0 (Z.min 10 _));
      [destruct (email_str E candidate)|]; reflexivity.
Qed.

(** The code's scoring and the formula of the specification agree, and
    so do the two tests that decide on the SMTP verification. *)
Lemma clamp_spec_confidence (f : flags) :
  Z.max 0 (Z.min 10 (initial_confidence f)) = spec_confidence f None
  /\ (forall status catch_all,
      Z.max 0 (Z.min 10 (adjust_confidence (initial_confidence f)
                                           status catch_all))
      = spec_confidence f (Some (status, catch_all)))
  /\ verifies f = spec_verifies f.
Proof.
  destruct f as [[] [] [] [] []]; split; try reflexivity;
    split; try reflexivity; intros [[]|] []; reflexivity.
Qed.

Lemma bool_same (a b : bool) (P : Prop) :
  (a = true <-> P) -> (b = true <-> P) -> a = b.
Proof. destruct a, b; intuition congruence. Qed.

(** The flags that the loop computes are the flags of the
    specification. *)
Lemma provenance_flags (B : MailBeacon) (first_lower last_lower domain : string)
      (generated_patterns scraped_emails : list string)
      (candidate local_part domain_part : string) (f : flags) :
  address_parts candidate local_part domain_part ->
  provenance (settings B) first_lower last_lower domain generated_patterns
             scraped_emails candidate local_part domain_part f ->
  partition candidate "@" = (local_part, Some domain_part)
  /\ f = flags_of B first_lower last_lower domain generated_patterns
                  scraped_emails candidate local_part domain_part.
Proof.
  intros [-> Hno] [Hp Hs Hg Hd Hn].
  assert (Hsplit : partition (local_part +:+ "@" +:+ domain_part) "@"
                   = (local_part, Some domain_part))
    by (apply (partition_spec "@" local_part domain_part Hno)).
  split; [exact Hsplit|].
  destruct f as [p s g d n]. cbn [is_pattern is_scraped generic
                                   matches_primary_domain name_in_local] in *.
  unfold flags_of. f_equal.
  - apply (bool_same _ _ _ Hp). unfold in_list.
    rewrite bool_decide_eq_true. apply list_elem_of_In.
  - apply (bool_same _ _ _ Hs). unfold in_list.
    rewrite bool_decide_eq_true. apply list_elem_of_In.
  - apply (bool_same _ _ _ Hg). unfold is_generic_prefix, split_first.
    rewrite Hsplit. cbn [fst]. apply bool_decide_eq_true.
  - apply (bool_same _ _ _ Hd). apply String.eqb_eq.
  - apply (bool_same _ _ _ Hn). unfold name_in.
    rewrite orb_true_iff, !contains_spec. reflexivity.
Qed.

(** What the loop body leaves of a candidate with the confidence [c]
    after the SMTP step. *)
Lemma finish_recorded (E : env) (data : list FoundEmailData)
      (candidate : string) (f : flags) (c : Z) (status : option bool)
      (msg : string) (methods' : list string) (log' : gmap string string)
      (w1 w2 : world) :
  let final_confidence := Z.max 0 (Z.min 10 c) in
  recorded E data candidate f final_confidence status msg
    (fst (if 0 <? final_confidence then
            match email_str E candidate with
            | Some address =>
                (Ok {| verified_emails_data :=
                         data ++ [stored address f final_confidence status msg];
                       methods := methods';
                       log := log' |}, w2)
            | None =>
                (Raise (Pydantic.ValidationError "FoundEmailData" "email"),
                 w1)
            end
          else (Ok {| verified_emails_data := data;
                      methods := methods';
                      log := log' |}, w2))).
Proof.
  intros fc. unfold recorded. destruct (0 <? fc).
  - destruct (email_str E candidate); cbn [fst]; eauto.
  - cbn [fst]. eauto.
Qed.

(** C2. A candidate that passes the regex and the domain filter gets the
    confidence of the formula: the points for its provenance (it is a
    generated pattern, it was scraped, the first or the last name occurs
    in its local part, its domain is the primary domain), the penalty for
    a generic prefix, the adjustment for the verdict of the SMTP
    verification when it ran, clamped to 0..10. With a confidence of 0
    the candidate is dropped. Otherwise its record is stored with that
    confidence, unless the validation of the address fails: then the
    error leaves the loop. *)
Theorem candidate_confidence_follows_formula
        (E : env) (B : MailBeacon) (first_lower last_lower domain : string)
        (generated_patterns scraped_emails : list string)
        (acc : assessed) (candidate local_part domain_part : string)
        (f : flags) (w : world) :
  email_regex_match (settings B) candidate = true ->
  address_parts candidate local_part domain_part ->
  provenance (settings B) first_lower last_lower domain generated_patterns
             scraped_emails candidate local_part domain_part f ->
  assessed_at_all f = true ->
  let run := assess_candidate E B first_lower last_lower domain
               generated_patterns scraped_emails acc candidate w in
  (spec_verifies f = false ->
   recorded E (verified_emails_data acc) candidate f
            (spec_confidence f None) None
            "Verification skipped (low initial confidence)" (fst run))
  /\ (spec_verifies f = true ->
      forall status msg catch_all w1,
        verify_email_with_retries B candidate w
        = (Ok (status, msg, catch_all), w1) ->
        recorded E (verified_emails_data acc) candidate f
                 (spec_confidence f (Some (status, catch_all))) status msg
                 (fst run)).
Proof.
  intros Hregex Hparts Hprov Hassessed run. subst run.
  destruct (provenance_flags B first_lower last_lower domain
              generated_patterns scraped_emails candidate local_part
              domain_part f Hparts Hprov) as [Hsplit Hf].
  rewrite Hf in Hassessed.
  rewrite (assess_candidate_eq E B first_lower last_lower domain
             generated_patterns scraped_emails acc candidate
             local_part domain_part w Hregex Hsplit Hassessed).
  rewrite <- Hf. destruct (clamp_spec_confidence f) as (Hnone & Hsome & Hv).
  rewrite Hv. split.
  - intros Hskip. rewrite Hskip, <- Hnone. apply finish_recorded.
  - intros Hrun status msg catch_all w1 Hverdict.
    rewrite Hrun, smtp_step_eq, Hverdict, <- Hsome. apply finish_recorded.
Qed.

(** When the verifier raises instead of returning a verdict, the
    confidence is left as it was before SMTP and the status is
    inconclusive. *)
Lemma verifier_exception_leaves_confidence
      (E : env) (B : MailBeacon) (first_lower last_lower domain : string)
      (generated_patterns scraped_emails : list string)
      (acc : assessed) (candidate local_part domain_part : string)
      (f : flags) (w w1 : world) (e : exn) :
  email_regex_match (settings B) candidate = true ->
  address_parts candidate local_part domain_part ->
  provenance (settings B) first_lower last_lower domain generated_patterns
             scraped_emails candidate local_part domain_part f ->
  assessed_at_all f = true ->
  spec_verifies f = true ->
  verify_email_with_retries B candidate w = (Raise e, w1) ->
  exists msg,
    recorded E (verified_emails_data acc) candidate f
             (spec_confidence f None) None msg
             (fst (assess_candidate E B first_lower last_lower domain
                     generated_patterns scraped_emails acc candidate w)).
Proof.
  intros Hregex Hparts Hprov Hassessed Hrun Hraise.
  destruct (provenance_flags B first_lower last_lower domain
              generated_patterns scraped_emails candidate local_part
              domain_part f Hparts Hprov) as [Hsplit Hf].
  rewrite Hf in Hassessed.
  rewrite (assess_candidate_eq E B first_lower last_lower domain
             generated_patterns scraped_emails acc candidate
             local_part domain_part w Hregex Hsplit Hassessed).
  rewrite <- Hf. destruct (clamp_spec_confidence f) as (Hnone & _ & Hv).
  rewrite Hv, Hrun, smtp_step_eq, Hraise, <- Hnone.
  eexists. apply finish_recorded.
Qed.

(** C8, as the code has it. The orchestrator sleeps after a candidate
    when it attempted the SMTP verification of that candidate and then
    stored or dropped its record: the sleep is the last effect of the
    step and lasts between the configured minimum and maximum. When the
    verification is skipped the step has no effect at all: there is no
    sleep. *)
Theorem sleep_follows_attempted_verification_only
        (E : env) (B : MailBeacon) (first_lower last_lower domain : string)
        (generated_patterns scraped_emails : list string)
        (acc : assessed) (candidate local_part domain_part : string)
        (f : flags) (w : world) :
  email_regex_match (settings B) candidate = true ->
  address_parts candidate local_part domain_part ->
  provenance (settings B) first_lower last_lower domain generated_patterns
             scraped_emails candidate local_part domain_part f ->
  assessed_at_all f = true ->
  let run := assess_candidate E B first_lower last_lower domain
               generated_patterns scraped_emails acc candidate w in
  let range := sleep_between_requests (settings B) in
  (spec_verifies f = false -> snd run = w)
  /\ (spec_verifies f = true ->
      forall acc', fst run = Ok acc' ->
      let w1 := snd (verify_email_with_retries B candidate w) in
      let d := sleep_duration E range w1 in
      trace (snd run) = trace w1 ++ [Sleep d]
      /\ ((fst range <= snd range)%Q ->
          (fst range <= d)%Q /\ (d <= snd range)%Q)).
Proof.
  intros Hregex Hparts Hprov Hassessed run range. subst run.
  destruct (provenance_flags B first_lower last_lower domain
              generated_patterns scraped_emails candidate local_part
              domain_part f Hparts Hprov) as [Hsplit Hf].
  rewrite Hf in Hassessed.
  rewrite (assess_candidate_eq E B first_lower last_lower domain
             generated_patterns scraped_emails acc candidate
             local_part domain_part w Hregex Hsplit Hassessed).
  rewrite <- Hf. destruct (clamp_spec_confidence f) as (_ & _ & Hv).
  rewrite Hv. split; intros Hcase; rewrite Hcase.
  - cbn zeta.
    match goal with |- context [0 <? ?x] => destruct (0 <? x) end;
      [|reflexivity].
    destruct (email_str E candidate); reflexivity.
  - intros acc' Hok w1 d. split; [|apply sleep_duration_range].
    subst d w1. rewrite smtp_step_eq in Hok |- *.
    destruct (verify_email_with_retries B candidate w)
      as [[[[st msg] ca]|e] w1]; cbn [snd]; cbn zeta in Hok |- *.
    all: match goal with |- context [0 <? ?x] => destruct (0 <? x) end;
      [|reflexivity].
    all: destruct (email_str E candidate); [reflexivity|discriminate Hok].
Qed.

(** Whatever happens to a candidate, the stored records grow by at most
    one, which holds the validated address and whose confidence lies in
    1..10. *)
Lemma assess_candidate_data (E : env) (B : MailBeacon)
      (first_lower last_lower domain : string)
      (generated_patterns scraped_emails : list string)
      (acc acc' : assessed) (candidate : string) (w w' : world) :
  assess_candidate E B first_lower last_lower domain
                   generated_patterns scraped_emails acc candidate w
  = (Ok acc', w') ->
  verified_emails_data acc' = verified_emails_data acc
  \/ exists r, verified_emails_data acc' = verified_emails_data acc ++ [r]
               /\ email_str E candidate = Some (email r)
               /\ 1 <= confidence r <= 10.
Proof.
  destruct (email_regex_match (settings B) candidate) eqn:Hregex.
  2:{ unfold assess_candidate. rewrite Hregex. cbn. intros H.
      inversion H. now left. }
  destruct (partition candidate "@") as [local_part [domain_part|]] eqn:Hsplit.
  2:{ unfold assess_candidate. rewrite Hregex, Hsplit. cbn. inversion 1. }
  set (f := flags_of B first_lower last_lower domain generated_patterns
                     scraped_emails candidate local_part domain_part).
  destruct (assessed_at_all f) eqn:Hassessed.
  2:{ unfold assess_candidate. rewrite Hregex, Hsplit. cbn [negb].
      unfold assessed_at_all in Hassessed. subst f. cbn in Hassessed.
      apply orb_false_iff in Hassessed as [H1 H2]. rewrite H1, H2. cbn.
      intros H. inversion H. now left. }
  rewrite (assess_candidate_eq E B first_lower last_lower domain
             generated_patterns scraped_emails acc candidate
             local_part domain_part w Hregex Hsplit Hassessed).
  fold f. cbn zeta.
  assert (Hfinish : forall c status msg methods' log' w1 w2,
    (if 0 <? Z.max 0 (Z.min 10 c) then
       match email_str E candidate with
       | Some address =>
           (Ok {| verified_emails_data :=
                    verified_emails_data acc
                    ++ [stored address f (Z.max 0 (Z.min 10 c)) status msg];
                  methods := methods';
                  log := log' |}, w2)
       | None =>
           (Raise (Pydantic.ValidationError "FoundEmailData" "email"), w1)
       end
     else (Ok {| verified_emails_data := verified_emails_data acc;
                 methods := methods';
                 log := log' |}, w2)) = (Ok acc', w') ->
    verified_emails_data acc' = verified_emails_data acc
    \/ exists r, verified_emails_data acc' = verified_emails_data acc ++ [r]
                 /\ email_str E candidate = Some (email r)
                 /\ 1 <= confidence r <= 10).
  { intros c status msg methods' log' w1 w2.
    destruct (0 <? Z.max 0 (Z.min 10 c)) eqn:Hpos.
    - destruct (email_str E candidate) as [address|]; [|discriminate].
      intros H. inversion H; subst. cbn [verified_emails_data]. right.
      eexists. split; [reflexivity|]. cbn. apply Z.ltb_lt in Hpos.
      split; [reflexivity|lia].
    - intros H. inversion H; subst. now left. }
  destruct (verifies f).
  - destruct (smtp_step B candidate (initial_confidence f) w)
      as [[[[c st] msg]|e] w1]; [apply Hfinish|discriminate].
  - apply Hfinish.
Qed.

End Candidate.

(* ===================================================================== *)
(** ** beacon.py: ranking, selection and the result *)
(* ===================================================================== *)

Section Ranking.
Import Exceptions Config Beacon BeaconSpec.

Lemma key_lt_rank (a b : FoundEmailData) :
  key_lt a b = (rank a <? rank b).
Proof.
  unfold key_lt, rank, bool_lt.
  destruct (is_generic a), (is_generic b),
           (String.eqb (source a) "scraped"),
           (String.eqb (source b) "scraped"); cbn;
    destruct (confidence a <? confidence b) eqn:Hlt;
    destruct (confidence a =? confidence b) eqn:Heq; cbn;
    symmetry; rewrite ?Z.ltb_lt, ?Z.ltb_ge;
    rewrite ?Z.ltb_lt, ?Z.ltb_ge, ?Z.eqb_eq, ?Z.eqb_neq in *; lia.
Qed.

Lemma ranks_no_lower_rank (a b : FoundEmailData) :
  rank b <= rank a -> ranks_no_lower a b.
Proof.
  unfold rank, ranks_no_lower. intros H.
  destruct (Z.lt_trichotomy (confidence a) (confidence b)) as [Hc|[Hc|Hc]].
  - exfalso.
    destruct (is_generic a), (is_generic b),
             (String.eqb (source a) "scraped"),
             (String.eqb (source b) "scraped"); lia.
  - right. split; [exact Hc|].
    destruct (is_generic a) eqn:Ha, (is_generic b) eqn:Hb;
      destruct (String.eqb (source a) "scraped") eqn:Hsa;
      destruct (String.eqb (source b) "scraped") eqn:Hsb;
      try lia;
      rewrite ?String.eqb_eq, ?String.eqb_neq in *; auto.
  - now left.
Qed.

Lemma sorted_found (data : list FoundEmailData) :
  StronglySorted ranks_no_lower (sort_by_reverse key_lt data).
Proof.
  unfold sort_by_reverse.
  assert (Hs : StronglySorted (not_after (fun a b => key_lt b a))
                              (sort_by (fun a b => key_lt b a) data)).
  { apply sort_by_sorted; unfold not_after; intros *;
      rewrite !key_lt_rank, ?Z.ltb_lt, ?Z.ltb_ge; lia. }
  induction Hs as [|x l Hs IH Hall]; constructor; [exact IH|].
  eapply Forall_impl; [exact Hall|].
  intros y Hy. unfold not_after in Hy. rewrite key_lt_rank in Hy.
  apply Z.ltb_ge in Hy. now apply ranks_no_lower_rank.
Qed.

Lemma find_first {A : Type} (p : A -> bool) (l : list A) :
  match find p l with
  | Some x => exists before after,
                l = before ++ x :: after /\ p x = true
                /\ Forall (fun y => p y = false) before
  | None => Forall (fun y => p y = false) l
  end.
Proof.
  induction l as [|y l IH]; cbn; [constructor|].
  destruct (p y) eqn:Hy.
  - exists [], l. repeat split; auto.
  - destruct (find p l) as [x|].
    + destruct IH as (before & after & -> & Hx & Hb).
      exists (y :: before), after. repeat split; auto.
    + now constructor.
Qed.

Lemma qualifies_test (st : Settings) (e : FoundEmailData) :
  negb (is_generic e) && (confidence_threshold st <=? confidence e) = true
  <-> qualifies st e.
Proof.
  unfold qualifies. rewrite andb_true_iff, negb_true_iff, Z.leb_le. tauto.
Qed.

Lemma top_selectable_test (st : Settings) (top : FoundEmailData) :
  (confidence_threshold st <=? confidence top)
  && (negb (is_generic top)
      || (generic_confidence_threshold st <=? confidence top)) = true
  <-> top_selectable st top.
Proof.
  unfold top_selectable.
  rewrite andb_true_iff, orb_true_iff, negb_true_iff, !Z.leb_le. tauto.
Qed.

Lemma not_qualifying (st : Settings) (l : list FoundEmailData) :
  Forall (fun y => negb (is_generic y)
                   && (confidence_threshold st <=? confidence y) = false) l ->
  Forall (fun e => ~ qualifies st e) l.
Proof.
  intros H. eapply Forall_impl; [exact H|].
  intros y Hy Hq. apply qualifies_test in Hq. congruence.
Qed.

(** The selection rule on a ranked list. *)
Lemma select_best_spec (st : Settings) (found : list FoundEmailData) :
  let '(most_likely, score) := select_best st found in
  (exists before best after,
      found = before ++ best :: after /\ qualifies st best
      /\ Forall (fun e => ~ qualifies st e) before
      /\ most_likely = Some (email best) /\ score = confidence best)
  \/ (Forall (fun e => ~ qualifies st e) found
      /\ exists top rest,
          found = top :: rest /\ top_selectable st top
          /\ most_likely = Some (email top) /\ score = confidence top)
  \/ (Forall (fun e => ~ qualifies st e) found
      /\ (forall top rest, found = top :: rest -> ~ top_selectable st top)
      /\ most_likely = None /\ score = 0).
Proof.
  unfold select_best.
  pose proof (find_first (fun e => negb (is_generic e)
                && (confidence_threshold st <=? confidence e)) found) as Hf.
  destruct (find _ found) as [best|].
  - destruct Hf as (before & after & Hfound & Hbest & Hbefore).
    lazy beta iota. left. exists before, best, after.
    split; [exact Hfound|]. split; [now apply qualifies_test|].
    split; [now apply not_qualifying|]. split; reflexivity.
  - apply not_qualifying in Hf.
    destruct found as [|top rest].
    + lazy beta iota. right. right. split; [exact Hf|]. split; [|split; reflexivity].
      intros * H. discriminate.
    + destruct ((confidence_threshold st <=? confidence top) && _) eqn:Htop;
        lazy beta iota; right.
      * left. split; [exact Hf|]. exists top, rest.
        split; [reflexivity|]. split; [now apply top_selectable_test|].
        split; reflexivity.
      * right. split; [exact Hf|]. split; [|split; reflexivity].
        intros top' rest' H Hsel. inversion H; subst.
        apply top_selectable_test in Hsel. congruence.
Qed.

End Ranking.

Section FindEmail.
Import Exceptions Config Beacon BeaconSpec.

Lemma assess_all_data (E : env) (B : MailBeacon)
      (first_lower last_lower domain : string)
      (generated_patterns scraped_emails : list string)
      (P : FoundEmailData -> Prop) (all_candidates : list string) :
  (forall r, 1 <= confidence r <= 10 -> P r) ->
  forall (acc acc' : assessed) (w w' : world),
    assess_all E B first_lower last_lower domain
               generated_patterns scraped_emails acc all_candidates w
    = (Ok acc', w') ->
    Forall P (verified_emails_data acc) ->
    Forall P (verified_emails_data acc').
Proof.
  intros HP. induction all_candidates as [|c rest IH]; intros acc acc' w w'.
  - cbn. intros H. now inversion H.
  - cbn [assess_all]. unfold bind at 1.
    destruct (assess_candidate _ _ _ _ _ _ _ acc c w) as [[acc1|e] w1] eqn:Hc;
      [|inversion 1].
    intros Hrest Hacc. apply (IH acc1 acc' w1 w' Hrest).
    destruct (assess_candidate_data _ _ _ _ _ _ _ _ _ _ _ _ Hc)
      as [->|(r & -> & _ & Hr)]; [exact Hacc|].
    apply Forall_app. split; [exact Hacc|]. constructor; [auto|constructor].
Qed.

Lemma assess_stage_data (E : env) (B : MailBeacon)
      (first_name last_name domain website_url : string)
      (acc : assessed) (w w' : world) :
  assess_stage E B first_name last_name domain website_url w = (Ok acc, w') ->
  Forall (fun r => 1 <= confidence r <= 10) (verified_emails_data acc).
Proof.
  unfold assess_stage, bind.
  destruct (scrape_step _ _ _ _ w) as [[[[scraped methods1] log1]|e] w1];
    [|inversion 1].
  intros H. eapply assess_all_data in H; [exact H|auto|constructor].
Qed.

Lemma find_email_stages (E : env) (B : MailBeacon)
      (first_name last_name domain website_url : string)
      (res : EmailResult) (w w' : world) :
  find_email E B first_name last_name domain website_url w = (Ok res, w') ->
  exists acc,
    assess_stage E B first_name last_name domain website_url w = (Ok acc, w')
    /\ res = rank_and_select (settings B) acc.
Proof.
  unfold find_email, bind.
  destruct (assess_stage _ _ _ _ _ _ w) as [[acc|e] w1]; [|inversion 1].
  cbn. intros H. inversion H. eauto.
Qed.

(** Step 5 on whatever the loop left: the records are those of the loop,
    ranked, and the selection follows the three cases. *)
Lemma rank_and_select_spec (st : Settings) (acc : assessed) :
  let res := rank_and_select st acc in
  let found := found_emails res in
  Permutation (verified_emails_data acc) found
  /\ StronglySorted ranks_no_lower found
  /\ ((exists before best after,
          found = before ++ best :: after /\ qualifies st best
          /\ Forall (fun e => ~ qualifies st e) before
          /\ most_likely_email res = Some (email best)
          /\ confidence_score res = confidence best)
      \/ (Forall (fun e => ~ qualifies st e) found
          /\ exists top rest,
              found = top :: rest /\ top_selectable st top
              /\ most_likely_email res = Some (email top)
              /\ confidence_score res = confidence top)
      \/ (Forall (fun e => ~ qualifies st e) found
          /\ (forall top rest, found = top :: rest -> ~ top_selectable st top)
          /\ most_likely_email res = None /\ confidence_score res = 0)).
Proof.
  unfold rank_and_select.
  pose proof (select_best_spec st
                (sort_by_reverse key_lt (verified_emails_data acc))) as Hsel.
  destruct (select_best st _) as [most_likely score].
  cbn [found_emails most_likely_email confidence_score].
  split; [apply sort_by_perm|]. split; [apply sorted_found|exact Hsel].
Qed.

(** C3. The records of the result are the survivors of the loop
    (confidence above 0), ranked by confidence descending, then
    non-generic before generic, then scraped before pattern; the selected
    email is the first non-generic record at or above the confidence
    threshold, else the top record when it reaches the threshold and is
    non-generic or reaches the generic threshold, else none, with a
    confidence score of 0. *)
Theorem find_email_ranks_and_selects
        (E : env) (B : MailBeacon)
        (first_name last_name domain website_url : string)
        (res : EmailResult) (w w' : world) :
  find_email E B first_name last_name domain website_url w = (Ok res, w') ->
  exists acc,
    assess_stage E B first_name last_name domain website_url w = (Ok acc, w')
    /\ let survivors := verified_emails_data acc in
       let found := found_emails res in
       let st := settings B in
       Forall (fun r => 0 < confidence r) survivors
       /\ Permutation survivors found
       /\ StronglySorted ranks_no_lower found
       /\ ((exists before best after,
               found = before ++ best :: after /\ qualifies st best
               /\ Forall (fun e => ~ qualifies st e) before
               /\ most_likely_email res = Some (email best)
               /\ confidence_score res = confidence best)
           \/ (Forall (fun e => ~ qualifies st e) found
               /\ exists top rest,
                   found = top :: rest /\ top_selectable st top
                   /\ most_likely_email res = Some (email top)
                   /\ confidence_score res = confidence top)
           \/ (Forall (fun e => ~ qualifies st e) found
               /\ (forall top rest,
                      found = top :: rest -> ~ top_selectable st top)
               /\ most_likely_email res = None
               /\ confidence_score res = 0)).
Proof.
  intros Hrun. apply find_email_stages in Hrun as (acc & Hstage & ->).
  exists acc. split; [exact Hstage|]. cbn zeta.
  split.
  - eapply Forall_impl; [exact (assess_stage_data _ _ _ _ _ _ _ _ _ Hstage)|].
    cbn. intros r Hr. lia.
  - apply rank_and_select_spec.
Qed.

(** C5. The candidates are pairwise different even when compared without
    regard to case; every record of a result has a confidence between 0
    and 10; a selected email is the email of one of the records. *)
Theorem find_email_invariants
        (E : env) (B : MailBeacon)
        (first_name last_name domain website_url : string)
        (res : EmailResult) (w w' : world) :
  find_email E B first_name last_name domain website_url w = (Ok res, w') ->
  (forall scraped_emails,
      NoDup (map lower
               (assemble_candidates
                  (lower first_name) (lower last_name)
                  (generate_email_patterns B first_name last_name domain)
                  scraped_emails)))
  /\ Forall (fun r => 0 <= confidence r <= 10) (found_emails res)
  /\ (forall m, most_likely_email res = Some m ->
                exists r, In r (found_emails res) /\ email r = m).
Proof.
  intros Hrun. apply find_email_stages in Hrun as (acc & Hstage & ->).
  destruct (rank_and_select_spec (settings B) acc) as (Hperm & _ & Hsel).
  cbn zeta in Hperm, Hsel.
  split; [intros; apply assemble_candidates_case_insensitive|]. split.
  - apply (Permutation_Forall Hperm).
    eapply Forall_impl; [exact (assess_stage_data _ _ _ _ _ _ _ _ _ Hstage)|].
    cbn. intros r Hr. lia.
  - intros m Hm.
    destruct Hsel as [(before & best & after & Hfound & _ & _ & Hbest & _)
                     |[(_ & top & rest & Hfound & _ & Htop & _)
                      |(_ & _ & Hnone & _)]].
    + exists best. rewrite Hfound. split; [apply in_elt|congruence].
    + exists top. rewrite Hfound. split; [now left|congruence].
    + congruence.
Qed.

End FindEmail.

(* ===================================================================== *)
(** ** The theorems at concrete inputs *)
(* ===================================================================== *)

Section Examples.
Import Exceptions DnsUtils Config SmtpUtils SmtpSpec Beacon BeaconSpec.
Import Scenarios.

(** What C1 means for the orchestrator: the [NameError] of the verifier
    is caught there, the candidate keeps its confidence of 4 and its log
    entry shows the error. *)
Lemma find_email_nxdomain_logs_name_error :
  exists res,
    find_email (env_of selective_session) nxdomain_beacon
               "John" "Doe" "nxdomain.test" "https://nxdomain.test" w0
    = (Ok res, slept (env_of selective_session)
                     (sleep_between_requests default_settings) w0)
    /\ map confidence (found_emails res) = [4]
    /\ verification_log res !! "john.doe@nxdomain.test"
       = Some "Unexpected SMTP Error: name 'DnsError' is not defined".
Proof. eexists. repeat split; vm_compute; reflexivity. Qed.

(** C4, where the claim fails. In the first run the sample of the first
    attempt is accepted: that attempt is inconclusive with [is_catch_all]
    set, it is retried, the second attempt sees the candidate accepted and
    the sample refused, and the verdict of the run is verified. In the
    second run the sample gets no reply in time, which is neither an
    acceptance nor a rejection; the failure is ignored and the verdict is
    verified. *)
Lemma accepted_sample_run_verified_and_unanswered_sample_verified :
  let V := verifier example_resolver in
  let email := "john.doe@example.com" in
  (let E := env_by_connection catch_all_at_first in
   probe_accepted (smtp_server E 0) "abcdefghijkl@example.com"
   /\ fst (_verify_single_attempt E V email "example.com" mx w0)
      = Ok (inconclusive_retry "SMTP accepted (Possible Catch-All): 250 OK"
                               true)
   /\ fst (SmtpUtils.verify_email_with_retries E V email w0)
      = Ok (Some true, "SMTP Verification OK: 250 OK", false)
   /\ rcpts (trace (snd (SmtpUtils.verify_email_with_retries E V email w0)))
      = [email; "abcdefghijkl@example.com";
         email; "nopqrstuvwxy@example.com"])
  /\ (let E := env_of sample_timeout_session in
      rcpt_reply sample_timeout_session 1 "abcdefghijkl@example.com"
      = Raise asyncio_TimeoutError
      /\ fst (SmtpUtils.verify_email_with_retries E V email w0)
         = Ok (Some true, "SMTP Verification OK: 250 OK", false)
      /\ rcpts (trace (snd (SmtpUtils.verify_email_with_retries
                              E V email w0)))
         = [email; "abcdefghijkl@example.com"]).
Proof.
  cbn zeta. split.
  - split; [exists 250, "OK"; split; [reflexivity|now left]|].
    repeat split; vm_compute; reflexivity.
  - repeat split; vm_compute; reflexivity.
Qed.

(** C4 on a catch-all server, whose accepted sample makes the attempt
    and the run inconclusive, and on a server that accepts the candidate
    and refuses the sample. *)
Lemma attempt_with_accepted_sample_is_not_verified_witness :
  let V := verifier example_resolver in
  let email := "john.doe@example.com" in
  (exists r,
      fst (_verify_single_attempt (env_of catch_all_session) V email
                                  "example.com" mx w0) = Ok r
      /\ exists_ r = None /\ should_retry r = true /\ is_catch_all r = true)
  /\ (exists msg w',
      SmtpUtils.verify_email_with_retries (env_of catch_all_session) V
                                          email w0
      = (Ok (None, msg, true), w')
      /\ (None : option bool) <> Some true)
  /\ (exists msg ca w',
      SmtpUtils.verify_email_with_retries (env_of selective_session) V
                                          email w0
      = (Ok (Some true, msg, ca), w')
      /\ ca = false).
Proof.
  cbn zeta. split; [|split].
  - destruct (proj1 (proj1 (attempt_with_accepted_sample_is_not_verified
                              (env_of catch_all_session)
                              (verifier example_resolver)
                              "john.doe@example.com")
                           "example.com" mx w0))
      as (r & Hout & _ & Hnone & Hretry & Hflag).
    + eexists. split; [vm_compute; reflexivity|reflexivity].
    + exists 250, "OK". split; [reflexivity|now left].
    + exists r. auto.
  - eexists _, _. split; [vm_compute; reflexivity|].
    refine (proj2 (proj2 (attempt_with_accepted_sample_is_not_verified
                            (env_of catch_all_session)
                            (verifier example_resolver)
                            "john.doe@example.com"))
                  _ w0 _ None _ true _).
    + intros n probe. exists 250, "OK". split; [reflexivity|now left].
    + vm_compute. reflexivity.
  - eexists _, _, _. split; [vm_compute; reflexivity|].
    refine (proj1 (proj1 (proj2 (attempt_with_accepted_sample_is_not_verified
                                   (env_of selective_session)
                                   (verifier example_resolver)
                                   "john.doe@example.com")) w0 _ _ _ _)).
    vm_compute. reflexivity.
Defined.

(** The flags of a concrete candidate, field by field. *)
Ltac flag_holds :=
  first [ reflexivity
        | solve [repeat (first [left; reflexivity | right])]
        | apply bool_decide_eq_true_1; vm_compute; reflexivity
        | left; apply contains_spec; vm_compute; reflexivity
        | right; apply contains_spec; vm_compute; reflexivity ].

Ltac flag_fails H :=
  first [ discriminate H
        | solve [vm_compute in H; intuition discriminate]
        | apply bool_decide_eq_true_2 in H; vm_compute in H; discriminate H
        | destruct H as [H|H]; apply contains_spec in H; vm_compute in H;
          discriminate H ].

Ltac flag :=
  split; [ first [discriminate | intros _; flag_holds]
         | first [ intros _; reflexivity
                 | let H := fresh "H" in intros H; exfalso; flag_fails H ] ].

Ltac concrete_provenance := constructor; cbn [is_pattern is_scraped generic
  matches_primary_domain name_in_local]; flag.

Ltac concrete_parts :=
  split; [reflexivity|];
  let H := fresh "H" in
  intros H; apply contains_spec in H; vm_compute in H; discriminate H.

(** C2 on three candidates. The address of the office was scraped, has
    no part of the name and is not generic: 2 points, 1 for the domain,
    5 for the verification, 8 in all. The generic address keeps 1 point
    and is not verified. The pattern [doe-j.] of J. Doe has 3 points, 1
    for the domain and 5 for the verification, but its record is refused
    by the validation of the address. *)
Lemma candidate_confidence_follows_formula_witness :
  (exists acc',
      fst (assess_candidate (env_of selective_session) acme_office
             "jane" "smith" "acme.com"
             ["j.smith@acme.com"; "jane.smith@acme.com"]
             ["office@acme.com"; "j.smith@acme.com"] no_records
             "office@acme.com" w0)
      = Ok acc'
      /\ map (fun r => (email r, confidence r, source r))
             (verified_emails_data acc')
         = [("office@acme.com", 8, "scraped")])
  /\ (exists acc',
      fst (assess_candidate (env_of selective_session) acme
             "jane" "smith" "acme.com"
             ["j.smith@acme.com"; "jane.smith@acme.com"]
             ["info@acme.com"; "j.smith@acme.com"] no_records
             "info@acme.com" w0)
      = Ok acc'
      /\ map (fun r => (email r, confidence r, source r))
             (verified_emails_data acc')
         = [("info@acme.com", 1, "scraped")])
  /\ fst (assess_candidate (env_of selective_session) initial_only
            "j." "doe" "example.com"
            (Patterns.generate_email_patterns "J." "Doe" "example.com"
                                              default_settings)
            [] no_records "doe-j.@example.com" w0)
     = Raise (Pydantic.ValidationError "FoundEmailData" "email").
Proof.
  split; [|split].
  - pose proof (proj2 (candidate_confidence_follows_formula
                  (env_of selective_session) acme_office
                  "jane" "smith" "acme.com"
                  ["j.smith@acme.com"; "jane.smith@acme.com"]
                  ["office@acme.com"; "j.smith@acme.com"] no_records
                  "office@acme.com" "office" "acme.com"
                  {| is_pattern := false; is_scraped := true;
                     generic := false; matches_primary_domain := true;
                     name_in_local := false |} w0
                  eq_refl ltac:(concrete_parts) ltac:(concrete_provenance)
                  eq_refl)
                eq_refl (Some true) "SMTP Verification OK: 250 OK" false
                {| rng_pos := 12; connections := 1;
                   trace := [SmtpConnect "mx.example.com" 25;
                             SmtpEhlo "localhost";
                             SmtpMail "verify-probe@example.com";
                             SmtpRcpt "office@acme.com";
                             SmtpRcpt "abcdefghijkl@acme.com"; SmtpQuit] |}
                eq_refl) as H.
    destruct H as (acc' & Hrun & Hdata).
    exists acc'. split; [exact Hrun|]. now rewrite Hdata.
  - pose proof (proj1 (candidate_confidence_follows_formula
                  (env_of selective_session) acme
                  "jane" "smith" "acme.com"
                  ["j.smith@acme.com"; "jane.smith@acme.com"]
                  ["info@acme.com"; "j.smith@acme.com"] no_records
                  "info@acme.com" "info" "acme.com"
                  {| is_pattern := false; is_scraped := true;
                     generic := true; matches_primary_domain := true;
                     name_in_local := false |} w0
                  eq_refl ltac:(concrete_parts) ltac:(concrete_provenance)
                  eq_refl)
                eq_refl) as H.
    destruct H as (acc' & Hrun & Hdata).
    exists acc'. split; [exact Hrun|]. now rewrite Hdata.
  - exact (proj2 (candidate_confidence_follows_formula
                  (env_of selective_session) initial_only
                  "j." "doe" "example.com"
                  (Patterns.generate_email_patterns "J." "Doe" "example.com"
                                                    default_settings)
                  [] no_records
                  "doe-j.@example.com" "doe-j." "example.com"
                  {| is_pattern := true; is_scraped := false;
                     generic := false; matches_primary_domain := true;
                     name_in_local := true |} w0
                  eq_refl ltac:(concrete_parts) ltac:(concrete_provenance)
                  eq_refl)
                eq_refl (Some true) "SMTP Verification OK: 250 OK" false
                {| rng_pos := 12; connections := 1;
                   trace := [SmtpConnect "mx.example.com" 25;
                             SmtpEhlo "localhost";
                             SmtpMail "verify-probe@example.com";
                             SmtpRcpt "doe-j.@example.com";
                             SmtpRcpt "abcdefghijkl@example.com";
                             SmtpQuit] |}
                eq_refl).
Defined.

(** C8, where the claim fails: the generic address is assessed, its
    verification is skipped, and the run ends without any sleep. *)
Lemma skipped_verification_without_sleep :
  exists res,
    find_email (env_of selective_session) acme_generic_only
               "Jane" "Smith" "acme.com" "https://acme.com" w0
    = (Ok res, w0)
    /\ trace w0 = []
    /\ map email (found_emails res) = ["info@acme.com"]
    /\ verification_log res !! "info@acme.com"
       = Some "Verification skipped (low initial confidence)".
Proof. eexists. repeat split; vm_compute; reflexivity. Qed.

(** C8 on two candidates of the acme.com scenario: the generic address,
    whose verification is skipped, and the scraped address with the name,
    which is verified and stored. *)
Lemma sleep_follows_attempted_verification_only_witness :
  snd (assess_candidate (env_of selective_session) acme "jane" "smith"
         "acme.com" ["j.smith@acme.com"; "jane.smith@acme.com"]
         ["info@acme.com"; "j.smith@acme.com"] no_records "info@acme.com" w0)
  = w0
  /\ exists d,
      List.last (trace (snd (assess_candidate (env_of selective_session) acme
                          "jane" "smith" "acme.com"
                          ["j.smith@acme.com"; "jane.smith@acme.com"]
                          ["info@acme.com"; "j.smith@acme.com"] no_records
                          "j.smith@acme.com" w0))) SmtpQuit
      = Sleep d
      /\ (1 # 10 <= d)%Q /\ (d <= 1 # 2)%Q.
Proof.
  split.
  - exact (proj1 (sleep_follows_attempted_verification_only
                (env_of selective_session) acme "jane" "smith" "acme.com"
                ["j.smith@acme.com"; "jane.smith@acme.com"]
                ["info@acme.com"; "j.smith@acme.com"] no_records
                "info@acme.com" "info" "acme.com"
                {| is_pattern := false; is_scraped := true;
                   generic := true; matches_primary_domain := true;
                   name_in_local := false |} w0
                eq_refl ltac:(concrete_parts) ltac:(concrete_provenance)
                eq_refl) eq_refl).
  - destruct (proj2 (sleep_follows_attempted_verification_only
                (env_of selective_session) acme "jane" "smith" "acme.com"
                ["j.smith@acme.com"; "jane.smith@acme.com"]
                ["info@acme.com"; "j.smith@acme.com"] no_records
                "j.smith@acme.com" "j.smith" "acme.com"
                {| is_pattern := true; is_scraped := true;
                   generic := false; matches_primary_domain := true;
                   name_in_local := true |} w0
                eq_refl ltac:(concrete_parts) ltac:(concrete_provenance)
                eq_refl) eq_refl _ ltac:(vm_compute; reflexivity))
      as [Htrace Hrange].
    eexists. split.
    + rewrite Htrace. apply List.last_last.
    + apply Hrange. vm_compute. discriminate.
Defined.

(** C3 and C5 on the acme.com scenario. *)
Lemma find_email_ranks_and_selects_witness :
  exists res w',
    find_email (env_of selective_session) acme
               "Jane" "Smith" "acme.com" "https://acme.com" w0
    = (Ok res, w')
    /\ StronglySorted ranks_no_lower (found_emails res)
    /\ most_likely_email res = Some "j.smith@acme.com".
Proof.
  eexists _, _. split; [vm_compute; reflexivity|].
  split; [|reflexivity].
  destruct (find_email_ranks_and_selects
              (env_of selective_session) acme
              "Jane" "Smith" "acme.com" "https://acme.com" _ w0 _
              ltac:(vm_compute; reflexivity))
    as (acc & _ & _ & _ & Hsorted & _).
  exact Hsorted.
Defined.

Lemma find_email_invariants_witness :
  exists res w',
    find_email (env_of selective_session) acme
               "Jane" "Smith" "acme.com" "https://acme.com" w0
    = (Ok res, w')
    /\ Forall (fun r => 0 <= confidence r <= 10) (found_emails res)
    /\ exists r, In r (found_emails res) /\ email r = "j.smith@acme.com".
Proof.
  eexists _, _. split; [vm_compute; reflexivity|].
  destruct (find_email_invariants
              (env_of selective_session) acme
              "Jane" "Smith" "acme.com" "https://acme.com" _ w0 _
              ltac:(vm_compute; reflexivity))
    as (_ & Hrange & Hselected).
  split; [exact Hrange|]. apply Hselected. reflexivity.
Defined.

End Examples.

(* ===================================================================== *)
(** ** dns_utils.py: what the resolution returns and what it raises *)
(* ===================================================================== *)

Section DnsOutcomes.
Import Exceptions DnsUtils DnsSpec.

Lemma dns_error_of_class (domain : string) (e : exn) :
  dns_error_of domain e ->
  isinstance e "DnsError" = true
  /\ isinstance e "EmailSleuthError" = true
  /\ (exn_code e = 404 \/ exn_code e = 503 \/ exn_code e = 504).
Proof.
  intros [->|[->|[->|[text ->]]]]; repeat split; try reflexivity;
    cbn; auto.
Qed.

Lemma query_with_timeout_raises (r : resolver) (query_type domain : string)
      (e : exn) :
  _query_with_timeout r query_type domain = Raise e ->
  dns_error_of domain e.
Proof.
  unfold _query_with_timeout, dns_error_of.
  destruct (r query_type domain) as [records|e0]; [discriminate|].
  cbn -[isinstance_any].
  destruct (isinstance_any e0 ["asyncio.TimeoutError"]).
  { intros [= <-]. auto. }
  destruct (isinstance_any e0 ["aiodns.error.DNSError"]).
  { destruct ((exn_code e0 =? ARES_ENOTFOUND)
              || contains "NXDOMAIN" (exn_message e0)).
    { intros [= <-]. auto. }
    destruct (exn_code e0 =? ARES_ENODATA). { intros [= <-]. auto. }
    destruct (exn_code e0 =? ARES_ETIMEOUT). { intros [= <-]. auto. }
    intros [= <-]. right; right; right. eauto. }
  unfold isinstance_any. cbn [existsb]. rewrite isinstance_Exception. cbn.
  intros [= <-]. right; right; right. eauto.
Qed.

Lemma query_with_timeout_ok (r : resolver) (query_type domain : string)
      (records : list dns_record) :
  _query_with_timeout r query_type domain = Ok records <->
  r query_type domain = Ok records.
Proof.
  unfold _query_with_timeout.
  destruct (r query_type domain) as [records0|e0]; [reflexivity|].
  split; [|discriminate].
  intros H. exfalso. revert H.
  cbn -[isinstance_any].
  destruct (isinstance_any e0 ["asyncio.TimeoutError"]); [discriminate|].
  destruct (isinstance_any e0 ["aiodns.error.DNSError"]).
  { destruct ((exn_code e0 =? ARES_ENOTFOUND)
              || contains "NXDOMAIN" (exn_message e0)); [discriminate|].
    destruct (exn_code e0 =? ARES_ENODATA); [discriminate|].
    destruct (exn_code e0 =? ARES_ETIMEOUT); discriminate. }
  unfold isinstance_any. cbn [existsb]. rewrite isinstance_Exception. cbn.
  discriminate.
Qed.

(** The fallback: the first address record with preference 65535, or
    one of the DNS errors. *)
Lemma resolve_a_record_fallback_cases (r : resolver) (domain : string) :
  (exists a others,
      r "A" domain = Ok (a :: others)
      /\ resolve_a_record_fallback r domain
         = Ok {| exchange := host a; preference := 65535 |})
  \/ (exists e, resolve_a_record_fallback r domain = Raise e
                /\ dns_error_of domain e).
Proof.
  unfold resolve_a_record_fallback.
  destruct (_query_with_timeout r "A" domain) as [records|e] eqn:Hq.
  - apply (proj1 (query_with_timeout_ok _ _ _ _)) in Hq.
    destruct records as [|a others].
    + right. exists (NoDnsRecordsError domain). split; [reflexivity|].
      unfold dns_error_of. auto.
    + left. exists a, others. split; [exact Hq|reflexivity].
  - right. pose proof (query_with_timeout_raises _ _ _ _ Hq) as Hd.
    exists e. split; [|exact Hd].
    destruct Hd as [->|[->|[->|[text ->]]]]; reflexivity.
Qed.

(** In a stable sort the first of the records with the lowest preference
    comes first. *)
Lemma hd_sort_by_priority (before : list dns_record) (best : dns_record)
      (others : list dns_record) (d : dns_record) :
  Forall (fun x => priority best < priority x) before ->
  Forall (fun x => priority best <= priority x) others ->
  hd d (sort_by by_priority (before ++ best :: others)) = best.
Proof.
  intros Hb Ho.
  assert (Hbase : forall d', hd d' (sort_by by_priority (best :: others))
                             = best).
  { intros d'. clear Hb. revert Ho.
    generalize (sort_by_perm by_priority others).
    cbn [sort_by fold_right]. fold (sort_by by_priority others).
    generalize (sort_by by_priority others) as sorted.
    intros sorted Hperm Ho.
    assert (Hs : Forall (fun x => priority best <= priority x) sorted).
    { rewrite List.Forall_forall in *. intros x Hx. apply Ho.
      apply (Permutation_in x (Permutation_sym Hperm) Hx). }
    destruct sorted as [|y sorted]; [reflexivity|]. cbn.
    inversion Hs as [|? ? Hy _]; subst. unfold by_priority.
    destruct (priority y <? priority best) eqn:Hlt; [|reflexivity].
    apply Z.ltb_lt in Hlt. lia. }
  induction Hb as [|x before Hx Hb IH]; [apply Hbase|].
  cbn [app sort_by fold_right].
  fold (sort_by by_priority (before ++ best :: others)).
  specialize IH.
  destruct (sort_by by_priority (before ++ best :: others)) as [|y sorted]
    eqn:Hs.
  - pose proof (sort_by_perm by_priority (before ++ best :: others)) as Hp.
    rewrite Hs in Hp. apply Permutation_sym, Permutation_nil in Hp.
    destruct before; discriminate.
  - cbn in IH. subst y. cbn. unfold by_priority.
    destruct (priority best <? priority x) eqn:Hlt; [reflexivity|].
    apply Z.ltb_ge in Hlt. lia.
Qed.

(** Stripping leaves no trailing separator. *)
Lemma rstrip_no_trailing (s : string) (c : ascii) :
  endswith (rstrip s c) (String c EmptyString) = false.
Proof.
  induction s as [|a s IH]; [reflexivity|].
  cbn [rstrip]. destruct (rstrip s c) as [|b r] eqn:Hr.
  - destruct (Ascii.eqb a c) eqn:Hac; [reflexivity|].
    cbn. rewrite Hac. reflexivity.
  - change (endswith (String a (String b r)) (String c EmptyString))
      with (String.eqb (String a (String b r)) (String c EmptyString)
            || endswith (String b r) (String c EmptyString)).
    rewrite IH, orb_false_r. cbn. destruct (Ascii.eqb a c); reflexivity.
Qed.

(** [resolve_mail_server] raises nothing but the DNS errors of
    exceptions.py: whatever exception the resolver library raises comes
    out as a [DnsError] or one of its subclasses, with the HTTP status
    404, 503 or 504. *)
Theorem resolve_mail_server_raises_only_dns_errors
        (r : resolver) (domain : string) (e : exn) :
  resolve_mail_server r domain = Raise e ->
  isinstance e "DnsError" = true
  /\ isinstance e "EmailSleuthError" = true
  /\ (exn_code e = 404 \/ exn_code e = 503 \/ exn_code e = 504).
Proof.
  intros H.
  cut (dns_error_of domain e
       \/ e = NoDnsRecordsError ("Empty exchange in MX record for "
                                 +:+ domain)).
  { intros [Hd| ->]; [exact (dns_error_of_class _ _ Hd)|].
    repeat split; cbn; auto. }
  revert H. unfold resolve_mail_server.
  destruct (resolve_a_record_fallback_cases r domain)
    as [(a & others & _ & Hfb)|(e1 & Hfb & Hd1)].
  - destruct (_query_with_timeout r "MX" domain) as [records|e0] eqn:Hq.
    + destruct records as [|first rest]; [rewrite Hfb; discriminate|].
      cbn -[sort_by rstrip resolve_a_record_fallback].
      destruct (nonempty _); cbn -[resolve_a_record_fallback];
        [discriminate|].
      rewrite Hfb. discriminate.
    + pose proof (query_with_timeout_raises _ _ _ _ Hq) as Hd.
      destruct Hd as [->|[->|[->|[text ->]]]];
        cbn -[resolve_a_record_fallback]; try rewrite Hfb;
        intros [= <-] || discriminate; left; unfold dns_error_of; eauto.
  - destruct (_query_with_timeout r "MX" domain) as [records|e0] eqn:Hq.
    + destruct records as [|first rest].
      * rewrite Hfb.
        destruct Hd1 as [->|[->|[->|[text ->]]]];
          cbn -[resolve_a_record_fallback]; try rewrite Hfb;
          intros [= <-]; left; unfold dns_error_of; eauto.
      * cbn -[sort_by rstrip resolve_a_record_fallback].
        destruct (nonempty _); cbn -[resolve_a_record_fallback];
          [discriminate|].
        rewrite Hfb. intros [= <-]. left. exact Hd1.
    + pose proof (query_with_timeout_raises _ _ _ _ Hq) as Hd.
      destruct Hd as [->|[->|[->|[text ->]]]];
        cbn -[resolve_a_record_fallback]; try rewrite Hfb;
        intros [= <-]; left; unfold dns_error_of; eauto.
Qed.

(** Every answer has a first record of lowest preference. *)
Lemma first_lowest_priority (first : dns_record) (rest : list dns_record) :
  exists before best others,
    first :: rest = before ++ best :: others
    /\ Forall (fun x => priority best < priority x) before
    /\ Forall (fun x => priority best <= priority x) others.
Proof.
  revert first. induction rest as [|y rest IH]; intros first.
  - exists [], first, []. repeat split; constructor.
  - destruct (IH y) as (before & best & others & Heq & Hb & Ho).
    destruct (Z_le_gt_dec (priority first) (priority best)) as [Hle|Hgt].
    + exists [], first, (y :: rest). split; [reflexivity|].
      split; [constructor|]. rewrite Heq. apply Forall_app. split.
      * eapply Forall_impl; [exact Hb|]. cbn. intros; lia.
      * constructor; [exact Hle|].
        eapply Forall_impl; [exact Ho|]. cbn. intros; lia.
    + exists (first :: before), best, others. rewrite Heq.
      split; [reflexivity|]. split; [|exact Ho].
      constructor; [lia|exact Hb].
Qed.

(** A mail server that [resolve_mail_server] returns is either the
    exchange of the first MX record with the lowest preference value,
    without trailing dots and not empty, or, with preference 65535, the
    host of the first address record of the domain. *)
Theorem resolve_mail_server_returns_best_mx_or_address
        (r : resolver) (domain : string) (server : MailServer) :
  resolve_mail_server r domain = Ok server ->
  (exists before best others,
      r "MX" domain = Ok (before ++ best :: others)
      /\ Forall (fun x => priority best < priority x) before
      /\ Forall (fun x => priority best <= priority x) others
      /\ exchange server = rstrip (host best) "."
      /\ exchange server <> EmptyString
      /\ endswith (exchange server) "." = false
      /\ preference server = priority best)
  \/ (exists a others,
         r "A" domain = Ok (a :: others)
         /\ server = {| exchange := host a; preference := 65535 |}).
Proof.
  assert (Hfb : forall e_body,
             handle module_globals
               [(["NoDnsRecordsError"],
                 fun _ : exn => resolve_a_record_fallback r domain);
                (["NxDomainError"; "DnsTimeoutError"; "DnsError"],
                 fun e : exn => Raise e)] e_body = Ok server ->
             resolve_a_record_fallback r domain = Ok server).
  { intros e_body. cbn -[resolve_a_record_fallback isinstance_any].
    destruct (isinstance_any e_body ["NoDnsRecordsError"]); [auto|].
    destruct (isinstance_any e_body _); discriminate. }
  assert (Hok : resolve_a_record_fallback r domain = Ok server ->
                exists a others,
                  r "A" domain = Ok (a :: others)
                  /\ server = {| exchange := host a; preference := 65535 |}).
  { destruct (resolve_a_record_fallback_cases r domain)
      as [(a & others & Ha & ->)|(e & -> & _)]; [|discriminate].
    intros [= <-]. eauto. }
  unfold resolve_mail_server.
  destruct (_query_with_timeout r "MX" domain) as [records|e0] eqn:Hq.
  - apply (proj1 (query_with_timeout_ok _ _ _ _)) in Hq.
    destruct records as [|first rest].
    { intros H. right. apply Hok.
      destruct (resolve_a_record_fallback r domain) as [s|e] eqn:Hr;
        [exact H|]. exact (Hfb e H). }
    destruct (first_lowest_priority first rest)
      as (before & best & others & Heq & Hb & Ho).
    cbn -[sort_by rstrip handle].
    rewrite Heq, (hd_sort_by_priority before best others first Hb Ho).
    destruct (nonempty (rstrip (host best) ".")) eqn:Hne;
      cbn -[rstrip handle].
    + intros [= <-]. left. exists before, best, others. cbn -[rstrip].
      rewrite <- Heq. repeat split; try assumption.
      * now apply nonempty_true.
      * apply rstrip_no_trailing.
    + intros H. right. apply Hok. exact (Hfb _ H).
  - intros H. right. apply Hok. exact (Hfb _ H).
Qed.

Lemma resolve_mail_server_raises_only_dns_errors_witness :
  resolve_mail_server Scenarios.nxdomain_resolver "nxdomain.test"
  = Raise (NxDomainError "nxdomain.test")
  /\ isinstance (NxDomainError "nxdomain.test") "DnsError" = true
  /\ isinstance (NxDomainError "nxdomain.test") "EmailSleuthError" = true
  /\ (exn_code (NxDomainError "nxdomain.test") = 404
      \/ exn_code (NxDomainError "nxdomain.test") = 503
      \/ exn_code (NxDomainError "nxdomain.test") = 504).
Proof.
  split; [reflexivity|].
  exact (resolve_mail_server_raises_only_dns_errors
           Scenarios.nxdomain_resolver "nxdomain.test" _ eq_refl).
Defined.

Lemma resolve_mail_server_returns_best_mx_or_address_witness :
  resolve_mail_server Scenarios.example_resolver "example.com"
  = Ok Scenarios.mx
  /\ ((exists before best others,
          Scenarios.example_resolver "MX" "example.com"
          = Ok (before ++ best :: others)
          /\ Forall (fun x => priority best < priority x) before
          /\ Forall (fun x => priority best <= priority x) others
          /\ exchange Scenarios.mx = rstrip (host best) "."
          /\ exchange Scenarios.mx <> EmptyString
          /\ endswith (exchange Scenarios.mx) "." = false
          /\ preference Scenarios.mx = priority best)
      \/ (exists a others,
             Scenarios.example_resolver "A" "example.com" = Ok (a :: others)
             /\ Scenarios.mx
                = {| exchange := host a; preference := 65535 |})).
Proof.
  split; [reflexivity|].
  exact (resolve_mail_server_returns_best_mx_or_address
           Scenarios.example_resolver "example.com" Scenarios.mx eq_refl).
Defined.

End DnsOutcomes.

(* ===================================================================== *)
(** ** smtp_utils.py: what an attempt sends, and how often it is retried *)
(* ===================================================================== *)

Section Retries.
Import Exceptions DnsUtils Config SmtpUtils SmtpSpec SmtpTrace.

Lemma count_app (p : event -> bool) (t1 t2 : list event) :
  count p (t1 ++ t2) = (count p t1 + count p t2)%nat.
Proof. unfold count. now rewrite List.filter_app, length_app. Qed.

(** An attempt opens one connection and sends a prefix of the dialog
    [CONNECT, EHLO, MAIL FROM, RCPT TO candidate, RCPT TO sample], in this
    order, followed by [QUIT] when the client is still connected; the
    random source is read for the sample only. *)
Theorem attempt_sends_a_prefix_of_the_dialog
        (E : env) (V : SmtpVerifier) (email domain : string)
        (mail_server : MailServer) (w : world) :
  let S := smtp_server E (connections w) in
  let probe := probe_address E domain w in
  let w' := snd (_verify_single_attempt E V email domain mail_server w) in
  exists n : nat,
    (1 <= n <= 5)%nat
    /\ trace w' = trace w ++ firstn n (script V mail_server email probe)
                          ++ closing S
    /\ connections w' = Datatypes.S (connections w)
    /\ rng_pos w' = (if (n =? 5)%nat then 12 + rng_pos w else rng_pos w)%nat.
Proof.
  intros S probe w'. subst w'.
  rewrite (verify_single_attempt_eq _ _ _ _ _ _). cbn [snd]. fold S.
  pose proof (dialog_cases E V S email domain mail_server (opened w)) as Hd.
  change (probe_address E domain (opened w)) with probe in Hd.
  destruct (dialog E V S email domain mail_server (opened w)) as [rd wd].
  cbn [fst snd] in Hd |- *. unfold script, opening in *.
  inversion Hd; subst; cbn [after trace opened connections rng_pos].
  1: exists 1%nat.
  2: exists 2%nat.
  3, 4: exists 3%nat.
  5, 6: exists 4%nat.
  7: exists 5%nat.
  all: cbn [firstn app Nat.eqb]; rewrite <- ?app_assoc;
    repeat split; try lia; reflexivity.
Qed.



(** An iteration of the retry loop never raises: what the attempt
    raises is turned into a message. *)
Lemma attempt_step_ok (E : env) (V : SmtpVerifier) (email domain : string)
      (mail_server : MailServer) (st : verdict) (w : world) :
  exists st' stop,
    attempt_step E V email domain mail_server st w
    = (Ok (st', stop),
       snd (_verify_single_attempt E V email domain mail_server w)).
Proof.
  unfold attempt_step. destruct st as [[last_result last_message] was].
  unfold try_exceptM, bind at 1.
  destruct (_verify_single_attempt E V email domain mail_server w)
    as [[r|e] w1]; cbn [snd].
  - destruct (exists_ r); [cbn; eauto|].
    destruct (should_retry r); cbn; eauto.
  - cbn. rewrite isinstance_Exception. cbn.
    destruct (isinstance e "SmtpError"); cbn; eauto.
Qed.

Lemma sleep_between_trace (E : env) (range : Q * Q) (w : world) :
  exists w' d,
    sleep_between E range w = (Ok tt, w')
    /\ trace w' = trace w ++ [Sleep d]
    /\ connections w' = connections w.
Proof.
  rewrite sleep_between_eq. eexists _, _. split; [reflexivity|].
  cbn. split; reflexivity.
Qed.




(** The verifier raises exactly when the DNS resolution of the domain
    fails, and then it raises before anything is sent; no failure of the
    SMTP dialog reaches the caller as an exception. *)
Theorem verifier_raises_exactly_when_dns_fails
        (E : env) (V : SmtpVerifier) (email : string) (w : world) :
  match resolve_mail_server (dns_resolver V) (split_last email "@") with
  | Ok _ =>
      exists v w', verify_email_with_retries E V email w = (Ok v, w')
  | Raise _ =>
      verify_email_with_retries E V email w = (Raise (NameError "DnsError"), w)
  end.
Proof.
  destruct (resolve_mail_server (dns_resolver V) (split_last email "@"))
    as [mail_server|e] eqn:Hdns.
  2:{ exact (verify_email_dns_failure E V email e w Hdns). }
  unfold verify_email_with_retries, bind.
  unfold _get_mail_server, try_exceptM, bind at 1, lift. rewrite Hdns.
  cbn [ret].
  generalize (Z.to_nat (max_verification_attempts (SmtpUtils.settings V))).
  generalize 0. generalize (None : option bool, "SMTP check did not run or complete", false).
  intros st attempt remaining. revert st attempt w.
  induction remaining as [|n IH]; intros st attempt w; [cbn; eauto|].
  cbn [attempts_loop]. unfold bind at 1.
  destruct (attempt_step_ok E V email (split_last email "@") mail_server st w)
    as (st' & stop & ->).
  destruct stop; [cbn; eauto|].
  destruct st' as [[last_result last_message] was].
  destruct (_ && _).
  - unfold bind at 1.
    destruct (sleep_between_ok E
                (sleep_between_requests (SmtpUtils.settings V))
                (snd (_verify_single_attempt E V email (split_last email "@")
                        mail_server w))) as [w2 ->].
    apply IH.
  - unfold bind at 1, ret at 1. apply IH.
Qed.


(** What the [except] clauses and the interpretation of an accepted
    candidate return is never a rejection. *)
Lemma attempt_never_rejects (E : env) (V : SmtpVerifier) (email domain : string)
      (mail_server : MailServer) (w : world)
      (r : SmtpVerificationResultInternal) :
  fst (_verify_single_attempt E V email domain mail_server w) = Ok r ->
  exists_ r <> Some false.
Proof.
  destruct (attempt_summary E V email domain mail_server w)
    as (sent & _ & [(_ & tc & tm & _ & _ & Hout)|[_ Hno]]).
  - cbn zeta in Hout. rewrite Hout. intros [= <-].
    unfold acceptance. now destruct (sample_accepted _ _).
  - intros Hr. destruct (Hno r Hr) as [Hnone _]. congruence.
Qed.

(** The verdict of the retry loop is its initial state or the result of
    one of its attempts. *)
Lemma attempts_loop_status (E : env) (V : SmtpVerifier)
      (email domain : string) (mail_server : MailServer) (remaining : nat) :
  forall (attempt : Z) (st : verdict) (w w' : world)
         (status : option bool) (msg : string) (ca : bool),
    attempts_loop E V email domain mail_server remaining attempt st w
    = (Ok (status, msg, ca), w') ->
    fst (fst st) <> Some false ->
    status <> Some false.
Proof.
  induction remaining as [|n IH]; intros attempt st w w' status msg ca.
  - cbn. intros [= -> _]. now cbn.
  - cbn [attempts_loop]. unfold bind at 1, attempt_step.
    destruct st as [[lr lm] wc]. unfold try_exceptM, bind at 1.
    pose proof (attempt_never_rejects E V email domain mail_server w) as Hnever.
    destruct (_verify_single_attempt E V email domain mail_server w)
      as [[r|e] w1] eqn:Hattempt.
    + specialize (Hnever r eq_refl).
      destruct (exists_ r) as [b|] eqn:Hex.
      * cbn. intros [= <- _ _] _. exact Hnever.
      * destruct (should_retry r); cbn [negb ret].
        -- destruct ((attempt <? max_verification_attempts (SmtpUtils.settings V) - 1) && true).
           ++ unfold bind at 1.
              destruct (sleep_between_ok E
                          (sleep_between_requests (SmtpUtils.settings V)) w1)
                as [w2 Hs].
              rewrite Hs. intros Hloop _.
              apply (IH _ _ _ _ _ _ _ Hloop). now cbn.
           ++ unfold bind at 1, ret at 1. intros Hloop _.
              apply (IH _ _ _ _ _ _ _ Hloop). now cbn.
        -- intros [= <- _ _] _. discriminate.
    + cbn. rewrite isinstance_Exception. cbn. cbn [fst] in *.
      destruct (isinstance e "SmtpError"); cbn;
        intros [= <- _ _] Hlast; exact Hlast.
Qed.

Section RetriedAttempts.
Variables (E : env) (V : SmtpVerifier) (email domain : string)
          (mail_server : MailServer) (text : string) (recipients : nat).

(** Every attempt ends alike: a retriable inconclusive result after one
    connection and [recipients] recipients. *)
Hypothesis every_attempt :
  forall w, exists w1 sent,
    _verify_single_attempt E V email domain mail_server w
    = (Ok (inconclusive_retry text false), w1)
    /\ trace w1 = trace w ++ sent
    /\ count is_connect sent = 1%nat
    /\ count is_rcpt sent = recipients
    /\ count is_sleep sent = 0%nat
    /\ connections w1 = Datatypes.S (connections w).

Lemma retried_loop (remaining : nat) :
  forall (attempt : Z) (st : verdict) (w : world),
    attempt + Z.of_nat (Datatypes.S remaining)
    = max_verification_attempts (SmtpUtils.settings V) ->
    exists w' sent,
      attempts_loop E V email domain mail_server (Datatypes.S remaining)
                    attempt st w
      = (Ok (None, text, false), w')
      /\ trace w' = trace w ++ sent
      /\ count is_connect sent = Datatypes.S remaining
      /\ count is_rcpt sent = (Datatypes.S remaining * recipients)%nat
      /\ count is_sleep sent = remaining
      /\ connections w' = (connections w + Datatypes.S remaining)%nat.
Proof.
  induction remaining as [|n IH]; intros attempt st w Hinv.
  - destruct (every_attempt w) as (w1 & sent & Hrun & Ht & Hc & Hr & Hs & Hn).
    exists w1, sent. cbn [attempts_loop].
    unfold bind at 1, attempt_step. destruct st as [[lr lm] wc].
    unfold try_exceptM, bind at 1. rewrite Hrun. cbn [exists_ should_retry
      inconclusive_retry negb ret message is_catch_all].
    replace (attempt <? max_verification_attempts (SmtpUtils.settings V) - 1)
      with false by (symmetry; apply Z.ltb_ge; lia).
    cbn. repeat split; try assumption; lia.
  - destruct (every_attempt w)
      as (w1 & sent1 & Hrun & Ht1 & Hc1 & Hr1 & Hs1 & Hn1).
    cbn [attempts_loop].
    unfold bind at 1, attempt_step. destruct st as [[lr lm] wc].
    unfold try_exceptM, bind at 1. rewrite Hrun. cbn [exists_ should_retry
      inconclusive_retry negb ret message is_catch_all].
    replace (attempt <? max_verification_attempts (SmtpUtils.settings V) - 1)
      with true by (symmetry; apply Z.ltb_lt; lia).
    cbn [andb]. unfold bind at 1.
    destruct (sleep_between_trace E
                (sleep_between_requests (SmtpUtils.settings V)) w1)
      as (w2 & d & -> & Ht2 & Hn2).
    destruct (IH (attempt + 1) (None, text, false) w2)
      as (w' & sent & Hloop & Ht & Hc & Hr & Hs & Hn); [lia|].
    exists w', (sent1 ++ [Sleep d] ++ sent).
    split; [exact Hloop|].
    rewrite Ht, Ht2, Ht1, <- !app_assoc. split; [reflexivity|].
    rewrite !count_app.
    cbn [count List.filter is_connect is_rcpt is_sleep length].
    repeat split; lia.
Qed.

End RetriedAttempts.

Section Refusals.
Variables (E : env) (V : SmtpVerifier) (email domain : string)
          (mail_server : MailServer) (S0 : smtp_session).
Hypothesis same_server : forall n, smtp_server E n = S0.
Hypothesis connects : on_connect S0 = Ok tt.
Hypothesis greets : on_ehlo S0 = Ok tt.

Lemma every_attempt_refused_sender (code : Z) (msg : string) :
  mail_reply S0 (smtp_sender_email (SmtpUtils.settings V)) = Ok (code, msg) ->
  code <> 250 ->
  exists text,
    refusal code msg = inconclusive_retry text false
    /\ forall w, exists w1 sent,
        _verify_single_attempt E V email domain mail_server w
        = (Ok (inconclusive_retry text false), w1)
        /\ trace w1 = trace w ++ sent
        /\ count is_connect sent = 1%nat
        /\ count is_rcpt sent = 0%nat
        /\ count is_sleep sent = 0%nat
        /\ connections w1 = Datatypes.S (connections w).
Proof.
  intros Hm Hne.
  assert (Htext : exists text, refusal code msg = inconclusive_retry text false).
  { unfold refusal. destruct (_ && _); [eauto|]. destruct (500 <=? code); eauto. }
  destruct Htext as [text Htext]. exists text. split; [exact Htext|].
  intros w.
  destruct (refused_attempt E V email domain mail_server w) as [Hs _];
    rewrite ?same_server; auto.
  rewrite same_server in Hs. rewrite (Hs code msg Hm Hne), Htext.
  eexists _, _. split; [reflexivity|].
  cbn [after trace opened connections]. split; [reflexivity|].
  rewrite !count_app. unfold opening, closing.
  destruct (connected_at_close S0); cbn; auto.
Qed.

Lemma every_attempt_refused_candidate (msg : string) (target_code : Z)
      (target_msg : string) :
  mail_reply S0 (smtp_sender_email (SmtpUtils.settings V)) = Ok (250, msg) ->
  rcpt_reply S0 0 email = Ok (target_code, target_msg) ->
  target_code <> 250 -> target_code <> 251 ->
  exists text,
    refusal target_code target_msg = inconclusive_retry text false
    /\ forall w, exists w1 sent,
        _verify_single_attempt E V email domain mail_server w
        = (Ok (inconclusive_retry text false), w1)
        /\ trace w1 = trace w ++ sent
        /\ count is_connect sent = 1%nat
        /\ count is_rcpt sent = 1%nat
        /\ count is_sleep sent = 0%nat
        /\ connections w1 = Datatypes.S (connections w).
Proof.
  intros Hm Hr Hne Hne'.
  assert (Htext : exists text,
             refusal target_code target_msg = inconclusive_retry text false).
  { unfold refusal. destruct (_ && _); [eauto|].
    destruct (500 <=? target_code); eauto. }
  destruct Htext as [text Htext]. exists text. split; [exact Htext|].
  intros w.
  destruct (refused_attempt E V email domain mail_server w) as [_ Hc];
    rewrite ?same_server; auto.
  rewrite same_server in Hc.
  rewrite (Hc msg target_code target_msg Hm Hr Hne Hne'), Htext.
  eexists _, _. split; [reflexivity|].
  cbn [after trace opened connections]. split; [reflexivity|].
  rewrite !count_app. unfold opening, closing.
  destruct (connected_at_close S0); cbn; auto.
Qed.

End Refusals.

(** The verifier never reports an address as rejected: no verdict of
    [verify_email_with_retries] has the status [False]. A server that
    replies to the [RCPT TO] of the candidate with a code of 500 or more
    does not make the address rejected either: the library raises the
    reply, every attempt is a retriable inconclusive result, and against
    a server that answers every connection alike the verdict is
    inconclusive with the message "SMTP Perm Failure? (5xx)" and the
    reply, after [max_verification_attempts] connections. *)
Theorem refused_recipient_is_never_rejected
        (E : env) (V : SmtpVerifier) (email : string) (w : world) :
  (forall (w' : world) (status : option bool) (msg : string) (ca : bool),
      verify_email_with_retries E V email w = (Ok (status, msg, ca), w') ->
      status <> Some false)
  /\ (forall (mail_server : MailServer) (S0 : smtp_session)
             (msg : string) (target_code : Z) (target_msg : string),
      (forall n, smtp_server E n = S0) ->
      resolve_mail_server (dns_resolver V) (split_last email "@")
      = Ok mail_server ->
      1 <= max_verification_attempts (SmtpUtils.settings V) ->
      on_connect S0 = Ok tt ->
      on_ehlo S0 = Ok tt ->
      mail_reply S0 (smtp_sender_email (SmtpUtils.settings V))
      = Ok (250, msg) ->
      rcpt_reply S0 0 email = Ok (target_code, target_msg) ->
      500 <= target_code ->
      let attempts :=
        Z.to_nat (max_verification_attempts (SmtpUtils.settings V)) in
      exists w' sent,
        verify_email_with_retries E V email w
        = (Ok (None,
               "SMTP Perm Failure? (5xx): " +:+ str_of_int target_code
               +:+ " " +:+ target_msg, false), w')
        /\ trace w' = trace w ++ sent
        /\ count is_connect sent = attempts
        /\ count is_rcpt sent = attempts
        /\ connections w' = (connections w + attempts)%nat).
Proof.
  split.
  - intros w' status msg ca. unfold verify_email_with_retries, bind.
    destruct (get_mail_server_cases V (split_last email "@") w)
      as [[mail_server ->]|[e ->]]; [|inversion 1].
    intros Hloop. apply (attempts_loop_status _ _ _ _ _ _ _ _ _ _ _ _ _ Hloop).
    discriminate.
  - intros mail_server S0 msg tc tm Hsame Hdns Hmax Hc He Hm Hr Htc attempts.
    destruct (every_attempt_refused_candidate E V email (split_last email "@")
                mail_server S0 Hsame Hc He msg tc tm Hm Hr)
      as (text & Htext & Hevery); [lia|lia|].
    assert (text = "SMTP Perm Failure? (5xx): " +:+ str_of_int tc
                   +:+ " " +:+ tm) as ->.
    { unfold refusal in Htext.
      replace ((400 <=? tc) && (tc <? 500)) with false in Htext
        by (symmetry; apply andb_false_iff; right; apply Z.ltb_ge; lia).
      replace (500 <=? tc) with true in Htext
        by (symmetry; apply Z.leb_le; lia).
      now injection Htext. }
    unfold verify_email_with_retries, bind.
    unfold _get_mail_server, try_exceptM, bind at 1, lift. rewrite Hdns.
    cbn [ret]. fold attempts.
    destruct attempts as [|n] eqn:Hn; [subst attempts; lia|].
    destruct (retried_loop E V email (split_last email "@") mail_server _ 1
                Hevery n 0 (None, "SMTP check did not run or complete", false)
                w) as (w' & sent & Hloop & Ht & Hcn & Hrc & Hsl & Hconn);
      [subst attempts; lia|].
    exists w', sent. split; [exact Hloop|].
    split; [exact Ht|]. split; [exact Hcn|]. split; [lia|exact Hconn].
Qed.

(** A candidate that the server defers with a 4xx reply is tried again
    until the attempts run out: against a server that answers every
    connection alike, the verifier opens exactly
    [max_verification_attempts] connections, sleeps between two attempts
    and not after the last, and returns an inconclusive verdict with the
    last reply. *)
Theorem deferred_recipient_is_retried_until_attempts_run_out
        (E : env) (V : SmtpVerifier) (email : string)
        (mail_server : MailServer) (S0 : smtp_session)
        (target_code : Z) (msg target_msg : string) (w : world) :
  (forall n, smtp_server E n = S0) ->
  resolve_mail_server (dns_resolver V) (split_last email "@")
  = Ok mail_server ->
  1 <= max_verification_attempts (SmtpUtils.settings V) ->
  on_connect S0 = Ok tt ->
  on_ehlo S0 = Ok tt ->
  mail_reply S0 (smtp_sender_email (SmtpUtils.settings V)) = Ok (250, msg) ->
  rcpt_reply S0 0 email = Ok (target_code, target_msg) ->
  400 <= target_code < 500 ->
  let attempts := Z.to_nat (max_verification_attempts (SmtpUtils.settings V)) in
  exists w' sent,
    verify_email_with_retries E V email w
    = (Ok (None, deferral target_code target_msg, false), w')
    /\ trace w' = trace w ++ sent
    /\ count is_connect sent = attempts
    /\ count is_sleep sent = (attempts - 1)%nat
    /\ connections w' = (connections w + attempts)%nat.
Proof.
  intros Hsame Hdns Hmax Hc He Hm Hr Htc attempts.
  destruct (every_attempt_refused_candidate E V email (split_last email "@")
              mail_server S0 Hsame Hc He msg target_code target_msg Hm Hr)
    as (text & Htext & Hevery); [lia|lia|].
  assert (text = deferral target_code target_msg) as ->.
  { unfold refusal in Htext.
    replace ((400 <=? target_code) && (target_code <? 500)) with true in Htext
      by (symmetry; apply andb_true_iff; split;
          [apply Z.leb_le|apply Z.ltb_lt]; lia).
    now injection Htext. }
  unfold verify_email_with_retries, bind.
  unfold _get_mail_server, try_exceptM, bind at 1, lift. rewrite Hdns.
  cbn [ret]. fold attempts.
  destruct attempts as [|n] eqn:Hn; [subst attempts; lia|].
  destruct (retried_loop E V email (split_last email "@") mail_server _ 1
              Hevery n 0 (None, "SMTP check did not run or complete", false)
              w) as (w' & sent & Hloop & Ht & Hcn & Hrc & Hsl & Hconn);
    [subst attempts; lia|].
  exists w', sent. split; [exact Hloop|].
  split; [exact Ht|]. split; [exact Hcn|].
  split; [rewrite Hsl; lia|exact Hconn].
Qed.

(** A sender that the server refuses does not end the verification: the
    library raises every reply to [MAIL FROM] but [250], the attempt is a
    retriable inconclusive result whatever the code and the text of the
    reply, no [RCPT TO] is sent, and against a server that answers every
    connection alike the verifier opens [max_verification_attempts]
    connections before it returns the inconclusive verdict. *)
Theorem refused_sender_is_retried_until_attempts_run_out
        (E : env) (V : SmtpVerifier) (email : string)
        (mail_server : MailServer) (S0 : smtp_session)
        (code : Z) (msg : string) (w : world) :
  (forall n, smtp_server E n = S0) ->
  resolve_mail_server (dns_resolver V) (split_last email "@")
  = Ok mail_server ->
  1 <= max_verification_attempts (SmtpUtils.settings V) ->
  on_connect S0 = Ok tt ->
  on_ehlo S0 = Ok tt ->
  mail_reply S0 (smtp_sender_email (SmtpUtils.settings V)) = Ok (code, msg) ->
  code <> 250 ->
  let attempts := Z.to_nat (max_verification_attempts (SmtpUtils.settings V)) in
  exists w' sent,
    verify_email_with_retries E V email w
    = (Ok (None, message (refusal code msg), false), w')
    /\ should_retry (refusal code msg) = true
    /\ trace w' = trace w ++ sent
    /\ count is_connect sent = attempts
    /\ count is_rcpt sent = 0%nat
    /\ count is_sleep sent = (attempts - 1)%nat
    /\ connections w' = (connections w + attempts)%nat.
Proof.
  intros Hsame Hdns Hmax Hc He Hm Hne attempts.
  destruct (every_attempt_refused_sender E V email (split_last email "@")
              mail_server S0 Hsame Hc He code msg Hm Hne)
    as (text & Htext & Hevery).
  rewrite Htext. cbn [message should_retry inconclusive_retry].
  unfold verify_email_with_retries, bind.
  unfold _get_mail_server, try_exceptM, bind at 1, lift. rewrite Hdns.
  cbn [ret]. fold attempts.
  destruct attempts as [|n] eqn:Hn; [subst attempts; lia|].
  destruct (retried_loop E V email (split_last email "@") mail_server _ 0
              Hevery n 0 (None, "SMTP check did not run or complete", false)
              w) as (w' & sent & Hloop & Ht & Hcn & Hrc & Hsl & Hconn);
    [subst attempts; lia|].
  exists w', sent. split; [exact Hloop|]. split; [reflexivity|].
  split; [exact Ht|]. split; [exact Hcn|]. split; [lia|].
  split; [rewrite Hsl; lia|exact Hconn].
Qed.

Section RetryExamples.
Import Scenarios.

Lemma attempt_sends_a_prefix_of_the_dialog_witness :
  exists n : nat,
    (1 <= n <= 5)%nat
    /\ trace (snd (_verify_single_attempt (env_of selective_session)
                     (verifier example_resolver) "john.doe@example.com"
                     "example.com" mx w0))
       = trace w0
         ++ firstn n (script (verifier example_resolver) mx
                             "john.doe@example.com"
                             (probe_address (env_of selective_session)
                                            "example.com" w0))
         ++ closing (smtp_server (env_of selective_session)
                                 (connections w0))
    /\ connections (snd (_verify_single_attempt (env_of selective_session)
                           (verifier example_resolver)
                           "john.doe@example.com" "example.com" mx w0))
       = Datatypes.S (connections w0)
    /\ rng_pos (snd (_verify_single_attempt (env_of selective_session)
                       (verifier example_resolver) "john.doe@example.com"
                       "example.com" mx w0))
       = (if (n =? 5)%nat then 12 + rng_pos w0 else rng_pos w0)%nat.
Proof.
  exact (attempt_sends_a_prefix_of_the_dialog (env_of selective_session)
           (verifier example_resolver) "john.doe@example.com" "example.com"
           mx w0).
Defined.


Lemma refused_recipient_is_never_rejected_witness :
  exists w' sent,
    verify_email_with_retries (env_of rejecting_session)
      (verifier example_resolver) "john.doe@example.com" w0
    = (Ok (None, "SMTP Perm Failure? (5xx): 550 User unknown", false), w')
    /\ (None : option bool) <> Some false
    /\ trace w' = trace w0 ++ sent
    /\ count is_connect sent = 2%nat
    /\ count is_rcpt sent = 2%nat
    /\ connections w' = 2%nat.
Proof.
  destruct (proj2 (refused_recipient_is_never_rejected
                     (env_of rejecting_session) (verifier example_resolver)
                     "john.doe@example.com" w0)
                  mx rejecting_session "OK" 550 "User unknown")
    as (w' & sent & Hrun & Htrace & Hconnect & Hrcpt & Hconn);
    try reflexivity; try (cbn; lia).
  exists w', sent. split; [exact Hrun|]. split.
  - exact (proj1 (refused_recipient_is_never_rejected
                    (env_of rejecting_session) (verifier example_resolver)
                    "john.doe@example.com" w0) w' None _ false Hrun).
  - auto.
Defined.

Lemma deferred_recipient_is_retried_until_attempts_run_out_witness :
  exists w' sent,
    verify_email_with_retries (env_of greylisting_session)
      (verifier example_resolver) "john.doe@example.com" w0
    = (Ok (None, "SMTP Temp Failure (4xx): 450 Try again later", false), w')
    /\ trace w' = trace w0 ++ sent
    /\ count is_connect sent = 2%nat
    /\ count is_sleep sent = 1%nat
    /\ connections w' = 2%nat.
Proof.
  apply (deferred_recipient_is_retried_until_attempts_run_out
           (env_of greylisting_session) (verifier example_resolver)
           "john.doe@example.com" mx greylisting_session
           450 "OK" "Try again later" w0);
    try reflexivity; try (cbn; lia).
Defined.

Lemma refused_sender_is_retried_until_attempts_run_out_witness :
  exists w' sent,
    verify_email_with_retries (env_of sender_refused_session)
      (verifier example_resolver) "john.doe@example.com" w0
    = (Ok (None, "SMTP Perm Failure? (5xx): 550 Sender rejected", false), w')
    /\ trace w' = trace w0 ++ sent
    /\ count is_connect sent = 2%nat
    /\ count is_rcpt sent = 0%nat
    /\ count is_sleep sent = 1%nat
    /\ connections w' = 2%nat.
Proof.
  destruct (refused_sender_is_retried_until_attempts_run_out
              (env_of sender_refused_session) (verifier example_resolver)
              "john.doe@example.com" mx sender_refused_session
              550 "Sender rejected" w0)
    as (w' & sent & Hrun & _ & Hrest);
    try reflexivity; try (cbn; lia).
  exists w', sent. split; [exact Hrun|exact Hrest].
Defined.

End RetryExamples.

End Retries.

(* ===================================================================== *)
(** ** domain_utils.py: [normalize_url], alone and with [extract_domain] *)
(* ===================================================================== *)

Section NormalizeUrl.
Import Exceptions Urllib DomainUtils Spec.
Variable urlparse : string -> result (string * ParseResult).

Lemma with_scheme_has_scheme (url_str : string) :
  startswith (with_scheme url_str) "http://"
  || startswith (with_scheme url_str) "https://" = true.
Proof.
  unfold with_scheme.
  destruct (startswith url_str "http://" || startswith url_str "https://")
    eqn:H; [exact H|].
  apply orb_true_iff. right. reflexivity.
Qed.

Lemma with_scheme_idem (url_str : string) :
  with_scheme (with_scheme url_str) = with_scheme url_str.
Proof.
  unfold with_scheme at 1. now rewrite with_scheme_has_scheme.
Qed.

Lemma with_scheme_nonempty (url_str : string) :
  nonempty (with_scheme url_str) = true.
Proof.
  unfold with_scheme.
  destruct (startswith url_str "http://" || startswith url_str "https://")
    eqn:H; [|reflexivity].
  destruct url_str; [discriminate H|reflexivity].
Qed.

(** [normalize_url], case by case on what the parser answers. *)
Lemma normalize_url_cases (url_str : string) :
  url_str <> EmptyString ->
  normalize_url urlparse url_str =
  match urlparse (with_scheme url_str) with
  | Raise e =>
      if isinstance e "ValueError" then
        Raise (UrlParseError ("Failed to parse normalized URL '"
                              +:+ with_scheme url_str +:+ "': "
                              +:+ exn_str e))
      else Raise e
  | Ok (scheme, parsed) =>
      if nonempty scheme && nonempty (netloc parsed)
      then Ok (with_scheme url_str)
      else Raise (UrlParseError
                    ("Invalid URL structure after normalization: "
                     +:+ with_scheme url_str))
  end.
Proof.
  intros Hne. apply nonempty_true in Hne.
  unfold normalize_url. rewrite Hne. cbn [negb].
  rewrite with_scheme_code.
  destruct (urlparse (with_scheme url_str)) as [[scheme parsed]|e].
  - destruct (nonempty scheme), (nonempty (netloc parsed)); reflexivity.
  - cbn. unfold isinstance_any. cbn [existsb]. rewrite orb_false_r.
    destruct (isinstance e "ValueError"); reflexivity.
Qed.

(** [normalize_url] returns its input with [https://] put in front
    unless the input starts with [http://] or [https://]; the result
    starts with one of the two, and normalising it again returns it
    unchanged. *)
Theorem normalize_url_adds_a_scheme_once
        (url_str normalized : string) :
  normalize_url urlparse url_str = Ok normalized ->
  url_str <> EmptyString
  /\ normalized = with_scheme url_str
  /\ (startswith normalized "http://" = true
      \/ startswith normalized "https://" = true)
  /\ (startswith url_str "http://" = true
      \/ startswith url_str "https://" = true -> normalized = url_str)
  /\ normalize_url urlparse normalized = Ok normalized.
Proof.
  intros H.
  assert (Hne : url_str <> EmptyString).
  { intros ->. discriminate H. }
  pose proof H as H0.
  rewrite (normalize_url_cases url_str Hne) in H.
  assert (Heq : normalized = with_scheme url_str).
  { destruct (urlparse (with_scheme url_str)) as [[scheme parsed]|e].
    - destruct (nonempty scheme && nonempty (netloc parsed));
        congruence.
    - destruct (isinstance e "ValueError"); discriminate. }
  split; [exact Hne|]. split; [exact Heq|]. split.
  { rewrite Heq. apply orb_true_iff, with_scheme_has_scheme. }
  split.
  { intros Hs. rewrite Heq. unfold with_scheme.
    apply orb_true_iff in Hs. now rewrite Hs. }
  subst normalized. rewrite normalize_url_cases.
  - rewrite with_scheme_idem. exact H.
  - apply nonempty_true, with_scheme_nonempty.
Qed.

(** Every error of [normalize_url] is an [InsufficientInputError], for
    the empty input and for it only, or a [UrlParseError], both with
    status 400; only an exception of the parser that is no [ValueError]
    passes through. *)
Theorem normalize_url_errors (url_str : string) (e : exn) :
  normalize_url urlparse url_str = Raise e ->
  (url_str = EmptyString
   /\ e = InsufficientInputError "Website URL is empty")
  \/ (url_str <> EmptyString
      /\ ((isinstance e "UrlParseError" = true /\ exn_code e = 400)
          \/ (urlparse (with_scheme url_str) = Raise e
              /\ isinstance e "ValueError" = false))).
Proof.
  destruct (String.string_dec url_str EmptyString) as [->|Hne].
  { cbn. intros [= <-]. left. auto. }
  rewrite (normalize_url_cases url_str Hne). intros H. right.
  split; [exact Hne|].
  destruct (urlparse (with_scheme url_str)) as [[scheme parsed]|e0].
  - destruct (nonempty scheme && nonempty (netloc parsed));
      [discriminate|]. injection H as <-. left. split; reflexivity.
  - destruct (isinstance e0 "ValueError") eqn:Hv.
    + injection H as <-. left. split; reflexivity.
    + injection H as <-. right. auto.
Qed.

(** A URL that [normalize_url] accepts has a host, so [extract_domain],
    run on the same input as [process_record] does, can only fail
    because nothing is left of the host once the port and [www.] are
    removed; otherwise it returns the domain of the network location. *)
Theorem normalized_url_has_a_host (url_str normalized : string) :
  normalize_url urlparse url_str = Ok normalized ->
  exists scheme parsed,
    urlparse normalized = Ok (scheme, parsed)
    /\ scheme <> EmptyString
    /\ netloc parsed <> EmptyString
    /\ extract_domain (without_scheme urlparse) url_str
       = (if nonempty (domain_of_host (netloc parsed))
          then Ok (domain_of_host (netloc parsed))
          else Raise (DomainExtractionError
                        ("Extracted domain is empty for URL: " +:+ url_str))).
Proof.
  intros H.
  assert (Hne : url_str <> EmptyString).
  { intros ->. discriminate H. }
  rewrite (normalize_url_cases url_str Hne) in H.
  rewrite (extract_domain_cases _ url_str Hne). unfold without_scheme.
  destruct (urlparse (with_scheme url_str)) as [[scheme parsed]|e] eqn:Hp.
  2:{ destruct (isinstance e "ValueError"); discriminate. }
  destruct (nonempty scheme) eqn:Hs; [|discriminate].
  destruct (nonempty (netloc parsed)) eqn:Hn; [|discriminate].
  injection H as <-. exists scheme, parsed.
  split; [exact Hp|]. split; [now apply nonempty_true|].
  split; [now apply nonempty_true|].
  unfold host_authority. rewrite Hn. reflexivity.
Qed.

End NormalizeUrl.

Section NormalizeUrlExamples.
Import Exceptions Urllib DomainUtils Spec.

Lemma normalize_url_adds_a_scheme_once_witness :
  normalize_url urlparse_with_scheme "example.com/team"
  = Ok "https://example.com/team"
  /\ normalize_url urlparse_with_scheme "https://example.com/team"
     = Ok "https://example.com/team".
Proof.
  split; [reflexivity|].
  exact (proj2 (proj2 (proj2 (proj2
    (normalize_url_adds_a_scheme_once urlparse_with_scheme
       "example.com/team" "https://example.com/team" eq_refl))))).
Defined.

Lemma normalize_url_errors_witness :
  normalize_url urlparse_with_scheme "http://"
  = Raise (UrlParseError
             "Invalid URL structure after normalization: http://")
  /\ exn_code (UrlParseError
                 "Invalid URL structure after normalization: http://") = 400.
Proof.
  split; [reflexivity|].
  destruct (normalize_url_errors urlparse_with_scheme "http://" _ eq_refl)
    as [[H _]|[_ [[_ H]|[H _]]]]; [discriminate H|exact H|discriminate H].
Defined.

Lemma normalized_url_has_a_host_witness :
  normalize_url urlparse_with_scheme "WWW.Example.com:8080/team"
  = Ok "https://WWW.Example.com:8080/team"
  /\ exists scheme parsed,
      urlparse_with_scheme "https://WWW.Example.com:8080/team"
      = Ok (scheme, parsed)
      /\ scheme <> EmptyString
      /\ netloc parsed <> EmptyString
      /\ extract_domain (without_scheme urlparse_with_scheme)
                        "WWW.Example.com:8080/team"
         = (if nonempty (domain_of_host (netloc parsed))
            then Ok (domain_of_host (netloc parsed))
            else Raise (DomainExtractionError
                          ("Extracted domain is empty for URL: "
                           +:+ "WWW.Example.com:8080/team"))).
Proof.
  split; [reflexivity|].
  exact (normalized_url_has_a_host urlparse_with_scheme
           "WWW.Example.com:8080/team" "https://WWW.Example.com:8080/team"
           eq_refl).
Defined.

End NormalizeUrlExamples.

(* ===================================================================== *)
(** ** The order of strings and [sorted(set(...))] *)
(* ===================================================================== *)

Section StringOrder.

Lemma compare_refl (s : string) : String.compare s s = Eq.
Proof.
  pose proof (String.compare_antisym s s) as H.
  destruct (String.compare s s); [reflexivity|discriminate H|discriminate H].
Qed.

Lemma ascii_compare_lt_trans (a b c : ascii) :
  Ascii.compare a b = Lt -> Ascii.compare b c = Lt -> Ascii.compare a c = Lt.
Proof.
  unfold Ascii.compare. rewrite !N.compare_lt_iff. lia.
Qed.

Lemma compare_lt_trans (a : string) :
  forall b c, String.compare a b = Lt -> String.compare b c = Lt ->
              String.compare a c = Lt.
Proof.
  induction a as [|x a IH]; intros [|y b] [|z c]; cbn; try discriminate;
    try reflexivity.
  destruct (Ascii.compare x y) eqn:Hxy; try discriminate.
  - apply Ascii.compare_eq_iff in Hxy. subst y.
    destruct (Ascii.compare x z); try discriminate; eauto.
  - intros _. destruct (Ascii.compare y z) eqn:Hyz; try discriminate.
    + apply Ascii.compare_eq_iff in Hyz. subst z. now rewrite Hxy.
    + now rewrite (ascii_compare_lt_trans x y z Hxy Hyz).
Qed.

Lemma ltb_asym (a b : string) :
  String.ltb a b = true -> String.ltb b a = false.
Proof.
  unfold String.ltb. rewrite (String.compare_antisym b a).
  destruct (String.compare a b); cbn; congruence.
Qed.

Lemma ltb_not_after_trans (a b c : string) :
  not_after String.ltb a b -> not_after String.ltb b c ->
  not_after String.ltb a c.
Proof.
  unfold not_after, String.ltb. intros Hba Hcb.
  destruct (String.compare c a) eqn:Hca; try reflexivity. exfalso.
  destruct (String.compare c b) eqn:Hcb'; try discriminate.
  - apply String.compare_eq_iff in Hcb'. subst c. now rewrite Hca in Hba.
  - assert (Hbc : String.compare b c = Lt).
    { rewrite String.compare_antisym, Hcb'. reflexivity. }
    now rewrite (compare_lt_trans b c a Hbc Hca) in Hba.
Qed.

Lemma ltb_total (a b : string) :
  a <> b -> String.ltb b a = false -> String.ltb a b = true.
Proof.
  unfold String.ltb. intros Hne. rewrite (String.compare_antisym a b).
  destruct (String.compare b a) eqn:H; cbn; try congruence.
  apply String.compare_eq_iff in H. congruence.
Qed.

Lemma sorted_set_perm (l : list string) :
  Permutation (remove_dups l) (sorted_set l).
Proof. apply sort_by_perm. Qed.

Lemma sorted_set_In (l : list string) (x : string) :
  In x (sorted_set l) <-> In x l.
Proof.
  rewrite <- (list_elem_of_In l), <- elem_of_remove_dups, list_elem_of_In.
  split; apply Permutation_in;
    [apply Permutation_sym|]; apply sorted_set_perm.
Qed.

Lemma sorted_set_NoDup (l : list string) : List.NoDup (sorted_set l).
Proof.
  apply (Permutation_NoDup (sorted_set_perm l)), NoDup_ListNoDup,
    NoDup_remove_dups.
Qed.

Lemma strictly_sorted (l : list string) :
  StronglySorted (not_after String.ltb) l -> List.NoDup l ->
  PatternsSpec.strictly_ascending l.
Proof.
  unfold PatternsSpec.strictly_ascending.
  induction 1 as [|a l Hs IH Ha]; intros Hnd; constructor.
  - apply IH. now inversion Hnd.
  - inversion Hnd as [|? ? Hnotin _]; subst.
    rewrite List.Forall_forall in *. intros b Hb.
    apply ltb_total; [|exact (Ha b Hb)].
    intros ->. contradiction.
Qed.

Lemma sorted_set_ascending (l : list string) :
  PatternsSpec.strictly_ascending (sorted_set l).
Proof.
  apply strictly_sorted; [|apply sorted_set_NoDup].
  apply sort_by_sorted; [exact ltb_asym|exact ltb_not_after_trans].
Qed.

Lemma sorted_set_length (l : list string) :
  (length (sorted_set l) <= length l)%nat.
Proof.
  rewrite <- (Permutation_length (sorted_set_perm l)).
  apply NoDup_incl_length.
  - apply NoDup_ListNoDup, NoDup_remove_dups.
  - intros x. rewrite <- !list_elem_of_In. apply elem_of_remove_dups.
Qed.

(** Two strictly ascending lists with the same elements are equal. *)
Lemma ascending_unique (l1 : list string) :
  forall l2,
    PatternsSpec.strictly_ascending l1 ->
    PatternsSpec.strictly_ascending l2 ->
    (forall x, In x l1 <-> In x l2) -> l1 = l2.
Proof.
  unfold PatternsSpec.strictly_ascending.
  induction l1 as [|a l1 IH]; intros [|b l2] H1 H2 Hin.
  - reflexivity.
  - exfalso. apply (proj2 (Hin b)). now left.
  - exfalso. apply (proj1 (Hin a)). now left.
  - inversion H1 as [|? ? Hs1 Ha]; inversion H2 as [|? ? Hs2 Hb]; subst.
    rewrite List.Forall_forall in Ha, Hb.
    assert (Hab : a = b).
    { destruct (proj1 (Hin a) (or_introl eq_refl)) as [Heq|Hal2];
        [congruence|].
      destruct (proj2 (Hin b) (or_introl eq_refl)) as [Heq|Hbl1];
        [congruence|].
      pose proof (Ha b Hbl1) as Hlt1. pose proof (Hb a Hal2) as Hlt2.
      apply ltb_asym in Hlt1. congruence. }
    subst b. f_equal. apply IH; try assumption.
    intros x. split; intros Hx.
    + destruct (proj1 (Hin x) (or_intror Hx)) as [->|H]; [|exact H].
      pose proof (Ha x Hx) as Hlt. unfold String.ltb in Hlt.
      now rewrite compare_refl in Hlt.
    + destruct (proj2 (Hin x) (or_intror Hx)) as [->|H]; [|exact H].
      pose proof (Hb x Hx) as Hlt. unfold String.ltb in Hlt.
      now rewrite compare_refl in Hlt.
Qed.

(** The result of [sorted(set(l))] depends on the elements of [l] only:
    not on their order, as the iteration of a set needs. *)
Lemma sorted_set_ext (l1 l2 : list string) :
  (forall x, In x l1 <-> In x l2) -> sorted_set l1 = sorted_set l2.
Proof.
  intros H. apply ascending_unique; try apply sorted_set_ascending.
  intros x. now rewrite !sorted_set_In.
Qed.

End StringOrder.

(* ===================================================================== *)
(** ** patterns.py *)
(* ===================================================================== *)

Section PatternsSection.
Import Config Patterns PatternsSpec.

Lemma append_nil_r (s : string) : s +:+ EmptyString = s.
Proof.
  induction s as [|c s IH]; [reflexivity|].
  change (String c (s +:+ EmptyString) = String c s). now rewrite IH.
Qed.

Lemma append_assoc (a b c : string) : (a +:+ b) +:+ c = a +:+ (b +:+ c).
Proof.
  induction a as [|x a IH]; [reflexivity|].
  change (String x ((a +:+ b) +:+ c) = String x (a +:+ (b +:+ c))).
  now rewrite IH.
Qed.

Lemma concat_empty_cons (x : string) (l : list string) :
  String.concat EmptyString (x :: l) = x +:+ String.concat EmptyString l.
Proof.
  destruct l as [|y l]; cbn; [now rewrite append_nil_r|reflexivity].
Qed.

Lemma split_whitespace_from_concat (s : string) :
  forall word,
    String.concat EmptyString (split_whitespace_from word s)
    = word +:+ without_space s.
Proof.
  induction s as [|c s IH]; intros word; cbn [split_whitespace_from
                                                 without_space].
  - rewrite append_nil_r. destruct word; reflexivity.
  - destruct (is_space c).
    + destruct (nonempty word) eqn:Hw.
      * rewrite concat_empty_cons, IH. reflexivity.
      * apply nonempty_false in Hw. subst word. apply IH.
    + rewrite IH, append_assoc. reflexivity.
Qed.

Lemma sanitize_name_part_eq (part : string) :
  _sanitize_name_part part = lower (without_space part).
Proof.
  unfold _sanitize_name_part, split_whitespace.
  destruct part as [|c part]; [reflexivity|]. cbn [nonempty negb].
  now rewrite split_whitespace_from_concat.
Qed.

Lemma is_space_lower_char (c : ascii) : is_space (lower_char c) = is_space c.
Proof.
  destruct c as [[] [] [] [] [] [] [] []]; reflexivity.
Qed.

Lemma without_space_lower (s : string) :
  without_space (lower s) = lower (without_space s).
Proof.
  induction s as [|c s IH]; [reflexivity|]. cbn.
  rewrite is_space_lower_char. destruct (is_space c); cbn; now rewrite IH.
Qed.

Lemma without_space_idem (s : string) :
  without_space (without_space s) = without_space s.
Proof.
  induction s as [|c s IH]; [reflexivity|]. cbn.
  destruct (is_space c) eqn:Hc; [exact IH|]. cbn. now rewrite Hc, IH.
Qed.

Lemma without_space_blank (s : string) :
  nonempty (without_space s) = negb (blank s).
Proof.
  unfold blank. induction s as [|c s IH]; [reflexivity|]. cbn.
  destruct (is_space c); [exact IH|reflexivity].
Qed.

Lemma nonempty_lower (s : string) : nonempty (lower s) = nonempty s.
Proof. destruct s; reflexivity. Qed.

Lemma sanitize_name_part_idem (part : string) :
  _sanitize_name_part (_sanitize_name_part part) = _sanitize_name_part part.
Proof.
  rewrite !sanitize_name_part_eq, without_space_lower, without_space_idem.
  apply lower_idem.
Qed.

Lemma sanitize_name_part_nonempty (part : string) :
  nonempty (_sanitize_name_part part) = negb (blank part).
Proof.
  now rewrite sanitize_name_part_eq, nonempty_lower, without_space_blank.
Qed.

Lemma blank_empty (s : string) : nonempty s = false -> blank s = true.
Proof. destruct s; [reflexivity|discriminate]. Qed.

Lemma nonempty_app_l (a b : string) :
  nonempty a = true -> nonempty (a +:+ b) = true.
Proof. destruct a; [discriminate|reflexivity]. Qed.

Lemma nonempty_app_r (a b : string) :
  nonempty b = true -> nonempty (a +:+ b) = true.
Proof. destruct a; [auto|reflexivity]. Qed.

Lemma local_parts_nonempty (first last : string) :
  nonempty first = true -> nonempty last = true ->
  Forall (fun lp => nonempty lp = true) (local_parts first last).
Proof.
  intros Hf Hl. unfold local_parts.
  repeat apply Forall_app_2; repeat constructor;
    auto using nonempty_app_l, nonempty_app_r.
  - destruct (3 <=? String.length first)%nat; repeat constructor;
      auto using nonempty_app_r.
  - destruct (3 <=? String.length last)%nat; repeat constructor;
      auto using nonempty_app_l.
Qed.

Lemma local_parts_length (first last : string) :
  (length (local_parts first last) <= 15)%nat.
Proof.
  unfold local_parts. rewrite !length_app.
  destruct (3 <=? String.length first)%nat,
           (3 <=? String.length last)%nat; cbn; lia.
Qed.

(** The generator, once the guards are passed. *)
Lemma generate_email_patterns_eq (first_name last_name domain : string)
      (settings : Settings) :
  generate_email_patterns first_name last_name domain settings
  = if blank first_name || blank last_name || negb (contains "." domain)
    then []
    else sorted_set
           (List.filter (email_regex_match settings)
              (map (fun lp => lp +:+ "@" +:+ domain)
                 (local_parts (_sanitize_name_part first_name)
                              (_sanitize_name_part last_name)))).
Proof.
  unfold generate_email_patterns.
  destruct (nonempty first_name) eqn:Hf; cbn [negb orb].
  2:{ now rewrite (blank_empty _ Hf). }
  destruct (nonempty last_name) eqn:Hl; cbn [negb orb].
  2:{ rewrite (blank_empty _ Hl). now rewrite orb_true_r. }
  destruct (nonempty domain) eqn:Hd; cbn [negb orb].
  2:{ apply nonempty_false in Hd. subst domain. cbn.
      now rewrite !orb_true_r. }
  destruct (contains "." domain); cbn [negb]; [|now rewrite !orb_true_r].
  rewrite !orb_false_r, !sanitize_name_part_nonempty.
  destruct (blank first_name) eqn:Hbf; [reflexivity|].
  destruct (blank last_name) eqn:Hbl; [reflexivity|]. cbn [negb orb].
  f_equal. f_equal. f_equal.
  pose proof (local_parts_nonempty (_sanitize_name_part first_name)
                (_sanitize_name_part last_name)) as Hne.
  rewrite !sanitize_name_part_nonempty, Hbf, Hbl in Hne.
  specialize (Hne eq_refl eq_refl).
  induction Hne as [|lp l Hlp _ IH]; [reflexivity|].
  cbn. rewrite Hlp. now f_equal.
Qed.

(** What [generate_email_patterns] returns: nothing when a name is empty
    or all white space or the domain has no dot; otherwise the addresses
    [local@domain] that the e-mail expression matches, for the local
    parts built from the sanitized names, in ascending order and without
    duplicates, at most fifteen. *)
Theorem generate_email_patterns_are_the_matching_local_parts
        (first_name last_name domain : string) (settings : Settings) :
  let patterns :=
    generate_email_patterns first_name last_name domain settings in
  (blank first_name || blank last_name || negb (contains "." domain) = true
   -> patterns = [])
  /\ (blank first_name || blank last_name || negb (contains "." domain)
      = false ->
      forall p,
        In p patterns <->
        exists lp,
          In lp (local_parts (_sanitize_name_part first_name)
                             (_sanitize_name_part last_name))
          /\ p = lp +:+ "@" +:+ domain
          /\ email_regex_match settings p = true)
  /\ strictly_ascending patterns
  /\ (length patterns <= 15)%nat.
Proof.
  intros patterns. subst patterns. rewrite generate_email_patterns_eq.
  destruct (blank first_name || blank last_name
            || negb (contains "." domain)).
  { repeat split; try discriminate; try constructor. cbn. lia. }
  split; [discriminate|]. split; [|split].
  - intros _ p. rewrite sorted_set_In, List.filter_In, List.in_map_iff.
    split.
    + intros [(lp & <- & Hlp) Hre]. eauto.
    + intros (lp & Hlp & -> & Hre). eauto.
  - apply sorted_set_ascending.
  - etransitivity; [apply sorted_set_length|].
    etransitivity; [apply List.filter_length_le|].
    rewrite length_map. apply local_parts_length.
Qed.

(** The patterns depend on the names only through their sanitized form:
    names that differ in case or in white space give the same patterns,
    and sanitizing is idempotent. *)
Theorem generate_email_patterns_ignores_case_and_white_space
        (first_name first_name' last_name last_name' domain : string)
        (settings : Settings) :
  _sanitize_name_part first_name = _sanitize_name_part first_name' ->
  _sanitize_name_part last_name = _sanitize_name_part last_name' ->
  generate_email_patterns first_name last_name domain settings
  = generate_email_patterns first_name' last_name' domain settings
  /\ generate_email_patterns (_sanitize_name_part first_name)
       (_sanitize_name_part last_name) domain settings
     = generate_email_patterns first_name last_name domain settings.
Proof.
  intros Hf Hl. rewrite !generate_email_patterns_eq.
  rewrite !sanitize_name_part_idem.
  assert (Hb : forall s, blank s = negb (nonempty (_sanitize_name_part s))).
  { intros s. now rewrite sanitize_name_part_nonempty, negb_involutive. }
  rewrite !(Hb first_name), !(Hb last_name), !(Hb first_name'),
    !(Hb last_name'), !(Hb (_sanitize_name_part first_name)),
    !(Hb (_sanitize_name_part last_name)), !sanitize_name_part_idem.
  rewrite <- Hf, <- Hl. split; reflexivity.
Qed.

(** [extract_emails_from_text] returns the matches of the e-mail
    expression in lower case, in ascending order and without duplicates;
    the empty text has none. *)
Theorem extract_emails_from_text_is_lower_case_and_ascending
        (findall : string -> list string) (text : string) :
  let emails := extract_emails_from_text findall text in
  (forall email,
      In email emails <->
      text <> EmptyString /\ exists found, In found (findall text)
                                          /\ email = lower found)
  /\ Forall (fun email => lower email = email) emails
  /\ strictly_ascending emails.
Proof.
  intros emails. subst emails. unfold extract_emails_from_text.
  destruct text as [|c text]; cbn [nonempty negb].
  { split; [|split; constructor].
    intros email. split; [intros []|intros [H _]; congruence]. }
  assert (Hin : forall email,
             In email (sorted_set (map lower (findall (String c text))))
             <-> exists found, In found (findall (String c text))
                               /\ email = lower found).
  { intros email. rewrite sorted_set_In, List.in_map_iff.
    split; intros (found & H1 & H2); eauto. }
  split; [|split].
  - intros email. rewrite Hin. split; [intros H; split; [discriminate|exact H]
                                      |intros [_ H]; exact H].
  - apply List.Forall_forall. intros email Hemail.
    apply Hin in Hemail as (found & _ & ->). apply lower_idem.
  - apply sorted_set_ascending.
Qed.

End PatternsSection.

(* ===================================================================== *)
(** ** patterns.py and beacon.py: how the patterns of a name are scored *)
(* ===================================================================== *)

Section PatternCandidates.
Import Urllib Config Patterns PatternsSpec Beacon BeaconSpec.

Lemma lower_app (a b : string) : lower (a +:+ b) = lower a +:+ lower b.
Proof.
  induction a as [|x a IH]; [reflexivity|].
  change (String (lower_char x) (lower (a +:+ b))
          = String (lower_char x) (lower a +:+ lower b)).
  now rewrite IH.
Qed.

Lemma lower_substring (s : string) :
  forall n m, lower (substring n m s) = substring n m (lower s).
Proof.
  induction s as [|c s IH]; intros [|n] [|m]; cbn; try reflexivity;
    now rewrite IH.
Qed.

Lemma all_chars_app (p : ascii -> bool) (a b : string) :
  all_chars p (a +:+ b) = all_chars p a && all_chars p b.
Proof.
  induction a as [|x a IH]; [reflexivity|].
  change (p x && all_chars p (a +:+ b)
          = p x && all_chars p a && all_chars p b).
  now rewrite IH, andb_assoc.
Qed.

Lemma all_chars_substring (p : ascii -> bool) (s : string) :
  forall n m, all_chars p s = true -> all_chars p (substring n m s) = true.
Proof.
  induction s as [|c s IH]; intros [|n] [|m]; cbn; try reflexivity;
    rewrite ?andb_true_iff; intros [Hc Hs]; auto.
Qed.

Lemma all_chars_impl (p q : ascii -> bool) (s : string) :
  (forall c, p c = true -> q c = true) ->
  all_chars p s = true -> all_chars q s = true.
Proof.
  intros Hpq. induction s as [|c s IH]; [reflexivity|]. cbn.
  rewrite !andb_true_iff. intros [Hc Hs]. auto.
Qed.

Lemma all_chars_lower (p : ascii -> bool) (s : string) :
  (forall c, p (lower_char c) = p c) ->
  all_chars p (lower s) = all_chars p s.
Proof.
  intros Hp. induction s as [|c s IH]; [reflexivity|]. cbn.
  now rewrite Hp, IH.
Qed.

Lemma not_at_lower_char (c : ascii) :
  negb (Ascii.eqb (lower_char c) "@") = negb (Ascii.eqb c "@").
Proof. destruct c as [[] [] [] [] [] [] [] []]; reflexivity. Qed.

Lemma without_space_plain (s : string) :
  all_chars (fun c => negb (is_space c)) s = true -> without_space s = s.
Proof.
  induction s as [|c s IH]; [reflexivity|]. cbn.
  rewrite andb_true_iff. intros [Hc Hs].
  destruct (is_space c); [discriminate|]. now rewrite IH.
Qed.

Lemma startswith_prefix (sub t : string) : startswith (sub +:+ t) sub = true.
Proof.
  induction sub as [|x sub IH]; [reflexivity|].
  change (Ascii.eqb x x && startswith (sub +:+ t) sub = true).
  now rewrite Ascii.eqb_refl, IH.
Qed.

Lemma contains_here (sub s : string) :
  startswith s sub = true -> contains sub s = true.
Proof. destruct s; cbn; intros ->; reflexivity. Qed.

Lemma contains_app_l (sub p t : string) :
  contains sub t = true -> contains sub (p +:+ t) = true.
Proof.
  intros H. induction p as [|x p IH]; [exact H|].
  change (startswith (String x (p +:+ t)) sub || contains sub (p +:+ t)
          = true).
  rewrite IH. apply orb_true_r.
Qed.

Lemma contains_mid (sub p t : string) :
  contains sub (p +:+ sub +:+ t) = true.
Proof. apply contains_app_l, contains_here, startswith_prefix. Qed.

Lemma contains_end (sub p : string) : contains sub (p +:+ sub) = true.
Proof.
  rewrite <- (append_nil_r sub) at 2. apply contains_mid.
Qed.

Lemma contains_start (sub t : string) : contains sub (sub +:+ t) = true.
Proof. apply contains_here, startswith_prefix. Qed.

Lemma contains_self (sub : string) : contains sub sub = true.
Proof. rewrite <- (append_nil_r sub) at 2. apply contains_start. Qed.

(** The local part of an address without [@] in its local part. *)
Lemma partition_local_part (lp domain : string) :
  all_chars (fun c => negb (Ascii.eqb c "@")) lp = true ->
  partition (lp +:+ "@" +:+ domain) "@" = (lp, Some domain).
Proof.
  induction lp as [|c lp IH]; [reflexivity|]. cbn [all_chars].
  rewrite andb_true_iff. intros [Hc Hlp].
  change (partition (String c (lp +:+ "@" +:+ domain)) "@"
          = (String c lp, Some domain)).
  cbn [partition]. apply negb_true_iff in Hc. rewrite Hc, (IH Hlp).
  reflexivity.
Qed.

(** Every local part that the generator builds holds one of the two
    names, and has no [@] when the names have none. *)
Lemma local_parts_hold_a_name (first last : string) :
  Forall (fun lp => name_in first last lp = true) (local_parts first last).
Proof.
  assert (Hfind : forall sub p t, contains sub t = true ->
                                  contains sub (p +:+ t) = true)
    by (intros; now apply contains_app_l).
  unfold local_parts, name_in.
  destruct (3 <=? String.length first)%nat,
           (3 <=? String.length last)%nat;
    repeat apply Forall_app_2; repeat constructor;
    apply orb_true_iff;
    first [ left; solve [repeat first [apply contains_self
                                      | apply contains_start
                                      | apply Hfind]]
          | right; solve [repeat first [apply contains_self
                                       | apply contains_start
                                       | apply Hfind]] ].
Qed.

Lemma local_parts_all_chars (p : ascii -> bool) (first last : string) :
  p "."%char = true -> p "_"%char = true -> p "-"%char = true ->
  all_chars p first = true -> all_chars p last = true ->
  Forall (fun lp => all_chars p lp = true) (local_parts first last).
Proof.
  intros Hdot Hus Hhy Hf Hl. unfold local_parts.
  pose proof (all_chars_substring p first 0 1 Hf) as Hf1.
  pose proof (all_chars_substring p last 0 1 Hl) as Hl1.
  pose proof (all_chars_substring p first 0 3 Hf) as Hf3.
  pose proof (all_chars_substring p last 0 3 Hl) as Hl3.
  repeat apply Forall_app_2; repeat constructor;
    rewrite ?all_chars_app; cbn [all_chars];
    rewrite ?Hdot, ?Hus, ?Hhy, ?Hf, ?Hl, ?Hf1, ?Hl1; try reflexivity.
  - destruct (3 <=? String.length first)%nat; repeat constructor.
    now rewrite all_chars_app, Hf3, Hl.
  - destruct (3 <=? String.length last)%nat; repeat constructor.
    now rewrite all_chars_app, Hf, Hl3.
Qed.

(** For names without white space and without [@], and a lower-case
    domain, every generated pattern is a lower-case address of the
    domain whose local part holds the first or the last name as
    [find_email] looks for it. As a candidate it is therefore counted as a
    pattern on the primary domain with the name in its local part: unless
    its local part is a generic prefix, it scores at least 4 before SMTP
    and is verified by SMTP. *)
Theorem patterns_of_plain_names_are_name_candidates
        (B : MailBeacon) (first_name last_name domain : string)
        (scraped_emails : list string) (p : string) :
  plain first_name = true ->
  plain last_name = true ->
  lower domain = domain ->
  let patterns :=
    Patterns.generate_email_patterns first_name last_name domain
                                     (settings B) in
  In p patterns ->
  exists lp,
    p = lp +:+ "@" +:+ domain
    /\ partition p "@" = (lp, Some domain)
    /\ lower p = p
    /\ let f := flags_of B (lower first_name) (lower last_name) domain
                         patterns scraped_emails p lp domain in
       is_pattern f = true
       /\ matches_primary_domain f = true
       /\ name_in_local f = true
       /\ (generic f = false ->
           4 <= initial_confidence f /\ verifies f = true).
Proof.
  intros Hf Hl Hd patterns Hin.
  assert (Hsan : forall s, plain s = true ->
                           _sanitize_name_part s = lower s).
  { intros s Hs. rewrite sanitize_name_part_eq. f_equal.
    apply without_space_plain.
    revert Hs. apply all_chars_impl. intros c.
    rewrite andb_true_iff. tauto. }
  assert (Hat : forall s, plain s = true ->
                          all_chars (fun c => negb (Ascii.eqb c "@"))
                                    (lower s) = true).
  { intros s Hs. rewrite all_chars_lower by apply not_at_lower_char.
    revert Hs. apply all_chars_impl. intros c.
    rewrite andb_true_iff. tauto. }
  pose proof Hin as Hin0. subst patterns.
  rewrite generate_email_patterns_eq in Hin.
  destruct (blank first_name || blank last_name
            || negb (contains "." domain)); [destruct Hin|].
  rewrite sorted_set_In, List.filter_In, List.in_map_iff in Hin.
  destruct Hin as [(lp & <- & Hlp) _].
  rewrite (Hsan _ Hf), (Hsan _ Hl) in Hlp.
  pose proof (local_parts_hold_a_name (lower first_name) (lower last_name))
    as Hname.
  pose proof (local_parts_all_chars _ (lower first_name) (lower last_name)
                eq_refl eq_refl eq_refl (Hat _ Hf) (Hat _ Hl)) as Hnoat.
  pose proof (local_parts_all_chars (fun c => Ascii.eqb (lower_char c) c)
                (lower first_name) (lower last_name)
                eq_refl eq_refl eq_refl) as Hlow.
  assert (Hlc : forall s, all_chars (fun c => Ascii.eqb (lower_char c) c)
                                    (lower s) = true).
  { intros s. induction s as [|c s IH]; [reflexivity|]. cbn.
    now rewrite lower_char_idem, Ascii.eqb_refl, IH. }
  specialize (Hlow (Hlc _) (Hlc _)).
  rewrite List.Forall_forall in Hname, Hnoat, Hlow.
  specialize (Hname lp Hlp). specialize (Hnoat lp Hlp).
  specialize (Hlow lp Hlp).
  assert (Hlplow : lower lp = lp).
  { clear -Hlow. induction lp as [|c lp IH]; [reflexivity|].
    cbn in Hlow |- *. apply andb_true_iff in Hlow as [Hc Hrest].
    apply Ascii.eqb_eq in Hc. now rewrite Hc, IH. }
  exists lp. split; [reflexivity|].
  split; [exact (partition_local_part lp domain Hnoat)|].
  split.
  { rewrite !lower_app, Hlplow, Hd. reflexivity. }
  cbn [flags_of is_pattern matches_primary_domain name_in_local generic].
  assert (Hpat : in_list (lp +:+ "@" +:+ domain)
                   (Patterns.generate_email_patterns first_name last_name
                      domain (settings B)) = true).
  { unfold in_list. apply bool_decide_eq_true, list_elem_of_In. exact Hin0. }
  split; [exact Hpat|]. split; [apply String.eqb_refl|].
  split; [exact Hname|].
  intros Hgen. unfold initial_confidence, verifies, initial_confidence.
  cbn [is_pattern is_scraped generic matches_primary_domain name_in_local
       flags_of].
  rewrite Hpat, Hname, Hgen, String.eqb_refl.
  destruct (in_list (lp +:+ "@" +:+ domain) scraped_emails);
    cbn; split; (lia || reflexivity).
Qed.

End PatternCandidates.

Section PatternExamples.
Import Urllib Config Patterns PatternsSpec Beacon BeaconSpec Scenarios.

Lemma generate_email_patterns_are_the_matching_local_parts_witness :
  Patterns.generate_email_patterns "  " "Doe" "example.com" default_settings = []
  /\ In "j.doe@example.com"
        (Patterns.generate_email_patterns "John" "Doe" "example.com" default_settings).
Proof.
  split.
  - exact (proj1 (generate_email_patterns_are_the_matching_local_parts
                    "  " "Doe" "example.com" default_settings) eq_refl).
  - apply (proj1 (proj2 (generate_email_patterns_are_the_matching_local_parts
                           "John" "Doe" "example.com" default_settings))
             eq_refl).
    exists "j.doe". split; [|split; reflexivity].
    vm_compute. repeat (first [left; reflexivity | right]).
Defined.

Lemma generate_email_patterns_ignores_case_and_white_space_witness :
  Patterns.generate_email_patterns " JOHN " "d o e" "example.com" default_settings
  = Patterns.generate_email_patterns "John" "Doe" "example.com" default_settings.
Proof.
  exact (proj1 (generate_email_patterns_ignores_case_and_white_space
                  " JOHN " "John" "d o e" "Doe" "example.com"
                  default_settings eq_refl eq_refl)).
Defined.

Lemma patterns_of_plain_names_are_name_candidates_witness :
  plain "Jane" = true /\ plain "Smith" = true
  /\ exists lp,
      partition "j.smith@acme.com" "@" = (lp, Some "acme.com")
      /\ verifies (flags_of acme "jane" "smith" "acme.com"
                     (Patterns.generate_email_patterns "Jane" "Smith" "acme.com"
                                              default_settings)
                     [] "j.smith@acme.com" lp "acme.com") = true.
Proof.
  split; [reflexivity|]. split; [reflexivity|].
  destruct (patterns_of_plain_names_are_name_candidates acme "Jane" "Smith"
              "acme.com" [] "j.smith@acme.com" eq_refl eq_refl eq_refl)
    as (lp & _ & Hpart & _ & _ & _ & _ & Hscore).
  { vm_compute. repeat (first [left; reflexivity | right]). }
  exists lp. split; [exact Hpart|].
  apply Hscore. vm_compute in Hpart. injection Hpart as <-. reflexivity.
Defined.

End PatternExamples.

